(** * KYC document validation and submission pipeline

    A shallow embedding of the rule-based document validator
    and of the reading of the LLM's answer ([document_processor.py]), of
    the submission pipeline ([main.py]), and of the operations of the
    case store it calls and the generation of customer identifiers
    ([database.py]), followed by the properties proved about them.

    Conventions of the embedding:
    - Python [str] is [string], read as a sequence of code points below 256;
      [str.lower], [str.isspace], [str.isdigit] and the regular-expression
      classes are written out for that range.
    - Python [float] is the kernel's binary64 [float]: the arithmetic of the
      similarity scores is bit-exact.
    - Python [dict] is [gmap string value]; JSON-like values are [value].
    - Code that can raise is written in the error monad [result]; a
      [try]/[except] of the source is a [match] on the result.
    - Calls into libraries whose behaviour is not part of the repository
      ([json.loads], [float()], [repr], [datetime.strptime]) are fields of a
      [runtime] record that the embedded functions take as an argument.
    - What surrounds a submission (the documents directory, the external
      agents, what the database engine accepts) is an [environment]
      record. *)

From Stdlib Require Import ZArith NArith Floats Uint63 Ascii String Bool List Lia.
From stdpp Require Import gmap strings list.

Set Warnings "-inexact-float,-register-all".
Open Scope Z_scope.

(* ================================================================== *)
(** * Python values *)
(* ================================================================== *)

Module Py.

Inductive value :=
| VNone
| VBool (b : bool)
| VInt (n : Z)
| VFloat (f : float)
| VStr (s : string)
| VList (l : list value)
| VDict (d : gmap string value).

Abbreviation dict := (gmap string value).

(** Exceptions the embedded code can raise, with the data [str(e)] shows.
    [DatabaseError] is an exception of the database layer
    ([sqlalchemy.exc]); of its text only what the engine reports is
    kept, not the statement that follows it. *)
Inductive exn :=
| AttributeError (type_name attr : string)
| IndexError
| KeyError (key : string)
| TypeError (msg : string)
| ValueError (msg : string)
| OSError (msg : string)
| DatabaseError (msg : string).

Inductive result (A : Type) :=
| Ok (a : A)
| Raise (e : exn).
Arguments Ok {A} a.
Arguments Raise {A} e.

Definition bind {A B} (m : result A) (k : A -> result B) : result B :=
  match m with
  | Ok a => k a
  | Raise e => Raise e
  end.

Definition type_name (v : value) : string :=
  match v with
  | VNone => "NoneType"
  | VBool _ => "bool"
  | VInt _ => "int"
  | VFloat _ => "float"
  | VStr _ => "str"
  | VList _ => "list"
  | VDict _ => "dict"
  end.

Definition exn_str (e : exn) : string :=
  match e with
  | AttributeError t a =>
      "'" +:+ t +:+ "' object has no attribute '" +:+ a +:+ "'"
  | IndexError => "list index out of range"
  | KeyError k => "'" +:+ k +:+ "'"
  | TypeError m => m
  | ValueError m => m
  | OSError m => m
  | DatabaseError m => m
  end.

(** [bool(v)]: the truth value Python gives [v] in [if v], [v or w],
    [not v]. *)
Definition truthy (v : value) : bool :=
  match v with
  | VNone => false
  | VBool b => b
  | VInt n => negb (n =? 0)
  | VFloat f => negb (PrimFloat.eqb f 0)
  | VStr s => negb (bool_decide (s = ""))
  | VList l => negb (bool_decide (length l = 0%nat))
  | VDict d => negb (bool_decide (size d = 0%nat))
  end.

(** A [dict] literal: a key written twice keeps its last value. *)
Definition dict_literal {V} (entries : list (string * V)) : gmap string V :=
  foldl (fun m kv => <[kv.1 := kv.2]> m) ∅ entries.

(** [bool(s)] for a string *)
Definition nonempty_str (s : string) : bool := negb (bool_decide (s = "")).

(** [a or b] *)
Definition py_or (a b : value) : value := if truthy a then a else b.

(** [d.get(k, default)] and [d.get(k)] *)
Definition get_default (d : dict) (k : string) (default : value) : value :=
  match d !! k with
  | Some v => v
  | None => default
  end.

Definition get (d : dict) (k : string) : value := get_default d k VNone.

(** [v == "literal"] *)
Definition is_str (v : value) (s : string) : bool :=
  match v with
  | VStr t => bool_decide (t = s)
  | _ => false
  end.

(** The receiver of a [str] method: anything else raises [AttributeError]. *)
Definition as_str (v : value) (method : string) : result string :=
  match v with
  | VStr s => Ok s
  | _ => Raise (AttributeError (type_name v) method)
  end.

(** The receiver of a [dict] method. *)
Definition as_dict (v : value) (method : string) : result dict :=
  match v with
  | VDict d => Ok d
  | _ => Raise (AttributeError (type_name v) method)
  end.

(** ** Numbers *)

(** The exact integer value of a float, when it has one. *)
Definition float_to_Z (f : float) : option Z :=
  match Prim2SF f with
  | S754_zero _ => Some 0
  | S754_finite sign m e =>
      let z := if sign then Z.neg m else Z.pos m in
      if 0 <=? e then Some (z * 2 ^ e)
      else if (z mod 2 ^ (- e)) =? 0 then Some (z / 2 ^ (- e))
      else None
  | _ => None
  end.

Definition float_of_Z (n : Z) : float :=
  if n <? 0 then PrimFloat.opp (PrimFloat.of_uint63 (Uint63.of_Z (- n)))
  else PrimFloat.of_uint63 (Uint63.of_Z n).

Definition float_of_nat (n : nat) : float := float_of_Z (Z.of_nat n).

(** Numeric [==] across [bool], [int] and [float]; [None] on a
    non-number. *)
Definition num_eqb (a b : value) : option bool :=
  let as_int v :=
    match v with
    | VBool b => Some (if b then 1 else 0)
    | VInt n => Some n
    | _ => None
    end in
  match a, b with
  | VFloat f, VFloat g => Some (PrimFloat.eqb f g)
  | VFloat f, _ =>
      match as_int b with
      | Some n => Some (match float_to_Z f with Some z => z =? n | None => false end)
      | None => None
      end
  | _, VFloat g =>
      match as_int a with
      | Some n => Some (match float_to_Z g with Some z => z =? n | None => false end)
      | None => None
      end
  | _, _ =>
      match as_int a, as_int b with
      | Some n, Some m => Some (n =? m)
      | _, _ => None
      end
  end.

(** [a == b] *)
Fixpoint py_eqb (a b : value) {struct a} : bool :=
  match a, b with
  | VNone, VNone => true
  | VStr s, VStr t => bool_decide (s = t)
  | VList l1, VList l2 =>
      (fix go (l1 l2 : list value) : bool :=
         match l1, l2 with
         | [], [] => true
         | x :: xs, y :: ys => py_eqb x y && go xs ys
         | _, _ => false
         end) l1 l2
  | VDict d1, VDict d2 =>
      bool_decide (size d1 = size d2) &&
      map_fold (fun k v acc =>
                  acc && match d2 !! k with
                         | Some w => py_eqb v w
                         | None => false
                         end) true d1
  | _, _ =>
      match num_eqb a b with
      | Some r => r
      | None => false
      end
  end.

(** [v > n] for an integer literal [n] that a float holds exactly.
    Comparing a string or a container with a number raises. *)
Definition gt_int (v : value) (n : Z) : result bool :=
  match v with
  | VBool b => Ok ((if b then 1 else 0) >? n)
  | VInt m => Ok (m >? n)
  | VFloat f => Ok (PrimFloat.ltb (float_of_Z n) f)
  | _ =>
      Raise (TypeError ("'>' not supported between instances of '"
                        +:+ type_name v +:+ "' and 'int'"))
  end.

End Py.

(* ================================================================== *)
(** * Python string methods *)
(* ================================================================== *)

Module Str.

Definition in_range (lo hi n : N) : bool := ((lo <=? n) && (n <=? hi))%N.

(** [c.isspace()], also the separators of [split()] and [strip()] and the
    class [\s] of [re]. *)
Definition isspace (c : ascii) : bool :=
  let n := N_of_ascii c in
  in_range 9 13 n || in_range 28 32 n || (n =? 133)%N || (n =? 160)%N.

(** [c.isdigit()] *)
Definition isdigit_char (c : ascii) : bool :=
  let n := N_of_ascii c in
  in_range 48 57 n || in_range 178 179 n || (n =? 185)%N.

(** The class [\w] of [re] on [str] patterns. *)
Definition isword (c : ascii) : bool :=
  let n := N_of_ascii c in
  in_range 48 57 n || in_range 65 90 n || (n =? 95)%N || in_range 97 122 n
  || (n =? 170)%N || in_range 178 179 n || (n =? 181)%N || in_range 185 186 n
  || in_range 188 190 n || in_range 192 214 n || in_range 216 246 n
  || in_range 248 255 n.

Definition lower_char (c : ascii) : ascii :=
  let n := N_of_ascii c in
  if in_range 65 90 n || in_range 192 214 n || in_range 216 222 n
  then ascii_of_N (n + 32)
  else c.

(** [s.lower()] *)
Fixpoint lower (s : string) : string :=
  match s with
  | EmptyString => EmptyString
  | String c s' => String (lower_char c) (lower s')
  end.

(** [s.split()]: the maximal runs of non-space characters, in order.
    [cur] holds the current run, last character first. *)
Fixpoint split_go (cur : string) (s : string) : list string :=
  match s with
  | EmptyString =>
      match cur with
      | EmptyString => []
      | _ => [String.rev cur]
      end
  | String c s' =>
      if isspace c then
        match cur with
        | EmptyString => split_go EmptyString s'
        | _ => String.rev cur :: split_go EmptyString s'
        end
      else split_go (String c cur) s'
  end.

Definition split (s : string) : list string := split_go EmptyString s.

Fixpoint lstrip (s : string) : string :=
  match s with
  | EmptyString => EmptyString
  | String c s' => if isspace c then lstrip s' else s
  end.

Definition rstrip (s : string) : string := String.rev (lstrip (String.rev s)).

(** [s.strip()] *)
Definition strip (s : string) : string := rstrip (lstrip s).

(** [sep.join(l)] *)
Definition join (sep : string) (l : list string) : string := String.concat sep l.

(** [s.startswith(p)] *)
Definition startswith (s p : string) : bool := String.prefix p s.

(** [needle in hay] on strings *)
Fixpoint contains (needle hay : string) : bool :=
  String.prefix needle hay
  || match hay with
     | EmptyString => false
     | String _ hay' => contains needle hay'
     end.

(** [s.isdigit()] *)
Definition isdigit (s : string) : bool :=
  match s with
  | EmptyString => false
  | _ => forallb isdigit_char (list_ascii_of_string s)
  end.

(** [s.replace(c, '')] for a one-character [c]. *)
Fixpoint remove_char (c : ascii) (s : string) : string :=
  match s with
  | EmptyString => EmptyString
  | String a s' =>
      if Ascii.eqb a c then remove_char c s' else String a (remove_char c s')
  end.

(** [re.sub(cls, ' ', s)] for a pattern [cls] that is a negated class:
    every character outside [keep] becomes a space. *)
Fixpoint sub_outside (keep : ascii -> bool) (s : string) : string :=
  match s with
  | EmptyString => EmptyString
  | String a s' =>
      String (if keep a then a else " "%char) (sub_outside keep s')
  end.

(** [' '.join(s.split())]: applied to [s.lower()] it gives the normal
    form [_fuzzy_match] compares. *)
Definition squeeze (s : string) : string := join " " (split s).

End Str.

(* ================================================================== *)
(** * Fuzzy matching ([document_processor.py], [_fuzzy_match] and below) *)
(* ================================================================== *)

Module Fuzzy.
Import Py Str.

Definition abbreviations : gmap string string :=
  dict_literal
    [ ("st", "street"); ("ave", "avenue"); ("rd", "road"); ("dr", "drive");
      ("ln", "lane"); ("blvd", "boulevard"); ("corp", "corporation");
      ("ltd", "limited"); ("inc", "incorporated"); ("co", "company");
      ("eng", "engineer"); ("dev", "developer"); ("mgr", "manager");
      ("dir", "director"); ("pres", "president");
      ("ceo", "chief executive officer");
      ("cto", "chief technology officer");
      ("cfo", "chief financial officer") ].

Definition _normalize_string (text : string) : string :=
  join " " (map (fun word => default word (abbreviations !! word)) (split text)).

(** [len(a) / len(b)]: true division of two lengths. *)
Definition ratio (a b : nat) : float :=
  PrimFloat.div (float_of_nat a) (float_of_nat b).

Definition _word_similarity (str1 str2 : string) : float :=
  let words1 : gset string := list_to_set (split str1) in
  let words2 : gset string := list_to_set (split str2) in
  if bool_decide (size words1 = 0%nat) || bool_decide (size words2 = 0%nat)
  then 0%float
  else ratio (size (words1 ∩ words2)) (size (words1 ∪ words2)).

Definition _char_similarity (str1 str2 : string) : float :=
  if (String.length str1 =? 0)%nat && (String.length str2 =? 0)%nat then 1%float
  else if (String.length str1 =? 0)%nat || (String.length str2 =? 0)%nat then 0%float
  else
    let chars1 : gset ascii :=
      list_to_set (list_ascii_of_string (remove_char " " str1)) in
    let chars2 : gset ascii :=
      list_to_set (list_ascii_of_string (remove_char " " str2)) in
    if bool_decide (size chars1 = 0%nat) || bool_decide (size chars2 = 0%nat)
    then 0%float
    else ratio (size (chars1 ∩ chars2)) (size (chars1 ∪ chars2)).

(** [''.join(word[0].lower() for word in words if word)] *)
Definition first_letters (words : list string) : string :=
  string_of_list_ascii
    (flat_map (fun word =>
                 match word with
                 | String c _ => [lower_char c]
                 | EmptyString => []
                 end) words).

Definition _is_abbreviation (abbrev full_text : string) : bool :=
  if (String.length abbrev <? 2)%nat then false
  else
    let words := split full_text in
    match words with
    | [word] => contains (lower abbrev) (lower word)
    | _ =>
        if bool_decide (lower abbrev = first_letters words) then true
        else existsb (fun word => startswith (lower word) (lower abbrev)) words
    end.

Definition _abbreviation_similarity (str1 str2 : string) : float :=
  let words1 := split str1 in
  let words2 := split str2 in
  match words1, words2 with
  | [w1], _ :: _ :: _ =>
      if _is_abbreviation w1 str2 then 0.9%float else 0%float
  | _ :: _ :: _, [w2] =>
      if _is_abbreviation w2 str1 then 0.9%float else 0%float
  | _, _ => 0%float
  end.

(** [x >= threshold] *)
Definition ge (x threshold : float) : bool := PrimFloat.leb threshold x.

Definition _fuzzy_match_general (str1 str2 : string) (threshold : float) : bool :=
  let word_similarity := _word_similarity str1 str2 in
  let char_similarity := _char_similarity str1 str2 in
  let abbreviation_similarity := _abbreviation_similarity str1 str2 in
  let overall_similarity :=
    (word_similarity * 0.5 + char_similarity * 0.3
     + abbreviation_similarity * 0.2)%float in
  ge overall_similarity threshold.

(** The two tables of [_check_name_variations], entry by entry as the
    source writes them (some keys are written twice). *)
Definition nicknames_literal : list (string * list string) :=
  [ ("william", ["bill"; "billy"; "will"; "willy"]);
    ("robert", ["bob"; "rob"; "robby"; "bobby"]);
    ("richard", ["rick"; "rich"; "dick"; "ricky"]);
    ("james", ["jim"; "jimmy"; "jamie"]);
    ("michael", ["mike"; "mikey"; "mick"; "mickey"]);
    ("david", ["dave"; "davey"]);
    ("christopher", ["chris"; "topher"]);
    ("daniel", ["dan"; "danny"]);
    ("matthew", ["matt"; "matty"]);
    ("andrew", ["andy"; "drew"]);
    ("elizabeth", ["liz"; "lizzy"; "beth"; "betty"; "lisa"]);
    ("margaret", ["maggie"; "meg"; "peggy"]);
    ("patricia", ["pat"; "patty"; "trish"]);
    ("jennifer", ["jen"; "jenny"]);
    ("susan", ["sue"; "suzie"]);
    ("jessica", ["jess"; "jessie"]);
    ("sarah", ["sally"; "sara"]);
    ("karen", ["kari"; "karen"]);
    ("nancy", ["nan"; "nancy"]);
    ("lisa", ["lisa"; "liz"]);
    ("helen", ["helen"; "helena"]);
    ("sandra", ["sandy"; "sandra"]);
    ("donna", ["donna"; "don"]);
    ("carol", ["carol"; "caroline"]);
    ("ruth", ["ruth"; "ruthie"]);
    ("sharon", ["sharon"; "shari"]);
    ("michelle", ["michelle"; "mickey"]);
    ("laura", ["laura"; "laurie"]);
    ("emily", ["emily"; "em"]);
    ("kimberly", ["kim"; "kimberly"]);
    ("deborah", ["deb"; "debbie"]);
    ("dorothy", ["dot"; "dotty"; "dottie"]);
    ("linda", ["linda"; "lin"]);
    ("barbara", ["barb"; "barbara"]);
    ("ashley", ["ash"; "ashley"]);
    ("amanda", ["mandy"; "amanda"]);
    ("stephanie", ["steph"; "stephanie"]);
    ("nicole", ["nikki"; "nicole"]);
    ("emma", ["emma"; "em"]);
    ("samantha", ["sam"; "samantha"]);
    ("katherine", ["kate"; "kathy"; "katie"; "kat"]);
    ("christine", ["chris"; "christine"]);
    ("debra", ["deb"; "debbie"]);
    ("rachel", ["rach"; "rachel"]);
    ("carolyn", ["carol"; "carolyn"]);
    ("janet", ["jan"; "janet"]);
    ("virginia", ["ginny"; "virginia"]);
    ("maria", ["maria"; "marie"]);
    ("heather", ["heather"; "heath"]);
    ("diane", ["diane"; "diana"]);
    ("julie", ["julie"; "jules"]);
    ("joyce", ["joyce"; "joy"]);
    ("victoria", ["vicky"; "victoria"]);
    ("kelly", ["kelly"; "kel"]);
    ("christina", ["tina"; "christina"]);
    ("joan", ["joan"; "jo"]);
    ("evelyn", ["eve"; "evelyn"]);
    ("lauren", ["lauren"; "laurie"]);
    ("judith", ["judy"; "judith"]);
    ("megan", ["meg"; "megan"]);
    ("cheryl", ["cheryl"; "cher"]);
    ("andrea", ["andy"; "andrea"]);
    ("hannah", ["hannah"; "hanna"]);
    ("jacqueline", ["jackie"; "jacqueline"]);
    ("martha", ["martha"; "marty"]);
    ("gloria", ["gloria"; "glory"]);
    ("ann", ["ann"; "annie"]);
    ("brenda", ["brenda"; "bren"]);
    ("pamela", ["pam"; "pamela"]);
    ("nicole", ["nikki"; "nicole"]);
    ("emma", ["emma"; "em"]);
    ("samantha", ["sam"; "samantha"]);
    ("katherine", ["kate"; "kathy"; "katie"; "kat"]);
    ("christine", ["chris"; "christine"]);
    ("debra", ["deb"; "debbie"]);
    ("rachel", ["rach"; "rachel"]);
    ("carolyn", ["carol"; "carolyn"]);
    ("janet", ["jan"; "janet"]);
    ("virginia", ["ginny"; "virginia"]);
    ("maria", ["maria"; "marie"]);
    ("heather", ["heather"; "heath"]);
    ("diane", ["diane"; "diana"]);
    ("julie", ["julie"; "jules"]);
    ("joyce", ["joyce"; "joy"]);
    ("victoria", ["vicky"; "victoria"]);
    ("kelly", ["kelly"; "kel"]);
    ("christina", ["tina"; "christina"]);
    ("joan", ["joan"; "jo"]);
    ("evelyn", ["eve"; "evelyn"]);
    ("lauren", ["lauren"; "laurie"]);
    ("judith", ["judy"; "judith"]);
    ("megan", ["meg"; "megan"]);
    ("cheryl", ["cheryl"; "cher"]);
    ("andrea", ["andy"; "andrea"]);
    ("hannah", ["hannah"; "hanna"]);
    ("jacqueline", ["jackie"; "jacqueline"]);
    ("martha", ["martha"; "marty"]);
    ("gloria", ["gloria"; "glory"]);
    ("ann", ["ann"; "annie"]);
    ("brenda", ["brenda"; "bren"]);
    ("pamela", ["pam"; "pamela"]) ].

Definition common_variations_literal : list (string * list string) :=
  [ ("john", ["johnny"; "jon"; "jonathan"]);
    ("joseph", ["joe"; "joey"]);
    ("thomas", ["tom"; "tommy"]);
    ("charles", ["charlie"; "chuck"]);
    ("christopher", ["chris"; "topher"]);
    ("anthony", ["tony"; "ant"]);
    ("donald", ["don"; "donny"]);
    ("steven", ["steve"; "stevie"]);
    ("paul", ["paulie"]);
    ("mark", ["marky"]);
    ("kenneth", ["ken"; "kenny"]);
    ("george", ["georgie"]);
    ("timothy", ["tim"; "timmy"]);
    ("ronald", ["ron"; "ronnie"]);
    ("jason", ["jay"]);
    ("edward", ["ed"; "eddie"; "ted"]);
    ("jeffrey", ["jeff"]);
    ("ryan", ["ry"]);
    ("jacob", ["jake"]);
    ("gary", ["gary"]);
    ("nicholas", ["nick"; "nickie"]);
    ("eric", ["eric"]);
    ("jonathan", ["jon"; "jonny"]);
    ("stephen", ["steve"; "stevie"]);
    ("larry", ["larry"]);
    ("justin", ["justin"]);
    ("scott", ["scotty"]);
    ("brandon", ["brandon"]);
    ("benjamin", ["ben"; "benny"]);
    ("samuel", ["sam"; "sammy"]);
    ("frank", ["frankie"]);
    ("gregory", ["greg"]);
    ("raymond", ["ray"]);
    ("alexander", ["alex"; "al"]);
    ("patrick", ["pat"; "patty"]);
    ("jack", ["jackie"]);
    ("dennis", ["denny"]);
    ("jerry", ["jerry"]);
    ("tyler", ["ty"]);
    ("aaron", ["aaron"]);
    ("jose", ["jose"]);
    ("adam", ["adam"]);
    ("nathan", ["nate"]);
    ("henry", ["hank"]);
    ("douglas", ["doug"]);
    ("zachary", ["zach"; "zack"]);
    ("peter", ["pete"]);
    ("kyle", ["kyle"]);
    ("walter", ["walt"]);
    ("ethan", ["ethan"]);
    ("jeremy", ["jeremy"]);
    ("harold", ["harry"; "hal"]);
    ("seth", ["seth"]);
    ("christian", ["chris"]);
    ("andrew", ["andy"; "drew"]);
    ("sean", ["shawn"]);
    ("nathaniel", ["nate"; "nathan"]);
    ("terry", ["terry"]);
    ("max", ["max"]);
    ("oscar", ["oscar"]);
    ("keith", ["keith"]);
    ("tyler", ["ty"]);
    ("aaron", ["aaron"]);
    ("jose", ["jose"]);
    ("adam", ["adam"]);
    ("nathan", ["nate"]);
    ("henry", ["hank"]);
    ("douglas", ["doug"]);
    ("zachary", ["zach"; "zack"]);
    ("peter", ["pete"]);
    ("kyle", ["kyle"]);
    ("walter", ["walt"]);
    ("ethan", ["ethan"]);
    ("jeremy", ["jeremy"]);
    ("harold", ["harry"; "hal"]);
    ("seth", ["seth"]);
    ("christian", ["chris"]);
    ("andrew", ["andy"; "drew"]);
    ("sean", ["shawn"]);
    ("nathaniel", ["nate"; "nathan"]);
    ("terry", ["terry"]);
    ("max", ["max"]);
    ("oscar", ["oscar"]);
    ("keith", ["keith"]) ].

Definition nicknames : gmap string (list string) := dict_literal nicknames_literal.

Definition common_variations : gmap string (list string) :=
  dict_literal common_variations_literal.

(** [w1 in table and w2 in table[w1]] *)
Definition variant_of (table : gmap string (list string)) (w1 w2 : string) : bool :=
  match table !! w1 with
  | Some variants => bool_decide (w2 ∈ variants)
  | None => false
  end.

(** The double loop over the words of both names for one table. *)
Definition any_variation (table : gmap string (list string))
    (words1 words2 : list string) : bool :=
  existsb (fun word1 =>
             existsb (fun word2 =>
                        variant_of table word1 word2 || variant_of table word2 word1)
                     words2)
          words1.

Definition _check_name_variations (name1 name2 : string) : bool :=
  let words1 := split (lower name1) in
  let words2 := split (lower name2) in
  if any_variation nicknames words1 words2 then true
  else any_variation common_variations words1 words2.

(** [sum(1 for w1, w2 in zip(words1, words2) if w1 == w2)] *)
Fixpoint exact_matches (words1 words2 : list string) : nat :=
  match words1, words2 with
  | w1 :: t1, w2 :: t2 =>
      ((if bool_decide (w1 = w2) then 1 else 0) + exact_matches t1 t2)%nat
  | _, _ => 0%nat
  end.

Definition _fuzzy_match_name (str1 str2 : string) (threshold : float) : bool :=
  let words1 := split str1 in
  let words2 := split str2 in
  if (length words1 =? 1)%nat && (length words2 =? 1)%nat
  then _fuzzy_match_general str1 str2 threshold
  else if (length words1 =? length words2)%nat
          && (exact_matches words1 words2 =? length words1)%nat
  then true
  else
    let word_similarity := _word_similarity str1 str2 in
    if ge word_similarity threshold then true
    else
      let char_similarity := _char_similarity str1 str2 in
      if ge char_similarity threshold then true
      else if _check_name_variations str1 str2 then true
      else
        let overall_similarity :=
          (word_similarity * 0.6 + char_similarity * 0.4)%float in
        ge overall_similarity threshold.

Definition common_words : list string :=
  ["street"; "st"; "avenue"; "ave"; "road"; "rd"; "drive"; "dr"; "lane"; "ln"].

Definition _clean_address (address : string) : string :=
  let cleaned := sub_outside (fun c => isword c || isspace c) address in
  let cleaned := join " " (split cleaned) in
  let words := split cleaned in
  let filtered_words :=
    filter (fun word => lower word ∉ common_words) words in
  join " " filtered_words.

(** The first word that [isdigit()], as the two [for ... break] loops
    leave it. *)
Definition first_number (words : list string) : option string :=
  find isdigit words.

Definition _check_partial_address_match (addr1 addr2 : string) : bool :=
  let words1 := split addr1 in
  let words2 := split addr2 in
  if 3 <? Z.abs (Z.of_nat (length words1) - Z.of_nat (length words2)) then false
  else
    match first_number words1, first_number words2 with
    | Some number1, Some number2 =>
        if bool_decide (number1 = number2) then
          let addr1_without_number :=
            join " " (filter (fun w => w ≠ number1) words1) in
          let addr2_without_number :=
            join " " (filter (fun w => w ≠ number2) words2) in
          let word_similarity :=
            _word_similarity addr1_without_number addr2_without_number in
          ge word_similarity 0.7
        else false
    | _, _ => false
    end.

Definition _fuzzy_match_address (str1 str2 : string) (threshold : float) : bool :=
  let str1_clean := _clean_address str1 in
  let str2_clean := _clean_address str2 in
  if bool_decide (str1_clean = str2_clean) then true
  else
    let word_similarity := _word_similarity str1_clean str2_clean in
    let char_similarity := _char_similarity str1_clean str2_clean in
    if ge word_similarity threshold then true
    else if _check_partial_address_match str1_clean str2_clean then true
    else
      let overall_similarity :=
        (word_similarity * 0.7 + char_similarity * 0.3)%float in
      ge overall_similarity threshold.

(** [_fuzzy_match(str1, str2, threshold, match_type)].  The guard
    [not str1 or not str2] comes first; the strategies are reached only
    when neither the squeezed lower-cased strings nor their
    abbreviation-expanded forms are equal. *)
Definition _fuzzy_match (str1 str2 : string) (threshold : float)
    (match_type : string) : bool :=
  if bool_decide (str1 = "") || bool_decide (str2 = "") then false
  else
    let str1 := squeeze (lower str1) in
    let str2 := squeeze (lower str2) in
    if bool_decide (str1 = str2) then true
    else
      let str1_normalized := _normalize_string str1 in
      let str2_normalized := _normalize_string str2 in
      if bool_decide (str1_normalized = str2_normalized) then true
      else if bool_decide (match_type = "name")
      then _fuzzy_match_name str1 str2 threshold
      else if bool_decide (match_type = "address")
      then _fuzzy_match_address str1 str2 threshold
      else _fuzzy_match_general str1 str2 threshold.

End Fuzzy.

(* ================================================================== *)
(** * Library calls *)
(* ================================================================== *)

Module Lib.
Import Py.

(** What the embedded code asks of Python's libraries.  Each field returns
    [None] where the call raises the exception the source catches. *)
Record runtime := {
  (** [json.loads(s)]; [None]: [json.JSONDecodeError] *)
  json_loads : string -> option value;
  (** [float(s)] on a string; [None]: [ValueError] *)
  float_of_str : string -> option float;
  (** [repr(v)], which is [str(v)] for every value but a string *)
  repr : value -> string;
  (** [datetime.strptime(s, fmt).strftime('%Y-%m-%d')]; [None]:
      [ValueError] *)
  strptime_strftime : string -> string -> option string
}.

(** [str(v)] and the rendering of [v] in an f-string. *)
Definition py_str (rt : runtime) (v : value) : string :=
  match v with
  | VStr s => s
  | _ => repr rt v
  end.

(** [x ← m; k]: run [m]; an exception it raises propagates. *)
Declare Scope result_scope.
Notation "x ← y ; z" := (bind y (fun x => z))
  (at level 20, y at level 100, z at level 200, only parsing) : result_scope.
#[global] Open Scope result_scope.

End Lib.

(* ================================================================== *)
(** * Rule-based validation ([document_processor.py]) *)
(* ================================================================== *)

Module Rules.
Import Py Str Lib Fuzzy.

Inductive severity := low | medium | high.

#[global] Instance severity_eq_dec : EqDecision severity.
Proof. solve_decision. Defined.

(** One element of [validation_results["discrepancies"]]: the field
    record the validators append, or the bare message of the error
    path. *)
Inductive discrepancy :=
| Mismatch (field : string) (document_value user_value : value) (sev : severity)
| Message (text : string).

Record validation_result := {
  overall_match : bool;
  confidence_score : Z;
  discrepancies : list discrepancy;
  warnings : list string;
  validation_details : dict
}.

(** [sum(1 for d in discrepancies if d["severity"] == s)] *)
Definition has_severity (s : severity) (d : discrepancy) : bool :=
  match d with
  | Mismatch _ _ _ sev => bool_decide (sev = s)
  | Message _ => false
  end.

Definition count_severity (s : severity) (ds : list discrepancy) : Z :=
  Z.of_nat (length (List.filter (has_severity s) ds)).

Section WithRuntime.
Variable rt : runtime.

Definition date_formats : list string :=
  ["%Y-%m-%d"; "%d/%m/%Y"; "%m/%d/%Y"; "%d-%m-%Y"; "%m-%d-%Y";
   "%d %m %Y"; "%m %d %Y"; "%Y/%m/%d"; "%Y/%d/%m"].

(** [for fmt in formats: try: return strptime(...).strftime(...)
    except ValueError: continue] *)
Fixpoint try_formats (s : string) (formats : list string) : option string :=
  match formats with
  | [] => None
  | fmt :: rest =>
      match strptime_strftime rt s fmt with
      | Some out => Some out
      | None => try_formats s rest
      end
  end.

(** The first format [strptime] accepts wins; with none, the cleaned
    string is returned.  On a value that is not a string [re.sub] raises
    and the catch-all returns the argument unchanged. *)
Definition _normalize_date (date_str : value) : value :=
  match date_str with
  | VStr s =>
      let s :=
        strip (sub_outside (fun c => isword c || isspace c
                                     || Ascii.eqb c "-") s) in
      VStr (default s (try_formats s date_formats))
  | _ => date_str
  end.

(** [d.get(key, '').strip().lower()] *)
Definition stripped_lower (d : dict) (key : string) : result string :=
  s ← as_str (get_default d key (VStr "")) "strip";
  Ok (lower (strip s)).

(** [if a and b: if not self._fuzzy_match(a, b, ...): append(...)] *)
Definition check_text (field : string) (doc user : string) (threshold : float)
    (match_type : string) (sev : severity) (ds : list discrepancy)
  : list discrepancy :=
  if nonempty_str doc && nonempty_str user then
    if negb (_fuzzy_match doc user threshold match_type)
    then ds ++ [Mismatch field (VStr doc) (VStr user) sev]
    else ds
  else ds.

Definition _validate_id_proof (extracted_data user_data : dict)
  : result validation_result :=
  let name := get_default user_data "name" (VStr "") in
  (* user_full_name is an f-string that cannot raise and is never read *)
  user_first_name ←
    (if truthy (get user_data "name") then
       s ← as_str name "split";
       match split s with
       | [] => Raise IndexError
       | w :: _ => Ok (lower w)
       end
     else Ok "");
  user_last_name ←
    (s ← as_str name "split";
     Ok (if (1 <? length (split s))%nat
           then lower (join " " (tail (split s)))
           else ""));
  doc_first_name ← stripped_lower extracted_data "first_name";
  doc_last_name ← stripped_lower extracted_data "last_name";
  let ds := [] in
  let ds := check_text "first_name" doc_first_name user_first_name 0.8 "name"
                       medium ds in
  let ds := check_text "last_name" doc_last_name user_last_name 0.8 "name"
                       medium ds in
  let doc_dob := get_default extracted_data "dob" (VStr "") in
  let user_dob := get_default user_data "dob" (VStr "") in
  let ds :=
    if truthy doc_dob && truthy user_dob then
      if negb (py_eqb (_normalize_date doc_dob) (_normalize_date user_dob))
      then ds ++ [Mismatch "date_of_birth" doc_dob user_dob high]
      else ds
    else ds in
  doc_nationality ← stripped_lower extracted_data "nationality";
  user_nationality ← stripped_lower user_data "nationality";
  let ds := check_text "nationality" doc_nationality user_nationality 0.8
                       "general" low ds in
  Ok
    (match ds with
     | [] =>
         {| overall_match := true; confidence_score := 100;
            discrepancies := ds; warnings := []; validation_details := ∅ |}
     | _ =>
         let total_discrepancies := Z.of_nat (length ds) in
         let high_severity := count_severity high ds in
         let medium_severity := count_severity medium ds in
         let penalty :=
           high_severity * 30 + medium_severity * 20
           + total_discrepancies * 10 in
         {| overall_match := false;
            confidence_score := Z.max 0 (100 - penalty);
            discrepancies := ds; warnings := []; validation_details := ∅ |}
     end).

Definition _validate_address_proof (extracted_data user_data : dict)
  : result validation_result :=
  doc_address ← stripped_lower extracted_data "full_address";
  user_address ← stripped_lower user_data "address";
  let ds := [] in
  let ds := check_text "address" doc_address user_address 0.8 "address"
                       high ds in
  account_holder ← stripped_lower extracted_data "account_holder_name";
  user_name ← stripped_lower user_data "name";
  let ds := check_text "account_holder_name" account_holder user_name 0.8
                       "name" high ds in
  Ok
    (match ds with
     | [] =>
         {| overall_match := true; confidence_score := 100;
            discrepancies := ds; warnings := []; validation_details := ∅ |}
     | _ =>
         let total_discrepancies := Z.of_nat (length ds) in
         let high_severity := count_severity high ds in
         let medium_severity := count_severity medium ds in
         let penalty :=
           high_severity * 30 + medium_severity * 20
           + total_discrepancies * 10 in
         {| overall_match := false;
            confidence_score := Z.max 0 (100 - penalty);
            discrepancies := ds; warnings := []; validation_details := ∅ |}
     end).

Definition _validate_employment_proof (extracted_data user_data : dict)
  : result validation_result :=
  doc_employer ← stripped_lower extracted_data "employer_name";
  user_employer ← stripped_lower user_data "employer";
  let ds := [] in
  let ds := check_text "employer" doc_employer user_employer 0.7 "general"
                       medium ds in
  doc_employee ← stripped_lower extracted_data "employee_name";
  user_name ← stripped_lower user_data "name";
  let ds := check_text "employee_name" doc_employee user_name 0.8 "name"
                       high ds in
  doc_position ← stripped_lower extracted_data "position";
  user_occupation ← stripped_lower user_data "occupation";
  let ds := check_text "position" doc_position user_occupation 0.6 "general"
                       low ds in
  Ok
    (match ds with
     | [] =>
         {| overall_match := true; confidence_score := 100;
            discrepancies := ds; warnings := []; validation_details := ∅ |}
     | _ =>
         let total_discrepancies := Z.of_nat (length ds) in
         let high_severity := count_severity high ds in
         let medium_severity := count_severity medium ds in
         let low_severity := count_severity low ds in
         let penalty :=
           high_severity * 30 + medium_severity * 20 + low_severity * 10
           + total_discrepancies * 5 in
         {| overall_match := false;
            confidence_score := Z.max 0 (100 - penalty);
            discrepancies := ds; warnings := []; validation_details := ∅ |}
     end).

(** [_validate_with_rules]: the dispatch on the document type inside
    [try], and the result the [except] branch builds. *)
Definition _validate_with_rules (extracted_data user_data : dict)
    (document_type : string) : validation_result :=
  let validation_results :=
    if bool_decide (document_type = "id_proof")
    then _validate_id_proof extracted_data user_data
    else if bool_decide (document_type = "address_proof")
    then _validate_address_proof extracted_data user_data
    else if bool_decide (document_type = "employment_proof")
    then _validate_employment_proof extracted_data user_data
    else
      Ok {| overall_match := true; confidence_score := 100;
              discrepancies := []; warnings := []; validation_details := ∅ |} in
  match validation_results with
  | Ok r => r
  | Raise e =>
      {| overall_match := false; confidence_score := 0;
         discrepancies := [Message "Validation error occurred"];
         warnings := ["Validation failed: " +:+ exn_str e];
         validation_details := ∅ |}
  end.

End WithRuntime.
End Rules.

(* ================================================================== *)
(** * Submission pipeline ([main.py]) *)
(* ================================================================== *)

Module Main.
Import Py Str Lib.

(** ** Risk scorer *)

Inductive band := Low | Medium | High.

Definition band_name (b : band) : string :=
  match b with
  | Low => "Low"
  | Medium => "Medium"
  | High => "High"
  end.

Definition band_rank (b : band) : nat :=
  match b with
  | Low => 0
  | Medium => 1
  | High => 2
  end.

(** The ordering [Low < Medium < High]. *)
Definition band_le (a b : band) : Prop := (band_rank a <= band_rank b)%nat.

(** [item in container] for a string [item]. *)
Definition py_in (item : string) (container : value) : result bool :=
  match container with
  | VDict d => Ok (bool_decide (is_Some (d !! item)))
  | VList l => Ok (existsb (fun v => py_eqb v (VStr item)) l)
  | VStr s => Ok (contains item s)
  | _ =>
      Raise (TypeError ("argument of type '" +:+ type_name container
                        +:+ "' is not iterable"))
  end.

Definition required_docs : list string :=
  ["id_proof"; "address_proof"; "employment_proof"].

(** [len([doc for doc in required_docs if doc not in documents])] *)
Fixpoint count_missing (docs : list string) (documents : value) : result Z :=
  match docs with
  | [] => Ok 0
  | doc :: rest =>
      present ← py_in doc documents;
      n ← count_missing rest documents;
      Ok ((if present then 0 else 1) + n)
  end.

Definition band_of_score (risk_score : Z) : band :=
  if 50 <=? risk_score then High
  else if 25 <=? risk_score then Medium
  else Low.

Definition calculate_estimated_risk (customer_data : dict) : result band :=
  let risk_score := 0 in
  let risk_score :=
    if truthy (get customer_data "pep_status") then risk_score + 50
    else risk_score in
  let annual_income := get customer_data "annual_income" in
  risk_score ←
    match annual_income with
    | VNone => Ok risk_score
    | _ =>
        over ← gt_int annual_income 500000;
        if over then Ok (risk_score + 30)
        else
          over ← gt_int annual_income 200000;
          Ok (if over then risk_score + 15 else risk_score)
    end;
  let risk_score :=
    if truthy (get customer_data "business_name") then risk_score + 20
    else risk_score in
  risk_score ←
    (if truthy (get customer_data "position") then
       position ← as_str (get_default customer_data "position" (VStr "")) "lower";
       Ok (if contains "government" (lower position) then risk_score + 25
             else risk_score)
     else Ok risk_score);
  missing_docs ←
    count_missing required_docs (get_default customer_data "documents" (VDict ∅));
  let risk_score := risk_score + missing_docs * 10 in
  Ok (band_of_score risk_score).

Definition determine_customer_type (customer_data : dict) : result string :=
  if truthy (get customer_data "pep_status") then Ok "PEP"
  else if truthy (get customer_data "business_name") then Ok "Business"
  else if truthy (get customer_data "university") then Ok "Student"
  else if is_str (get customer_data "occupation") "Freelance Developer"
  then Ok "Freelancer"
  else
    match get customer_data "annual_income" with
    | VNone => Ok "Individual"
    | _ =>
        over ← gt_int (get_default customer_data "annual_income" (VInt 0)) 200000;
        Ok (if over then "High_Net_Worth" else "Individual")
    end.

(** ** Enrichment *)

(** What [document_processor.extract_info_from_document] returns:
    [{"status": "success", "data": ...}] or
    [{"status": "error", "error": ...}]. *)
Inductive extract_result :=
| Extracted (data : value)
| ExtractionFailed (error : string).

(** The surroundings of one submission: the documents directory, the
    document extractor, the clock, the configured agent identifiers, the
    answers of the external evaluation service, and what the case store
    decides: the identifiers it gives and the values its engine
    refuses. *)
Inductive agent_reply :=
| Raises (message : string)
| Replies (response_body : string).

Record environment := {
  (** [os.listdir(documents_dir)] *)
  listdir : result (list string);
  (** [extract_info_from_document(file_path, doc_type)] for the file
      named [filename] *)
  extract_info_from_document : string -> string -> extract_result;
  (** [datetime.now().isoformat()]; successive readings are not told
      apart *)
  now : string;
  (** [self.agent_ids[key]]: [os.getenv] gives a string or [None] *)
  agent_ids : string -> option string;
  (** the outcome of the [k]-th call of [invoke_agent]: an exception, or
      the text the event stream adds up to *)
  invoke_agent : nat -> agent_reply;
  (** the identifier [db_manager.get_or_create_case(...)] returns *)
  case_id : Z;
  (** [db_manager.generate_unique_customer_id()]: the identifier, or the
      exception it raises *)
  fresh_customer_id : result string;
  (** the exception the database engine raises, if any, when a statement
      is run with these values as its parameters: it does not bind every
      Python value *)
  bind_error : list value -> option exn
}.

Section WithRuntime.
Variable rt : runtime.
Variable env : environment.

Definition parse_salary (salary_str : value) : result value :=
  if negb (truthy salary_str) then Ok VNone
  else
    s ← as_str salary_str "replace";
    (* the euro sign lies outside the modelled code points *)
    let cleaned := remove_char "163" (remove_char "," (remove_char "$" s)) in
    Ok (match float_of_str rt cleaned with
        | Some f => VFloat f
        | None => VNone
        end).

(** [comprehensive_data[key]] for a key the initial literal sets. *)
Definition item (d : dict) (key : string) : value := get d key.

(** The [comprehensive_data.update({...})] of a document whose
    extraction succeeded. *)
Definition enhance_with (doc_type : string) (extracted_data : value)
    (comprehensive_data : dict) : result dict :=
  if bool_decide (doc_type = "id_proof") then
    e ← as_dict extracted_data "get";
    let name :=
      strip (py_str rt (get_default e "first_name" (VStr "")) +:+ " "
             +:+ py_str rt (get_default e "last_name" (VStr ""))) in
    Ok (<["nationality" :=
            py_or (get e "nationality") (item comprehensive_data "nationality")]>
        (<["dob" := py_or (get e "dob") (item comprehensive_data "dob")]>
         (<["name" := py_or (VStr name) (item comprehensive_data "name")]>
          comprehensive_data)))
  else if bool_decide (doc_type = "address_proof") then
    e ← as_dict extracted_data "get";
    Ok (<["address" :=
            py_or (get e "full_address") (item comprehensive_data "address")]>
        comprehensive_data)
  else if bool_decide (doc_type = "employment_proof") then
    e ← as_dict extracted_data "get";
    salary ← parse_salary (get e "annual_salary");
    Ok (<["annual_income" :=
            py_or salary (item comprehensive_data "annual_income")]>
        (<["occupation" :=
             py_or (get e "position") (item comprehensive_data "occupation")]>
         (<["employer" :=
              py_or (get e "employer_name") (item comprehensive_data "employer")]>
          comprehensive_data)))
  else Ok comprehensive_data.

(** [comprehensive_data["document_details"][doc_type] = details] *)
Definition set_document_details (doc_type : string) (details : dict)
    (comprehensive_data : dict) : dict :=
  match item comprehensive_data "document_details" with
  | VDict dd =>
      <["document_details" := VDict (<[doc_type := VDict details]> dd)]>
        comprehensive_data
  | _ => comprehensive_data
  end.

(** One round of [for doc_type, doc_id in documents.items()]: the first
    file of the directory whose name starts with
    [f"{doc_type}_{doc_id}"] is extracted; with no such file the round
    changes nothing. *)
Definition enhance_document (comprehensive_data : dict)
    (entry : string * value) : result dict :=
  let '(doc_type, doc_id) := entry in
  filenames ← listdir env;
  match find (fun filename =>
                startswith filename (doc_type +:+ "_" +:+ py_str rt doc_id))
             filenames with
  | None => Ok comprehensive_data
  | Some filename =>
      match extract_info_from_document env filename doc_type with
      | Extracted extracted_data =>
          let comprehensive_data :=
            set_document_details doc_type
              (dict_literal
                 [("document_id", doc_id); ("filename", VStr filename);
                  ("extracted_data", extracted_data);
                  ("validation_status", VStr "pending")])
              comprehensive_data in
          enhance_with doc_type extracted_data comprehensive_data
      | ExtractionFailed error =>
          Ok (set_document_details doc_type
                (dict_literal
                   [("document_id", doc_id); ("filename", VStr filename);
                    ("extracted_data", VNone);
                    ("validation_status", VStr "extraction_failed");
                    ("error", VStr error)])
                comprehensive_data)
      end
  end.

(** A [for] loop whose body can raise. *)
Fixpoint for_each {A S} (body : S -> A -> result S) (items : list A) (s : S)
  : result S :=
  match items with
  | [] => Ok s
  | x :: rest => s ← body s x; for_each body rest s
  end.

(** The initial [comprehensive_data] literal. *)
Definition initial_comprehensive_data (customer_data : dict) : dict :=
  let text key := (key, get_default customer_data key (VStr "")) in
  dict_literal
    [ text "name"; text "email"; text "phone"; text "address";
      text "customer_id"; text "dob"; text "nationality";
      text "occupation"; text "employer";
      ("annual_income", get customer_data "annual_income");
      text "source_of_funds"; text "business_name"; text "position";
      text "university";
      ("pep_status", get_default customer_data "pep_status" (VBool false));
      ("documents", get_default customer_data "documents" (VDict ∅));
      ("document_details", VDict ∅);
      ("submission_time", VStr (now env));
      ("processing_status", VStr "submitted") ].

Definition enhance_customer_data_with_documents (customer_data : dict)
  : result dict :=
  let comprehensive_data := initial_comprehensive_data customer_data in
  documents ←
    as_dict (get_default customer_data "documents" (VDict ∅)) "items";
  comprehensive_data ←
    for_each enhance_document (map_to_list documents) comprehensive_data;
  customer_type ← determine_customer_type comprehensive_data;
  let comprehensive_data :=
    <["customer_type" := VStr customer_type]> comprehensive_data in
  estimated ← calculate_estimated_risk comprehensive_data;
  Ok (<["estimated_risk_level" := VStr (band_name estimated)]>
        comprehensive_data).

(** ** Reading the agents' responses *)

Definition extract_status_from_response (response : value) (status_key : string)
  : value :=
  match response with
  | VDict d => get_default d status_key (VStr "unknown")
  | VStr text =>
      let text := lower text in
      if contains "complete" text || contains "success" text
      then VStr "complete"
      else if contains "incomplete" text || contains "pending" text
      then VStr "incomplete"
      else if contains "error" text || contains "failed" text
      then VStr "error"
      else VStr "unknown"
  | _ => VStr "unknown"
  end.

(** [parsed[key]] for a string [key] found by [key in parsed]: only a
    dict can be subscripted by a string. *)
Definition subscript (parsed : value) (key : string) : result value :=
  match parsed with
  | VDict d =>
      match d !! key with
      | Some v => Ok v
      | None => Raise (KeyError key)
      end
  | _ => Raise (TypeError "indices must be integers")
  end.

(** [v.get(key, default)] on a value that may not be a dict. *)
Definition get_of (v : value) (key : string) (default : value) : result value :=
  d ← as_dict v "get";
  Ok (get_default d key default).

(** [try: ... except: pass] around a lookup that falls through to
    [otherwise]. *)
Definition or_else {A} (attempt : result (option A)) (otherwise : A) : A :=
  match attempt with
  | Ok (Some a) => a
  | _ => otherwise
  end.

Definition extract_risk_level (risk_response : value) : result value :=
  match risk_response with
  | VDict d =>
      if bool_decide (is_Some (d !! "risk_analysis_results")) then
        get_of (get d "risk_analysis_results") "risk_classification"
               (VStr "Unknown")
      else if bool_decide (is_Some (d !! "risk_classification")) then
        Ok (get_default d "risk_classification" (VStr "Unknown"))
      else
        match d !! "response_text" with
        | Some (VStr response_text) =>
            Ok (or_else
                  (match json_loads rt response_text with
                   | None => Ok None
                   | Some parsed =>
                       nested ← py_in "risk_analysis_results" parsed;
                       if nested then
                         inner ← subscript parsed "risk_analysis_results";
                         level ← get_of inner "risk_classification"
                                        (VStr "Unknown");
                         Ok (Some level)
                       else
                         direct ← py_in "risk_classification" parsed;
                         if direct then
                           level ← get_of parsed "risk_classification"
                                          (VStr "Unknown");
                           Ok (Some level)
                         else Ok None
                   end)
                  (VStr "Unknown"))
        | _ => Ok (VStr "Unknown")
        end
  | VStr text =>
      let text := lower text in
      Ok (if contains "high" text then VStr "High"
          else if contains "medium" text then VStr "Medium"
          else if contains "low" text then VStr "Low"
          else VStr "Unknown")
  | _ => Ok (VStr "Unknown")
  end.

Definition extract_agent_results (response : value) (result_key : string)
  : value :=
  match response with
  | VDict d =>
      match d !! result_key with
      | Some v => v
      | None =>
          match d !! "response_text" with
          | Some (VStr response_text) =>
              or_else
                (match json_loads rt response_text with
                 | None => Ok None
                 | Some parsed =>
                     found ← py_in result_key parsed;
                     if found then
                       v ← subscript parsed result_key; Ok (Some v)
                     else Ok None
                 end)
                response
          | _ => response
          end
      end
  | _ => response
  end.

(** The final status decision of [process_customer_submission]. *)
Definition final_status_of (validation_status compliance_status : value)
  : string :=
  if is_str validation_status "incomplete" || is_str compliance_status "warning"
  then "pending"
  else if is_str validation_status "error"
          || is_str compliance_status "violation"
  then "rejected"
  else "approved".

(** ** The case store *)

Record step_row := {
  step_name : string;
  step_agent_id : string;
  step_agent_type : string;
  (** [pending], [success] or [error] *)
  step_status : string;
  step_response_data : option value;
  step_error_message : option string;
  step_ended : bool
}.

Record case_row := {
  (** [submitted], [pending], [approved] or [rejected] *)
  status : string;
  final_risk_level : value;
  validation_status : value;
  compliance_status : value;
  pep_status : value;
  completed : bool
}.

Record document_row := {
  document_type : string;
  document_id : value;
  (** [None] in a row that [create_kyc_case] adds *)
  document_filename : option string;
  (** the value whose JSON text the column holds, or [None] *)
  document_extracted_data : value
}.

(** The store as one run sees it: the row of [kyc_cases] that holds the
    customer identifier of the submission, if there is one, the
    processing steps and documents recorded for that case, and how many
    calls of the external service have been made.

    The operations are written as [database.py] has them, with the
    columns its models declare [nullable=False] and the unique index on
    [customer_id].  A new case and a new document take values of the
    submission; whether the engine can bind them is [bind_error] of the
    environment.  A failure of the operations on processing steps and
    of the updates of the case row is not modelled. *)
Record world := {
  case : option case_row;
  steps : list step_row;
  documents : list document_row;
  calls : nat
}.

Definition is_none (v : value) : bool :=
  match v with
  | VNone => true
  | _ => false
  end.

(** The columns [create_kyc_case] gives the new row of [kyc_cases]. *)
Definition case_columns (customer_data : dict) : list value :=
  [get customer_data "customer_id"; get customer_data "name";
   get customer_data "email"; get customer_data "phone";
   get customer_data "dob"; get customer_data "nationality";
   get customer_data "address"; get customer_data "occupation";
   get customer_data "employer"; get customer_data "annual_income";
   get customer_data "source_of_funds";
   get_default customer_data "pep_status" (VBool false);
   get customer_data "business_name"; get customer_data "position";
   get customer_data "university"; get customer_data "customer_type";
   get customer_data "estimated_risk_level"].

(** The columns of a new row of [documents] that hold submitted values;
    the path and the JSON text of the extracted data are strings. *)
Definition document_columns (row : document_row) : list value :=
  [VStr (document_type row); document_id row;
   match document_filename row with
   | Some filename => VStr filename
   | None => VNone
   end].

(** What committing a new row of [documents] raises, if anything:
    [document_id] is declared [nullable=False]. *)
Definition document_error (row : document_row) : option exn :=
  match bind_error env (document_columns row) with
  | Some e => Some e
  | None =>
      if is_none (document_id row)
      then Some (DatabaseError
                   "NOT NULL constraint failed: documents.document_id")
      else None
  end.

(** The row of a case that was just created. *)
Definition new_case (customer_data : dict) : case_row :=
  {| status := "submitted"; final_risk_level := VNone;
     validation_status := VNone; compliance_status := VNone;
     pep_status := get_default customer_data "pep_status" (VBool false);
     completed := false |}.

(** [db_manager.create_kyc_case]: the case row is committed first
    ([customer_id] and [name] are declared [nullable=False], and
    [customer_id] unique), then one row of [documents] for every entry
    of [customer_data['documents']], in a second commit.  What the
    second commit raises takes back the document rows and leaves the
    case row. *)
Definition create_kyc_case (customer_data : dict) (w : world)
  : result Z * world :=
  match bind_error env (case_columns customer_data) with
  | Some e => (Raise e, w)
  | None =>
  if is_none (get customer_data "customer_id") then
    (Raise (DatabaseError
              "NOT NULL constraint failed: kyc_cases.customer_id"), w)
  else if is_none (get customer_data "name") then
    (Raise (DatabaseError "NOT NULL constraint failed: kyc_cases.name"), w)
  else
    match case w with
    | Some _ =>
        (Raise (DatabaseError
                  "UNIQUE constraint failed: kyc_cases.customer_id"), w)
    | None =>
        let w :=
          {| case := Some (new_case customer_data); steps := steps w;
             documents := documents w; calls := calls w |} in
        match as_dict (get_default customer_data "documents" (VDict ∅))
                      "items" with
        | Raise e => (Raise e, w)
        | Ok submitted =>
            let rows :=
              (fun entry : string * value =>
                 {| document_type := entry.1; document_id := entry.2;
                    document_filename := None;
                    document_extracted_data := VNone |})
              <$> map_to_list submitted in
            match omap document_error rows with
            | e :: _ => (Raise e, w)
            | [] =>
                (Ok (case_id env),
                 {| case := case w; steps := steps w;
                    documents := documents w ++ rows; calls := calls w |})
            end
        end
    end
  end.

(** [db_manager.get_or_create_case]: the case of a customer identifier
    that is truthy and in the table, or a new case. *)
Definition get_or_create_case (customer_data : dict) (w : world)
  : result Z * world :=
  let customer_id := get customer_data "customer_id" in
  if truthy customer_id then
    match bind_error env [customer_id] with
    | Some e => (Raise e, w)
    | None =>
        match case w with
        | Some _ => (Ok (case_id env), w)
        | None => create_kyc_case customer_data w
        end
    end
  else create_kyc_case customer_data w.

Definition add_processing_step (name agent_id agent_type : string) (w : world)
  : nat * world :=
  (length (steps w),
   {| case := case w;
      steps := steps w ++ [{| step_name := name; step_agent_id := agent_id;
                              step_agent_type := agent_type;
                              step_status := "pending";
                              step_response_data := None;
                              step_error_message := None;
                              step_ended := false |}];
      documents := documents w; calls := calls w |}).

(** [db_manager.update_processing_step(step_id, end_time=now, status=...,
    response_data=..., error_message=...)]; an argument that is falsy
    leaves its column alone. *)
Definition update_processing_step (step_id : option nat) (new_status : string)
    (response_data : option value) (error_message : option string)
    (w : world) : world :=
  match step_id with
  | None => w
  | Some i =>
      {| case := case w;
         steps :=
           alter (fun row =>
                    {| step_name := step_name row;
                       step_agent_id := step_agent_id row;
                       step_agent_type := step_agent_type row;
                       step_status :=
                         if nonempty_str new_status then new_status
                         else step_status row;
                       step_response_data :=
                         match response_data with
                         | Some v =>
                             if truthy v then Some v
                             else step_response_data row
                         | None => step_response_data row
                         end;
                       step_error_message :=
                         match error_message with
                         | Some m =>
                             if nonempty_str m then Some m
                             else step_error_message row
                         | None => step_error_message row
                         end;
                       step_ended := true |}) i (steps w);
         documents := documents w; calls := calls w |}
  end.

(** [db_manager.update_case_status(case_id, pep_status=True)] *)
Definition update_case_pep (w : world) : world :=
  {| case :=
       (fun row =>
          {| status := status row; final_risk_level := final_risk_level row;
             validation_status := validation_status row;
             compliance_status := compliance_status row;
             pep_status := VBool true; completed := completed row |})
       <$> case w;
     steps := steps w; documents := documents w; calls := calls w |}.

(** The final [db_manager.update_case_status(...)]: every falsy argument
    leaves its column alone; [pep_status] is written unless it is
    [None]. *)
Definition update_case_status (new_status : string)
    (risk_level validation compliance pep : value) (w : world) : world :=
  {| case :=
       (fun row =>
          {| status := if nonempty_str new_status then new_status else status row;
             final_risk_level :=
               if truthy risk_level then risk_level else final_risk_level row;
             validation_status :=
               if truthy validation then validation else validation_status row;
             compliance_status :=
               if truthy compliance then compliance else compliance_status row;
             pep_status :=
               match pep with
               | VNone => pep_status row
               | _ => pep
               end;
             completed := true |})
       <$> case w;
     steps := steps w; documents := documents w; calls := calls w |}.

(** The next call of the external service. *)
Definition call_agent (w : world) : agent_reply * world :=
  (invoke_agent env (calls w),
   {| case := case w; steps := steps w; documents := documents w;
      calls := S (calls w) |}).

(** ** Invoking one agent *)

(** [try_simple_input_format]: the second attempt after an empty answer.
    Everything is inside [try]; whatever is raised becomes an error
    result. *)
Definition try_simple_input_format (agent_id : string) (input_data : dict)
    (processing_step : option nat) (w : world) : value * world :=
  let customer_data := get_default input_data "customer_data" (VDict ∅) in
  let prepared :=
    d ← as_dict customer_data "get";
    docs ← as_dict (get_default d "documents" (VDict ∅)) "keys";
    Ok docs in
  match prepared with
  | Raise e =>
      (VDict (dict_literal
                [("status", VStr "error"); ("error", VStr (exn_str e));
                 ("agent_id", VStr agent_id); ("input_format", VStr "simple")]),
       update_processing_step processing_step "error" None
                              (Some (exn_str e)) w)
  | Ok _ =>
      let '(reply, w) := call_agent w in
      match reply with
      | Raises message =>
          (VDict (dict_literal
                    [("status", VStr "error"); ("error", VStr message);
                     ("agent_id", VStr agent_id);
                     ("input_format", VStr "simple")]),
           update_processing_step processing_step "error" None
                                  (Some message) w)
      | Replies response_body =>
          if nonempty_str (strip response_body) then
            let result :=
              VDict (dict_literal
                       [("status", VStr "success");
                        ("response_text", VStr response_body);
                        ("raw_response", VStr response_body);
                        ("input_format", VStr "simple")]) in
            (result,
             update_processing_step processing_step "success" (Some result)
                                    None w)
          else
            (VDict (dict_literal
                      [("status", VStr "error");
                       ("message",
                        VStr "Agent returned empty response with both input formats");
                       ("agent_id", VStr agent_id)]),
             update_processing_step processing_step "error" None
               (Some "Agent returned empty response with both input formats")
               w)
      end
  end.

(** [invoke_bedrock_agent].  The session state it keeps only travels in
    the request and is left out.  The function catches whatever the call
    raises, so it always returns a value. *)
Definition invoke_bedrock_agent (agent_id : option string) (input_data : dict)
    (name agent_type : string) (w : world) : value * world :=
  match agent_id with
  | None | Some EmptyString =>
      (VDict (dict_literal
                [("status", VStr "error");
                 ("message", VStr "Agent ID not configured")]), w)
  | Some agent_id =>
      let '(processing_step, w) :=
        if negb (case_id env =? 0) && nonempty_str name
           && nonempty_str agent_type
        then let '(i, w) := add_processing_step name agent_id agent_type w in
             (Some i, w)
        else (None, w) in
      let '(reply, w) := call_agent w in
      match reply with
      | Raises message =>
          (VDict (dict_literal
                    [("status", VStr "error"); ("error", VStr message);
                     ("agent_id", VStr agent_id);
                     ("timestamp", VStr (now env))]),
           update_processing_step processing_step "error" None
                                  (Some message) w)
      | Replies response_body =>
          if negb (nonempty_str (strip response_body)) then
            try_simple_input_format agent_id input_data processing_step w
          else
            let result :=
              match json_loads rt response_body with
              | Some parsed => parsed
              | None =>
                  VDict (dict_literal
                           [("status", VStr "success");
                            ("response_text", VStr response_body);
                            ("raw_response", VStr response_body)])
              end in
            (result,
             update_processing_step processing_step "success" (Some result)
                                    None w)
      end
  end.

(** ** One submission *)

(** [for x in v]: the elements of a list, the keys of a dict, the
    characters of a string. *)
Definition iterate (v : value) : result (list value) :=
  match v with
  | VList l => Ok l
  | VDict d => Ok (VStr <$> (map_to_list d).*1)
  | VStr s => Ok ((fun c => VStr (String c EmptyString)) <$> list_ascii_of_string s)
  | _ =>
      Raise (TypeError ("'" +:+ type_name v +:+ "' object is not iterable"))
  end.

(** [for match in matches: if match.get('source') == 'PEP': ...; break] *)
Fixpoint first_pep_match (matches : list value) : result (option dict) :=
  match matches with
  | [] => Ok None
  | m :: rest =>
      d ← as_dict m "get";
      if is_str (get d "source") "PEP" then Ok (Some d)
      else first_pep_match rest
  end.

(** The PEP match the sanction-screening result reports, if any. *)
Definition pep_match (sanction_response : value) : result (option dict) :=
  match extract_agent_results sanction_response "sanction_screening_results" with
  | VDict sanction_results =>
      if truthy (VDict sanction_results)
         && is_str (get sanction_results "screening_status") "match_found"
      then
        matches ← iterate (get_default sanction_results "matches" (VList []));
        first_pep_match matches
      else Ok None
  | _ => Ok None
  end.

(** One round of [add_documents_to_database]: the first file of the
    directory whose name starts with [f"{doc_type}_{doc_id}"] is
    extracted and [db_manager.add_document] commits a row for it, whose
    [extracted_data] is [json.dumps(extracted_data) if extracted_data
    else None]. *)
Definition add_document (w : world) (entry : string * value) : result world :=
  let '(doc_type, doc_id) := entry in
  filenames ← listdir env;
  match find (fun filename =>
                startswith filename (doc_type +:+ "_" +:+ py_str rt doc_id))
             filenames with
  | None => Ok w
  | Some filename =>
      let extracted_data :=
        match extract_info_from_document env filename doc_type with
        | Extracted data => data
        | ExtractionFailed _ => VNone
        end in
      let row :=
        {| document_type := doc_type; document_id := doc_id;
           document_filename := Some filename;
           document_extracted_data :=
             if truthy extracted_data then extracted_data else VNone |} in
      match document_error row with
      | Some e => Raise e
      | None =>
          Ok {| case := case w; steps := steps w;
                documents := documents w ++ [row]; calls := calls w |}
      end
  end.

(** A [for] loop whose body writes to the store and can raise: the
    exception leaves the store as the rounds before it made it. *)
Fixpoint for_each_stored {A} (body : world -> A -> result world)
    (items : list A) (w : world) : result unit * world :=
  match items with
  | [] => (Ok tt, w)
  | x :: rest =>
      match body w x with
      | Ok w => for_each_stored body rest w
      | Raise e => (Raise e, w)
      end
  end.

(** [add_documents_to_database(case_id, documents)] *)
Definition add_documents_to_database (submitted : value) (w : world)
  : result unit * world :=
  match as_dict submitted "items" with
  | Raise e => (Raise e, w)
  | Ok submitted => for_each_stored add_document (map_to_list submitted) w
  end.

(** What the body of [process_customer_submission] computes when no
    exception ends it: the entries of the dict it returns, and the two
    stage responses the final status is read from. *)
Record summary := {
  customer_id : value;
  final_status : string;
  risk_level : value;
  summary_validation_status : value;
  summary_compliance_status : value;
  validation_response : value;
  compliance_response : value
}.

Definition stage (key name agent_type : string) (input_data : dict) (w : world)
  : value * world :=
  invoke_bedrock_agent (agent_ids env key) input_data name agent_type w.

(** The body of the [try] of [process_customer_submission].  The store
    is threaded through; an exception leaves it as it was when raised.
    A submission without [customer_id] is given a generated one
    first. *)
Definition process_body (customer_data : dict) (w : world)
  : result summary * world :=
  match
    match customer_data !! "customer_id" with
    | Some _ => Ok customer_data
    | None =>
        fresh ← fresh_customer_id env;
        Ok (<["customer_id" := VStr fresh]> customer_data)
    end
  with
  | Raise e => (Raise e, w)
  | Ok customer_data =>
  let customer_id := get customer_data "customer_id" in
  match enhance_customer_data_with_documents customer_data with
  | Raise e => (Raise e, w)
  | Ok enhanced_customer_data =>
  let '(created, w) := get_or_create_case enhanced_customer_data w in
  match created with
  | Raise e => (Raise e, w)
  | Ok _ =>
  let '(registered, w) :=
    add_documents_to_database
      (get_default customer_data "documents" (VDict ∅)) w in
  match registered with
  | Raise e => (Raise e, w)
  | Ok _ =>
  let input := dict_literal [("customer_data", VDict enhanced_customer_data)] in
  let '(coordinator_response, w) :=
    stage "coordinator" "coordinator_initiation" "coordinator" input w in
  let '(validation_response, w) :=
    stage "document_validation" "document_validation" "document_validation"
          input w in
  let '(risk_response, w) :=
    stage "risk_analysis" "risk_analysis" "risk_analysis" input w in
  let '(sanction_response, w) :=
    stage "sanction_screening" "sanction_screening" "sanction_screening"
          input w in
  match pep_match sanction_response with
  | Raise e => (Raise e, w)
  | Ok found =>
  let '(enhanced_customer_data, w) :=
    match found with
    | Some m =>
        (<["pep_details" := get_default m "match_details" (VStr "")]>
           (<["pep_status" := VBool true]> enhanced_customer_data),
         update_case_pep w)
    | None => (enhanced_customer_data, w)
    end in
  let compliance_input_data :=
    dict_literal
      [("customer_data", VDict enhanced_customer_data);
       ("agent_results",
        VDict (dict_literal
                 [("document_validation",
                   extract_agent_results validation_response
                                         "document_validation_results");
                  ("risk_analysis",
                   extract_agent_results risk_response "risk_analysis_results");
                  ("sanction_screening",
                   extract_agent_results sanction_response
                                         "sanction_screening_results")]));
       ("processing_timeline",
        VDict (dict_literal
                 [("document_validation_time", VStr (now env));
                  ("risk_analysis_time", VStr (now env));
                  ("sanction_screening_time", VStr (now env))]))] in
  let '(compliance_response, w) :=
    stage "compliance" "compliance_check" "compliance" compliance_input_data w in
  let validation_status :=
    extract_status_from_response validation_response "validation_status" in
  let compliance_status :=
    extract_status_from_response compliance_response "compliance_status" in
  let final_status := final_status_of validation_status compliance_status in
  match extract_risk_level risk_response with
  | Raise e => (Raise e, w)
  | Ok risk_level =>
  let w :=
    update_case_status final_status risk_level validation_status
      compliance_status
      (get_default enhanced_customer_data "pep_status" (VBool false)) w in
  (Ok {| customer_id := customer_id; final_status := final_status;
         risk_level := risk_level;
         summary_validation_status := validation_status;
         summary_compliance_status := compliance_status;
         validation_response := validation_response;
         compliance_response := compliance_response |}, w)
  end end end end end end.

(** [process_customer_submission]: the summary as the dict the function
    returns, or the error dict of its [except] branch, which names the
    customer as [customer_data.get('customer_id', 'Unknown')]: the
    generated identifier was put into [customer_data] if generating it
    did not raise. *)
Definition process_customer_submission (customer_data : dict) (w : world)
  : value * world :=
  match process_body customer_data w with
  | (Ok r, w) =>
      (VDict (dict_literal
                [("status", VStr "success"); ("customer_id", customer_id r);
                 ("case_id", VInt (case_id env));
                 ("final_status", VStr (final_status r));
                 ("risk_level", risk_level r);
                 ("validation_status", summary_validation_status r);
                 ("compliance_status", summary_compliance_status r);
                 ("timestamp", VStr (now env))]), w)
  | (Raise e, w) =>
      (VDict (dict_literal
                [("status", VStr "error"); ("error", VStr (exn_str e));
                 ("customer_id",
                  match customer_data !! "customer_id" with
                  | Some v => v
                  | None =>
                      match fresh_customer_id env with
                      | Ok fresh => VStr fresh
                      | Raise _ => VStr "Unknown"
                      end
                  end);
                 ("timestamp", VStr (now env))]), w)
  end.

End WithRuntime.
End Main.

(* ================================================================== *)
(** * Customer identifiers ([database.py]) *)
(* ================================================================== *)

Module Database.
Import Py Str Lib.














End Database.


(* ================================================================== *)
(** * LLM-based validation ([document_processor.py]) *)
(* ================================================================== *)

Module Llm.
Import Py Str Lib Rules Main.

(** How [_parse_llm_validation_response] fails: with one of its own
    [raise Exception(message)], or with the exception of an operation on
    a response of an unexpected shape.  Either way the caller sees an
    exception. *)
Inductive failure :=
| Invalid (message : string)
| Uncaught (e : exn).

Inductive attempt (A : Type) :=
| Got (a : A)
| Failed (f : failure).
Arguments Got {A} a.
Arguments Failed {A} f.

Definition newline : string := String "010" "".

(** [len(v)] *)
Definition len (v : value) : result nat :=
  match v with
  | VStr s => Ok (String.length s)
  | VList l => Ok (length l)
  | VDict d => Ok (size d)
  | _ =>
      Raise (TypeError ("object of type '" +:+ type_name v
                        +:+ "' has no len()"))
  end.

(** [v[0]]: the keys of a dict are strings, so the key [0] is missing. *)
Definition first_item (v : value) : result value :=
  match v with
  | VList (x :: _) => Ok x
  | VStr (String c _) => Ok (VStr (String c ""))
  | VList [] | VStr EmptyString => Raise IndexError
  | VDict _ => Raise (KeyError "0")
  | _ =>
      Raise (TypeError ("'" +:+ type_name v +:+ "' object is not subscriptable"))
  end.

(** The first shape: [response['output']['message']['content'][0]['text']],
    when the chain of conditions holds. *)
Definition bedrock_text (response : value) : result (option value) :=
  has_output ← py_in "output" response;
  if negb has_output then Ok None else
  output ← subscript response "output";
  has_message ← py_in "message" output;
  if negb has_message then Ok None else
  message ← subscript output "message";
  has_content ← py_in "content" message;
  if negb has_content then Ok None else
  content ← subscript message "content";
  match content with
  | VList items =>
      if (0 <? length items)%nat then
        first ← first_item content;
        has_text ← py_in "text" first;
        if has_text then text ← subscript first "text"; Ok (Some text)
        else Ok None
      else Ok None
  | _ => Ok None
  end.

(** The [if]/[elif] chain that finds the text: [None] is its [else]
    branch, [Some v] the value [response_text] ends with ([None] of
    Python is [VNone]). *)
Definition response_text_of (response : value) : result (option value) :=
  first ← bedrock_text response;
  match first with
  | Some text => Ok (Some text)
  | None =>
      has_content ← py_in "content" response;
      filled ←
        (if has_content then
           content ← subscript response "content";
           n ← len content;
           Ok (0 <? n)%nat
         else Ok false);
      if filled then
        contents ← subscript response "content";
        content ← first_item contents;
        has_text ← py_in "text" content;
        if has_text then text ← subscript content "text"; Ok (Some text)
        else Ok (Some (match content with
                       | VStr _ => content
                       | _ => VNone
                       end))
      else
        has_completion ← py_in "completion" response;
        if has_completion
        then text ← subscript response "completion"; Ok (Some text)
        else
          has_text ← py_in "text" response;
          if has_text then text ← subscript response "text"; Ok (Some text)
          else
            has_response ← py_in "response" response;
            if has_response
            then text ← subscript response "response"; Ok (Some text)
            else Ok None
  end.

(** [s[n:]] *)
Fixpoint drop_chars (n : nat) (s : string) : string :=
  match n, s with
  | O, _ => s
  | S n, String _ s' => drop_chars n s'
  | S _, EmptyString => EmptyString
  end.

(** The text in front of the first closing fence, a newline and three
    backticks. *)
Fixpoint until_fence (s : string) : option string :=
  if String.prefix (newline +:+ "```") s then Some EmptyString
  else
    match s with
    | EmptyString => None
    | String c s' => String c <$> until_fence s'
    end.

(** At the start of [s]: the shortest text of at least one character
    that a closing fence follows. *)
Definition block_body (s : string) : option string :=
  match s with
  | EmptyString => None
  | String c s' => String c <$> until_fence s'
  end.

(** The pattern of the code block matched at the start of [s]: three
    backticks, [json] or not, a newline, the body and the closing
    fence. *)
Definition block_at (s : string) : option string :=
  if String.prefix "```" s then
    let after := drop_chars 3 s in
    if String.prefix "json" after then
      if String.prefix newline (drop_chars 4 after)
      then block_body (drop_chars 5 after)
      else None
    else if String.prefix newline after then block_body (drop_chars 1 after)
    else None
  else None.

(** [re.search] for the code block: group 1 of the leftmost match. *)
Fixpoint code_block (text : string) : option string :=
  match block_at text with
  | Some body => Some body
  | None =>
      match text with
      | EmptyString => None
      | String _ rest => code_block rest
      end
  end.

(** [s.find(c)] *)
Fixpoint find_char (c : ascii) (s : string) : option nat :=
  match s with
  | EmptyString => None
  | String a s' => if Ascii.eqb a c then Some O else S <$> find_char c s'
  end.

(** [s.rfind(c)] *)
Fixpoint rfind_char (c : ascii) (s : string) : option nat :=
  match s with
  | EmptyString => None
  | String a s' =>
      match rfind_char c s' with
      | Some i => Some (S i)
      | None => if Ascii.eqb a c then Some O else None
      end
  end.

(** The text handed to [json.loads] when there is no code block: from
    the first opening brace to the last closing one, or everything. *)
Definition json_candidate (text : string) : string :=
  match find_char "{" text, rfind_char "}" text with
  | Some json_start, Some last =>
      substring json_start (S last - json_start) text
  | _, _ => text
  end.

(** [if field not in validation_result: validation_result[field] =
    default] *)
Definition set_default (field : string) (default : value)
    (validation_result : value) : result value :=
  present ← py_in field validation_result;
  if present then Ok validation_result
  else
    match validation_result with
    | VDict d => Ok (VDict (<[field := default]> d))
    | VList _ =>
        Raise (TypeError "list indices must be integers or slices, not str")
    | _ =>
        Raise (TypeError ("'" +:+ type_name validation_result
                          +:+ "' object does not support item assignment"))
    end.

(** The defaults of the required fields and of [validation_details], in
    the order the function fills them in. *)
Definition defaults : list (string * value) :=
  [("overall_match", VBool false); ("confidence_score", VInt 0);
   ("discrepancies", VList []); ("warnings", VList []);
   ("validation_details", VDict ∅)].

Definition fill_defaults (validation_result : value) : result value :=
  for_each (fun v entry => set_default entry.1 entry.2 v) defaults
           validation_result.

Section WithRuntime.
Variable rt : runtime.

(** The JSON value read from the text: from the code block if there is
    one, else from the braces. *)
Definition extracted_json (response_text : string) : attempt value :=
  match code_block response_text with
  | Some json_str =>
      match json_loads rt json_str with
      | Some validation_result => Got validation_result
      | None => Failed (Invalid "Invalid JSON in LLM code block")
      end
  | None =>
      match json_loads rt (json_candidate response_text) with
      | Some validation_result => Got validation_result
      | None => Failed (Invalid "Invalid JSON in LLM response")
      end
  end.

Definition _parse_llm_validation_response (response : value) : attempt value :=
  match response_text_of response with
  | Raise e => Failed (Uncaught e)
  | Ok None => Failed (Invalid "Invalid LLM response format")
  | Ok (Some response_text) =>
      if negb (truthy response_text)
      then Failed (Invalid "No text content in LLM response")
      else
        match response_text with
        | VStr text =>
            match extracted_json text with
            | Failed f => Failed f
            | Got validation_result =>
                match fill_defaults validation_result with
                | Ok validation_result => Got validation_result
                | Raise e => Failed (Uncaught e)
                end
            end
        | _ =>
            Failed (Uncaught (TypeError "expected string or bytes-like object"))
        end
  end.





End WithRuntime.

(** A reply of the model that wraps its JSON in a code block. *)
Definition example_reply : value :=
  VDict (dict_literal
           [("output",
             VDict (dict_literal
                      [("message",
                        VDict (dict_literal
                                 [("content",
                                   VList [VDict (dict_literal
                                            [("text",
                                              VStr ("Result:" +:+ newline
                                                    +:+ "```json" +:+ newline
                                                    +:+ "{}" +:+ newline
                                                    +:+ "```"))])])]))]))]).

(** A runtime whose [json.loads] reads the empty object only. *)
Definition example_runtime : runtime :=
  {| json_loads := fun s => if bool_decide (s = "{}") then Some (VDict ∅) else None;
     float_of_str := fun _ => None;
     repr := fun _ => "";
     strptime_strftime := fun _ _ => None |}.

End Llm.

(* ================================================================== *)
(** * Specifications and examples *)
(* ================================================================== *)

Module FuzzySpec.
Import Py Str Fuzzy.

(** What [_is_abbreviation] accepts for a text of several words: a token
    of at least two characters that, ignoring case, is the acronym of the
    words or a prefix of one of them. *)
Definition abbreviates (token : string) (words : list string) : Prop :=
  (2 <= String.length token)%nat
  ∧ (lower token = first_letters words
     ∨ ∃ word, word ∈ words ∧ startswith (lower word) (lower token) = true).

End FuzzySpec.

Module RulesSpec.
Import Py Str Lib Fuzzy Rules.

(** The penalty as the specification words it, with the per-discrepancy
    weight [per_item] being 5 or 10. *)
Definition stated_penalty (per_item : Z) (ds : list discrepancy) : Z :=
  count_severity high ds * 30 + count_severity medium ds * 20
  + count_severity low ds * 10 + Z.of_nat (length ds) * per_item.

(** The penalty [_validate_id_proof] and [_validate_address_proof]
    compute: no term for the low-severity count. *)
Definition penalty_by_count (ds : list discrepancy) : Z :=
  count_severity high ds * 30 + count_severity medium ds * 20
  + Z.of_nat (length ds) * 10.

(** The penalty [_validate_employment_proof] computes. *)
Definition penalty_by_severity (ds : list discrepancy) : Z :=
  count_severity high ds * 30 + count_severity medium ds * 20
  + count_severity low ds * 10 + Z.of_nat (length ds) * 5.

(** The shape of what the closing block of a validator builds. *)
Definition scored (penalty : list discrepancy → Z) (r : validation_result)
  : Prop :=
  (discrepancies r = [] ∧ overall_match r = true ∧ confidence_score r = 100)
  ∨ (discrepancies r ≠ [] ∧ overall_match r = false
     ∧ confidence_score r = Z.max 0 (100 - penalty (discrepancies r))).

(** An employment letter that disagrees with the customer on employer,
    name and position. *)
Definition example_letter : dict :=
  dict_literal [("employer_name", VStr "Acme"); ("employee_name", VStr "Jane Doe");
                ("position", VStr "Plumber")].

Definition example_applicant : dict :=
  dict_literal [("employer", VStr "Zenith"); ("name", VStr "John Smith");
                ("occupation", VStr "Software Engineer")].

End RulesSpec.

Module MainSpec.
Import Py Str Lib Main.

(** The points [calculate_estimated_risk] adds for the income. *)
Definition income_points (customer_data : dict) : result Z :=
  match get customer_data "annual_income" with
  | VNone => Ok 0
  | annual_income =>
      over ← gt_int annual_income 500000;
      if over then Ok 30
      else over ← gt_int annual_income 200000; Ok (if over then 15 else 0)
  end.

(** The points it adds for a government position. *)
Definition position_points (customer_data : dict) : result Z :=
  if truthy (get customer_data "position") then
    position ← as_str (get_default customer_data "position" (VStr "")) "lower";
    Ok (if contains "government" (lower position) then 25 else 0)
  else Ok 0.

(** The additive score behind the band. *)
Definition risk_score (customer_data : dict) : result Z :=
  income ← income_points customer_data;
  position ← position_points customer_data;
  missing ← count_missing required_docs
              (get_default customer_data "documents" (VDict ∅));
  Ok ((if truthy (get customer_data "pep_status") then 50 else 0)
      + income
      + (if truthy (get customer_data "business_name") then 20 else 0)
      + position + missing * 10).

(** A salaried customer with all three documents attached. *)
Definition example_customer : dict :=
  dict_literal
    [("name", VStr "John Smith"); ("annual_income", VInt 120000);
     ("documents",
      VDict (dict_literal [("id_proof", VStr "P1"); ("address_proof", VStr "U1");
                           ("employment_proof", VStr "S1")]))].

End MainSpec.

Module EnrichSpec.
Import Py Str Lib Main.

(** The customer fields each document type feeds. *)
Definition fields_of (doc_type : string) : list string :=
  if bool_decide (doc_type = "id_proof") then ["name"; "dob"; "nationality"]
  else if bool_decide (doc_type = "address_proof") then ["address"]
  else if bool_decide (doc_type = "employment_proof")
  then ["employer"; "occupation"; "annual_income"]
  else [].

(** The value a document's extracted record offers for a customer
    field. *)
Definition extracted_value (rt : runtime) (field : string) (e : dict)
  : result value :=
  if bool_decide (field = "name") then
    Ok (VStr (strip (py_str rt (get_default e "first_name" (VStr "")) +:+ " "
                     +:+ py_str rt (get_default e "last_name" (VStr "")))))
  else if bool_decide (field = "dob") then Ok (get e "dob")
  else if bool_decide (field = "nationality") then Ok (get e "nationality")
  else if bool_decide (field = "address") then Ok (get e "full_address")
  else if bool_decide (field = "employer") then Ok (get e "employer_name")
  else if bool_decide (field = "occupation") then Ok (get e "position")
  else parse_salary rt (get e "annual_salary").

(** The value the customer declared for a field, as the initial
    [comprehensive_data] reads it. *)
Definition declared (customer_data : dict) (field : string) : value :=
  if bool_decide (field = "annual_income") then get customer_data field
  else get_default customer_data field (VStr "").

(** The document of type [doc_type] and identifier [doc_id] has a file in
    the documents directory and its extraction succeeded with the record
    [e]. *)
Definition extracted_as (rt : runtime) (env : environment)
    (doc_type : string) (doc_id : value) (e : dict) : Prop :=
  ∃ filenames filename,
    listdir env = Ok filenames
    ∧ find (fun filename =>
              startswith filename (doc_type +:+ "_" +:+ py_str rt doc_id))
           filenames = Some filename
    ∧ extract_info_from_document env filename doc_type = Extracted (VDict e).

(** The seven fields enrichment can fill. *)
Definition all_fields : list string :=
  ["name"; "dob"; "nationality"; "address"; "employer"; "occupation";
   "annual_income"].

(** An example submission: the customer declares a name and a date of
    birth and attaches an identity document whose extraction succeeds
    with another name and another date. *)
Definition example_declared : dict :=
  dict_literal [("name", VStr "John Smith"); ("dob", VStr "1985-06-15");
                ("documents", VDict (dict_literal [("id_proof", VStr "P1")]))].

Definition example_extracted : dict :=
  dict_literal [("first_name", VStr "Jon"); ("last_name", VStr "Smyth");
                ("dob", VStr "1958-06-15")].

Definition example_env : environment :=
  {| listdir := Ok ["id_proof_P1.jpg"];
     extract_info_from_document := fun _ _ => Extracted (VDict example_extracted);
     now := "2025-01-01T00:00:00"; agent_ids := fun _ => None;
     invoke_agent := fun _ => Raises "unreachable"; case_id := 1;
     fresh_customer_id := Ok "CUST001"; bind_error := fun _ => None |}.

(** The field [field] of the enriched record, when enrichment returns. *)
Definition enriched_field (rt : runtime) (env : environment)
    (customer_data : dict) (field : string) : option value :=
  match enhance_customer_data_with_documents rt env customer_data with
  | Ok enriched => enriched !! field
  | Raise _ => None
  end.

End EnrichSpec.

Module PipelineSpec.
Import Py Str Lib Main.


(** The result it builds when the stage has no agent identifier. *)
Definition not_configured : value :=
  VDict (dict_literal
           [("status", VStr "error");
            ("message", VStr "Agent ID not configured")]).


(** [resp] is what the stage [key] returned in some store. *)
Definition returned_by (rt : runtime) (env : environment) (key name : string)
    (resp : value) : Prop :=
  ∃ input agent_type w w',
    invoke_bedrock_agent rt env (agent_ids env key) input name agent_type w
    = (resp, w').

(** An outage: every stage is configured and every call raises. *)
Definition example_outage : environment :=
  {| listdir := Ok [];
     extract_info_from_document := fun _ _ => ExtractionFailed "no document";
     now := "2025-01-01T00:00:00";
     agent_ids := fun _ => Some "AGENT";
     invoke_agent := fun _ => Raises "ServiceUnavailableException";
     case_id := 1;
     fresh_customer_id := Ok "CUST001";
     bind_error := fun _ => None |}.

Definition example_submission : dict :=
  dict_literal [("name", VStr "John Smith"); ("customer_id", VStr "CUST001");
                ("documents", VDict ∅)].

Definition empty_store : world :=
  {| case := None; steps := []; documents := []; calls := 0 |}.


(** The two statuses a run reads from the validation and the compliance
    response, and the final status it returns and stores, when the body
    completes. *)
Definition decision (rt : runtime) (env : environment) (customer_data : dict)
    (w : world) : option (value * value * string * option string) :=
  match process_body rt env customer_data w with
  | (Ok r, w') =>
      Some (summary_validation_status r, summary_compliance_status r,
            final_status r, status <$> case w')
  | (Raise _, _) => None
  end.

(** The JSON text of an object with one entry, a string. *)
Definition json_entry (key text : string) : string :=
  let quote := String "034" "" in
  "{" +:+ quote +:+ key +:+ quote +:+ ": " +:+ quote +:+ text +:+ quote
  +:+ "}".

(** The answers of the examples and what [json.loads] reads from them:
    the empty object, and objects that hold one status. *)
Definition example_answers : list (string * value) :=
  ("{}", VDict ∅)
  :: ((fun entry : string * string =>
         (json_entry entry.1 entry.2, VDict {[ entry.1 := VStr entry.2 ]}))
      <$> [("validation_status", "incomplete"); ("validation_status", "error");
           ("validation_status", "warning");
           ("validation_status", "violation");
           ("compliance_status", "incomplete");
           ("compliance_status", "error")]).

Definition example_json : runtime :=
  {| json_loads :=
       fun s =>
         snd <$> find (fun answer : string * value =>
                         bool_decide (answer.1 = s)) example_answers;
     float_of_str := fun _ => None;
     repr := fun _ => "";
     strptime_strftime := fun _ _ => None |}.

(** Every stage is configured and answers: the validation stage (the
    second call) and the compliance stage (the fifth) with the given
    texts, the other stages with the empty object. *)
Definition example_answering (validation compliance : string) : environment :=
  {| listdir := Ok [];
     extract_info_from_document := fun _ _ => ExtractionFailed "no document";
     now := "2025-01-01T00:00:00";
     agent_ids := fun _ => Some "AGENT";
     invoke_agent :=
       fun k =>
         Replies (if (k =? 1)%nat then validation
                  else if (k =? 4)%nat then compliance
                  else "{}");
     case_id := 1;
     fresh_customer_id := Ok "CUST001";
     bind_error := fun _ => None |}.

End PipelineSpec.

Module StrSpec.
Import Py Str Fuzzy.

(** The characters of a string all satisfy [Q]. *)
Definition all_chars (Q : ascii → bool) (s : string) : bool :=
  forallb Q (list_ascii_of_string s).

Definition nospace (c : ascii) : bool := negb (isspace c).

(** A word: not empty and free of whitespace. *)
Definition word (w : string) : Prop := w ≠ "" ∧ all_chars nospace w = true.

(** The characters [_clean_address] keeps. *)
Definition kept (c : ascii) : bool := isword c || isspace c.

End StrSpec.

Module ValidationSpec.
Import Py Str Lib Fuzzy Rules.




(** The comparisons of each validator, in the order it makes them, with
    the severity it gives a mismatch. *)
Definition checks (document_type : string) : list (string * severity) :=
  if bool_decide (document_type = "id_proof") then
    [("first_name", medium); ("last_name", medium); ("date_of_birth", high);
     ("nationality", low)]
  else if bool_decide (document_type = "address_proof") then
    [("address", high); ("account_holder_name", high)]
  else if bool_decide (document_type = "employment_proof") then
    [("employer", medium); ("employee_name", high); ("position", low)]
  else [].

Definition reported (d : discrepancy) : option (string * severity) :=
  match d with
  | Mismatch field _ _ sev => Some (field, sev)
  | Message _ => None
  end.

(** A field record whose two values are both non-empty. *)
Definition compared (d : discrepancy) : bool :=
  match d with
  | Mismatch _ document_value user_value _ =>
      truthy document_value && truthy user_value
  | Message _ => false
  end.


(** The discrepancies are field records with both values non-empty, for
    some of the comparisons of [table], in its order. *)
Definition well_reported (table : list (string * severity))
    (ds : list discrepancy) : Prop :=
  Forall (fun d => compared d = true) ds
  ∧ omap reported ds `sublist_of` table.


End ValidationSpec.

Module RiskSpec.
Import Py Str Lib Main.

(** [None] or a number: what [annual_income > 500000] accepts. *)
Definition comparable_income (v : value) : bool :=
  match v with
  | VNone | VBool _ | VInt _ | VFloat _ => true
  | _ => false
  end.

(** What [doc not in documents] accepts for a string [doc]. *)
Definition container (v : value) : bool :=
  match v with
  | VDict _ | VList _ | VStr _ => true
  | _ => false
  end.

Definition is_text (v : value) : bool :=
  match v with
  | VStr _ => true
  | _ => false
  end.

(** The record is one [calculate_estimated_risk] can score. *)
Definition scorable (customer_data : dict) : bool :=
  comparable_income (get customer_data "annual_income")
  && (negb (truthy (get customer_data "position"))
      || is_text (get customer_data "position"))
  && container (get_default customer_data "documents" (VDict ∅)).

(** A politically exposed customer with an income of 120000. *)
Definition example_pep : dict :=
  dict_literal [("name", VStr "Jane Roe"); ("pep_status", VBool true);
                ("annual_income", VInt 120000)].

End RiskSpec.

Module AgentSpec.
Import Py Str Lib Main PipelineSpec.

(** What one invocation may do to the list of processing steps: nothing,
    or add one step, named as asked and finished as a success or an
    error. *)
Definition one_step_more (name agent_type : string) (before after : list step_row)
  : Prop :=
  after = before
  ∨ ∃ row, after = before ++ [row]
      ∧ step_name row = name ∧ step_agent_type row = agent_type
      ∧ step_ended row = true
      ∧ (step_status row = "success" ∨ step_status row = "error").

(** The step [add_processing_step] records. *)
Definition pending_row (name agent_id agent_type : string) : step_row :=
  {| step_name := name; step_agent_id := agent_id;
     step_agent_type := agent_type; step_status := "pending";
     step_response_data := None; step_error_message := None;
     step_ended := false |}.

End AgentSpec.

Module SubmissionSpec.
Import Py Str Lib Main PipelineSpec AgentSpec.

(** The steps of one submission, in the order of the stages. *)
Definition stage_names : list string :=
  ["coordinator_initiation"; "document_validation"; "risk_analysis";
   "sanction_screening"; "compliance_check"].

Definition finished (row : step_row) : Prop :=
  step_ended row = true
  ∧ (step_status row = "success" ∨ step_status row = "error").

(** [after] extends [before] by finished steps whose names are some of
    [names], in their order. *)
Definition steps_added (names : list string) (before after : list step_row)
  : Prop :=
  ∃ added,
    after = before ++ added ∧ Forall finished added
    ∧ step_name <$> added `sublist_of` names.




(** A submission without a name, which the store refuses. *)
Definition example_nameless : dict :=
  dict_literal [("name", VNone); ("customer_id", VStr "CUST001");
                ("documents", VDict ∅)].

End SubmissionSpec.

Module EnrichmentSpec.
Import Py Str Lib Main EnrichSpec PipelineSpec.

(** The fields of the enriched record that only repeat what the customer
    declared, with [''] for a field left out. *)
Definition declared_only : list string :=
  ["email"; "phone"; "customer_id"; "source_of_funds"; "business_name";
   "position"; "university"].

(** An employment letter whose salary was extracted as a number. *)
Definition example_salary_env : environment :=
  {| listdir := Ok ["employment_proof_E1.pdf"];
     extract_info_from_document :=
       fun _ _ =>
         Extracted (VDict (dict_literal [("employer_name", VStr "Acme");
                                         ("annual_salary", VInt 85000)]));
     now := "2025-01-01T00:00:00"; agent_ids := fun _ => Some "AGENT";
     invoke_agent := fun _ => Replies "{}"; case_id := 1;
     fresh_customer_id := Ok "CUST001"; bind_error := fun _ => None |}.

Definition example_salary_submission : dict :=
  dict_literal
    [("name", VStr "John Smith");
     ("documents", VDict (dict_literal [("employment_proof", VStr "E1")]))].

End EnrichmentSpec.


Module RegistrationSpec.
Import Py Str Lib Main.

(** A row [add_documents_to_database] records for the entry
    [(doc_type, doc_id)]: its identifier is not [None]; it names the
    first file of the directory named after the entry, and holds the
    extracted data, or [None] when extraction failed or gave nothing
    truthy. *)
Definition registers (rt : runtime) (env : environment)
    (entry : string * value) (row : document_row) : Prop :=
  document_type row = entry.1 ∧ document_id row = entry.2
  ∧ document_id row ≠ VNone
  ∧ ∃ filenames filename,
      listdir env = Ok filenames
      ∧ find (fun filename =>
                startswith filename (entry.1 +:+ "_" +:+ py_str rt entry.2))
             filenames
        = Some filename
      ∧ document_filename row = Some filename
      ∧ document_extracted_data row
        = match extract_info_from_document env filename entry.1 with
          | Extracted data => if truthy data then data else VNone
          | ExtractionFailed _ => VNone
          end.

(** No file of the directory is named after the entry. *)
Definition skips (rt : runtime) (env : environment)
    (entry : string * value) : Prop :=
  ∃ filenames,
    listdir env = Ok filenames
    ∧ find (fun filename =>
              startswith filename (entry.1 +:+ "_" +:+ py_str rt entry.2))
           filenames
      = None.

(** [rows] are the rows of the entries of [entries] that have a file, in
    their order. *)
Inductive registered (rt : runtime) (env : environment)
  : list (string * value) → list document_row → Prop :=
| registered_nil : registered rt env [] []
| registered_skip entry entries rows :
    skips rt env entry →
    registered rt env entries rows →
    registered rt env (entry :: entries) rows
| registered_row entry entries row rows :
    registers rt env entry row →
    registered rt env entries rows →
    registered rt env (entry :: entries) (row :: rows).

End RegistrationSpec.

(* ================================================================== *)
(** * Properties *)
(* ================================================================== *)

Module FuzzyFacts.
Import Py Str Fuzzy FuzzySpec.

Lemma score_09_neq_0 : 0.9%float ≠ 0%float.
Proof.
  intros H. apply (f_equal (fun x => PrimFloat.ltb 0 x)) in H.
  vm_compute in H. discriminate.
Qed.

Lemma is_abbreviation_several token full_text :
  (1 < length (split full_text))%nat →
  _is_abbreviation token full_text = true ↔ abbreviates token (split full_text).
Proof.
  intros Hlen. unfold _is_abbreviation, abbreviates.
  destruct (String.length token <? 2)%nat eqn:Hshort.
  - apply Nat.ltb_lt in Hshort. split; [discriminate | lia].
  - apply Nat.ltb_ge in Hshort.
    destruct (split full_text) as [|a [|b rest]] eqn:Hwords; simpl in Hlen; try lia.
    case_bool_decide as Hacr.
    + split; auto.
    + rewrite existsb_exists. split.
      * intros (word & Hin & Hpre). split; [lia|]. right.
        exists word. split; [by apply list_elem_of_In | done].
      * intros (_ & [Heq | (word & Hin & Hpre)]); [done|].
        exists word. split; [by apply list_elem_of_In | done].
Qed.

Lemma isspace_lower_char c : isspace (lower_char c) = isspace c.
Proof. by destruct c as [[] [] [] [] [] [] [] []]. Qed.

Lemma rev_app_nonempty s1 s2 : s2 ≠ "" → String.rev_app s1 s2 ≠ "".
Proof.
  revert s2. induction s1 as [|a s1 IH]; intros s2 Hne; simpl; [done|].
  by apply IH.
Qed.

Lemma rev_nonempty s : s ≠ "" → String.rev s ≠ "".
Proof.
  destruct s as [|a s]; [done|]. intros _. unfold String.rev. simpl.
  by apply rev_app_nonempty.
Qed.

(** Every word [split_go] produces is non-empty, and it produces none
    exactly when no run is pending and only spaces follow. *)
Lemma split_go_words cur s :
  Forall (fun word => word ≠ "") (split_go cur s)
  ∧ (split_go cur s = []
     ↔ cur = "" ∧ forallb isspace (list_ascii_of_string s) = true).
Proof.
  revert cur. induction s as [|c s IH]; intros cur; simpl.
  - destruct cur as [|a cur].
    + split; [constructor | done].
    + split; [repeat constructor; by apply rev_nonempty|].
      split; [discriminate | by intros [? _]].
  - destruct (isspace c) eqn:Hc; simpl.
    + destruct cur as [|a cur].
      * destruct (IH "") as [Hall Hnil]. split; [done|].
        rewrite Hnil. tauto.
      * split; [constructor; [by apply rev_nonempty | apply IH]|].
        split; [discriminate | by intros [? _]].
    + destruct (IH (String c cur)) as [Hall Hnil]. split; [done|].
      rewrite Hnil. split; [by intros [? _] | by intros [_ ?]].
Qed.

Lemma join_words_empty words :
  Forall (fun word => word ≠ "") words → join " " words = "" ↔ words = [].
Proof.
  intros Hall. split; [|by intros ->].
  destruct Hall as [|word words Hword _]; [done|].
  destruct words; simpl; [done|]. by destruct word.
Qed.

Lemma lower_spaces s :
  forallb isspace (list_ascii_of_string (lower s))
  = forallb isspace (list_ascii_of_string s).
Proof. induction s as [|c s IH]; simpl; [done|]. by rewrite isspace_lower_char, IH. Qed.

(** The normal form of a string is empty exactly when the string has no
    character other than whitespace. *)
Lemma normal_form_empty s :
  squeeze (lower s) = "" ↔ forallb isspace (list_ascii_of_string s) = true.
Proof.
  unfold squeeze, split.
  destruct (split_go_words "" (lower s)) as [Hall Hnil].
  rewrite join_words_empty by done. rewrite Hnil, lower_spaces. tauto.
Qed.

(** C9.  Whenever one of the two compared strings is empty,
    [_fuzzy_match] returns [False], whatever the other string, the
    threshold and the match type are; in particular two empty strings,
    though equal, do not match.  [_fuzzy_match] is a total function on
    strings: the guard returns before any other operation. *)
Theorem fuzzy_match_empty_input str1 str2 threshold match_type :
  str1 = "" ∨ str2 = "" →
  _fuzzy_match str1 str2 threshold match_type = false.
Proof.
  intros [-> | ->]; unfold _fuzzy_match.
  - reflexivity.
  - destruct (bool_decide (str1 = "")); reflexivity.
Qed.

Lemma fuzzy_match_empty_input_witness :
  ("" = "" ∨ "" = "") ∧ _fuzzy_match "" "" 0.8 "name" = false.
Proof.
  split; [by left|]. apply fuzzy_match_empty_input. by left.
Defined.

(** C7 (as stated, refuted).  The string of one space is not empty, yet
    its normal form is, and [_fuzzy_match] of the normal form against
    itself is [False] for each match type. *)
Lemma fuzzy_match_blank_counterexample :
  " " ≠ ""
  ∧ squeeze (lower " ") = ""
  ∧ _fuzzy_match (squeeze (lower " ")) (squeeze (lower " ")) 0.8 "name" = false
  ∧ _fuzzy_match (squeeze (lower " ")) (squeeze (lower " ")) 0.8 "address" = false
  ∧ _fuzzy_match (squeeze (lower " ")) (squeeze (lower " ")) 0.8 "general" = false.
Proof. repeat split; try reflexivity. discriminate. Qed.

(** C7 (amended).  For every string that has a character other than
    whitespace (which is when its normal form, lower-cased and whitespace
    squeezed, is not empty), matching the normal form against itself
    succeeds for every match type and threshold; and any two non-empty
    inputs with the same normal form match, for every match type and
    threshold. *)
Theorem fuzzy_match_equal_normal_forms :
  (∀ s threshold match_type,
     forallb isspace (list_ascii_of_string s) = false →
     _fuzzy_match (squeeze (lower s)) (squeeze (lower s)) threshold match_type
     = true)
  ∧ (∀ str1 str2 threshold match_type,
       str1 ≠ "" → str2 ≠ "" →
       squeeze (lower str1) = squeeze (lower str2) →
       _fuzzy_match str1 str2 threshold match_type = true).
Proof.
  assert (Heq : ∀ str1 str2 threshold match_type,
            str1 ≠ "" → str2 ≠ "" →
            squeeze (lower str1) = squeeze (lower str2) →
            _fuzzy_match str1 str2 threshold match_type = true).
  { intros str1 str2 threshold match_type H1 H2 Hsame. unfold _fuzzy_match.
    rewrite !bool_decide_eq_false_2 by done. simpl.
    by rewrite bool_decide_eq_true_2. }
  split; [|exact Heq].
  intros s threshold match_type Hchar.
  assert (squeeze (lower s) ≠ "") as Hne.
  { rewrite normal_form_empty, Hchar. discriminate. }
  by apply Heq.
Qed.

Lemma fuzzy_match_equal_normal_forms_witness :
  _fuzzy_match (squeeze (lower "John  SMITH")) (squeeze (lower "John  SMITH"))
               0.8 "address" = true
  ∧ _fuzzy_match "John Smith" " john   smith" 0.99 "general" = true.
Proof.
  split.
  - apply (proj1 fuzzy_match_equal_normal_forms). reflexivity.
  - apply (proj2 fuzzy_match_equal_normal_forms); [discriminate..|reflexivity].
Defined.

(** C8 (as stated, refuted).  [corp] is neither a substring of [tech],
    the first word, nor the acronym [tc], and scores 0.9; [ec] is a
    substring of the first word and scores 0.0. *)
Lemma abbreviation_similarity_counterexample :
  split "corp" = ["corp"] ∧ split "tech corporation" = ["tech"; "corporation"]
  ∧ contains "corp" "tech" = false
  ∧ "corp" ≠ first_letters ["tech"; "corporation"]
  ∧ _abbreviation_similarity "corp" "tech corporation" = 0.9%float
  ∧ split "ec" = ["ec"] ∧ split "tech corp" = ["tech"; "corp"]
  ∧ contains "ec" "tech" = true
  ∧ _abbreviation_similarity "ec" "tech corp" = 0%float.
Proof. repeat split; try reflexivity. discriminate. Qed.

(** C8 (amended).  When one string is a single token and the other has
    several words, the abbreviation similarity is 0.9 exactly when the
    token has at least two characters and, ignoring case, is the acronym
    of the words' first letters or a prefix of any one of the words; it
    is 0.0 exactly when that fails.  The function is symmetric in its two
    arguments. *)
Theorem abbreviation_similarity_characterised :
  (∀ str1 str2 token,
     split str1 = [token] → (1 < length (split str2))%nat →
     (_abbreviation_similarity str1 str2 = 0.9%float
      ↔ abbreviates token (split str2))
     ∧ (_abbreviation_similarity str1 str2 = 0%float
        ↔ ¬ abbreviates token (split str2)))
  ∧ (∀ str1 str2,
       _abbreviation_similarity str1 str2 = _abbreviation_similarity str2 str1).
Proof.
  split.
  - intros str1 str2 token Htok Hlen.
    pose proof (is_abbreviation_several token str2 Hlen) as Habbr.
    unfold _abbreviation_similarity. rewrite Htok.
    destruct (split str2) as [|a [|b rest]] eqn:Hwords; simpl in Hlen; try lia.
    destruct (_is_abbreviation token str2).
    + split; split.
      * intros _. by apply Habbr.
      * reflexivity.
      * intros H. destruct (score_09_neq_0 H).
      * intros H. destruct H. by apply Habbr.
    + split; split.
      * intros H. destruct (score_09_neq_0 (eq_sym H)).
      * intros H. apply Habbr in H. discriminate.
      * intros _ H. apply Habbr in H. discriminate.
      * reflexivity.
  - intros str1 str2. unfold _abbreviation_similarity.
    destruct (split str1) as [|a [|b l1]], (split str2) as [|c [|d l2]];
      reflexivity.
Qed.

Lemma abbreviation_similarity_characterised_witness :
  _abbreviation_similarity "IBM" "international business machines" = 0.9%float.
Proof.
  apply (proj1 (proj1 abbreviation_similarity_characterised
                  "IBM" "international business machines" "IBM"
                  eq_refl ltac:(vm_compute; lia))).
  split; [vm_compute; lia|]. left. reflexivity.
Defined.

End FuzzyFacts.

Module RulesFacts.
Import Py Str Lib Fuzzy Rules RulesSpec.

Lemma bind_Ok {A B} (m : result A) (k : A → result B) (b : B) :
  bind m k = Ok b → ∃ a, m = Ok a ∧ k a = Ok b.
Proof. destruct m as [a|e]; simpl; [eauto | discriminate]. Qed.

(** Peel the binds of a computation known to return. *)
Ltac invert_binds :=
  repeat match goal with
         | H : bind _ _ = Ok _ |- _ =>
             let a := fresh "a" in
             let Ha := fresh "Ha" in
             apply bind_Ok in H; destruct H as (a & Ha & H)
         end.

Lemma count_severity_nonneg s ds : 0 ≤ count_severity s ds.
Proof. unfold count_severity. lia. Qed.

Lemma validate_id_proof_scored rt extracted user r :
  _validate_id_proof rt extracted user = Ok r → scored penalty_by_count r.
Proof.
  unfold _validate_id_proof. intros H. invert_binds.
  match type of H with
  | Ok (match ?ds with _ => _ end) = _ => destruct ds eqn:Hds
  end; injection H as <-; [left | right]; simpl; auto.
Qed.

Lemma validate_address_proof_scored extracted user r :
  _validate_address_proof extracted user = Ok r → scored penalty_by_count r.
Proof.
  unfold _validate_address_proof. intros H. invert_binds.
  match type of H with
  | Ok (match ?ds with _ => _ end) = _ => destruct ds eqn:Hds
  end; injection H as <-; [left | right]; simpl; auto.
Qed.

Lemma validate_employment_proof_scored extracted user r :
  _validate_employment_proof extracted user = Ok r →
  scored penalty_by_severity r.
Proof.
  unfold _validate_employment_proof. intros H. invert_binds.
  match type of H with
  | Ok (match ?ds with _ => _ end) = _ => destruct ds eqn:Hds
  end; injection H as <-; [left | right]; simpl; auto.
Qed.

Lemma check_text_high_keeps_low field doc user threshold match_type ds :
  count_severity low (check_text field doc user threshold match_type high ds)
  = count_severity low ds.
Proof.
  unfold check_text, count_severity.
  destruct (nonempty_str doc && nonempty_str user); [|reflexivity].
  destruct (negb _); [|reflexivity].
  rewrite List.filter_app, length_app. simpl. lia.
Qed.

Lemma validate_address_proof_no_low extracted user r :
  _validate_address_proof extracted user = Ok r →
  count_severity low (discrepancies r) = 0.
Proof.
  unfold _validate_address_proof. intros H. invert_binds.
  match type of H with
  | Ok (match ?ds with _ => _ end) = _ =>
      assert (Hds : count_severity low ds = 0)
        by (by rewrite !check_text_high_keeps_low);
      destruct ds eqn:Heq
  end; injection H as <-; simpl; [reflexivity | exact Hds].
Qed.

Lemma scored_well_formed penalty r :
  (∀ ds, 0 ≤ penalty ds) → scored penalty r →
  0 ≤ confidence_score r ≤ 100
  ∧ (overall_match r = true ↔ discrepancies r = []).
Proof.
  intros Hpos [(Hds & Hm & Hc) | (Hds & Hm & Hc)];
    rewrite Hm, Hc; [rewrite Hds|].
  - split; [lia | done].
  - specialize (Hpos (discrepancies r)). split; [lia|]. split; [discriminate | done].
Qed.

Lemma penalty_by_count_nonneg ds : 0 ≤ penalty_by_count ds.
Proof.
  unfold penalty_by_count.
  pose proof (count_severity_nonneg high ds).
  pose proof (count_severity_nonneg medium ds). lia.
Qed.

Lemma penalty_by_severity_nonneg ds : 0 ≤ penalty_by_severity ds.
Proof.
  unfold penalty_by_severity.
  pose proof (count_severity_nonneg high ds).
  pose proof (count_severity_nonneg medium ds).
  pose proof (count_severity_nonneg low ds). lia.
Qed.

(** C10.  For a document type other than [id_proof], [address_proof] and
    [employment_proof], the rule-based validator compares nothing: it
    returns a match with confidence 100 and no discrepancies or warnings,
    whatever the two records hold. *)
Theorem unknown_document_type_is_clean rt extracted_data user_data document_type :
  document_type ≠ "id_proof" → document_type ≠ "address_proof" →
  document_type ≠ "employment_proof" →
  _validate_with_rules rt extracted_data user_data document_type
  = {| overall_match := true; confidence_score := 100; discrepancies := [];
       warnings := []; validation_details := ∅ |}.
Proof.
  intros H1 H2 H3. unfold _validate_with_rules.
  by rewrite !bool_decide_eq_false_2.
Qed.

Lemma unknown_document_type_is_clean_witness :
  "bank_statement" ≠ "id_proof" ∧ "bank_statement" ≠ "address_proof"
  ∧ "bank_statement" ≠ "employment_proof"
  ∧ ∀ rt,
      _validate_with_rules rt example_letter example_applicant "bank_statement"
      = {| overall_match := true; confidence_score := 100; discrepancies := [];
           warnings := []; validation_details := ∅ |}.
Proof.
  do 3 (split; [discriminate|]).
  intros rt. apply unknown_document_type_is_clean; discriminate.
Defined.

(** C5.  For every pair of records and every document type, the result of
    the rule-based validator has a confidence score between 0 and 100,
    and its match flag is set exactly when its list of discrepancies is
    empty.  This covers the result built when a validator raises. *)
Theorem rule_based_result_well_formed rt extracted_data user_data document_type :
  let r := _validate_with_rules rt extracted_data user_data document_type in
  0 ≤ confidence_score r ≤ 100
  ∧ (overall_match r = true ↔ discrepancies r = []).
Proof.
  assert (Herr : ∀ e,
            let r := {| overall_match := false; confidence_score := 0;
                        discrepancies := [Message "Validation error occurred"];
                        warnings := ["Validation failed: " +:+ exn_str e];
                        validation_details := ∅ |} in
            0 ≤ confidence_score r ≤ 100
            ∧ (overall_match r = true ↔ discrepancies r = [])).
  { intros e. simpl. split; [lia|]. split; discriminate. }
  simpl. unfold _validate_with_rules.
  repeat case_bool_decide.
  - destruct (_validate_id_proof _ _ _) as [r|e] eqn:Hr; [|apply Herr].
    eapply scored_well_formed;
      [apply penalty_by_count_nonneg | by eapply validate_id_proof_scored].
  - destruct (_validate_address_proof _ _) as [r|e] eqn:Hr; [|apply Herr].
    eapply scored_well_formed;
      [apply penalty_by_count_nonneg | by eapply validate_address_proof_scored].
  - destruct (_validate_employment_proof _ _) as [r|e] eqn:Hr; [|apply Herr].
    eapply scored_well_formed;
      [apply penalty_by_severity_nonneg
      | by eapply validate_employment_proof_scored].
  - simpl. split; [lia | done].
Qed.

(** C4 (as stated, refuted).  An identity document whose only
    discrepancy is the nationality (severity low) scores 90, whatever the
    date library does: the stated penalty would give 85 or 80. *)
Lemma id_proof_low_severity_counterexample :
  ∃ r,
    (∀ rt, _validate_id_proof rt (dict_literal [("nationality", VStr "France")])
                              (dict_literal [("nationality", VStr "Germany")])
           = Ok r)
    ∧ discrepancies r
      = [Mismatch "nationality" (VStr "france") (VStr "germany") low]
    ∧ confidence_score r = 90
    ∧ Z.max 0 (100 - stated_penalty 5 (discrepancies r)) = 85
    ∧ Z.max 0 (100 - stated_penalty 10 (discrepancies r)) = 80.
Proof.
  eexists. split; [intros rt; vm_compute; reflexivity|].
  repeat split.
Qed.

(** C4 (amended).  When a validator returns with at least one
    discrepancy, the confidence score is 100 minus a penalty, never below
    0.  For [id_proof] the penalty is high·30 + medium·20 + total·10 (a
    low-severity discrepancy counts only in the total).  For
    [address_proof] it is high·30 + medium·20 + low·10 + total·10, and for
    [employment_proof] high·30 + medium·20 + low·10 + total·5. *)
Theorem confidence_score_penalty :
  (∀ rt extracted_data user_data r,
     _validate_id_proof rt extracted_data user_data = Ok r →
     discrepancies r ≠ [] →
     confidence_score r = Z.max 0 (100 - penalty_by_count (discrepancies r)))
  ∧ (∀ extracted_data user_data r,
       _validate_address_proof extracted_data user_data = Ok r →
       discrepancies r ≠ [] →
       confidence_score r
       = Z.max 0 (100 - stated_penalty 10 (discrepancies r)))
  ∧ (∀ extracted_data user_data r,
       _validate_employment_proof extracted_data user_data = Ok r →
       discrepancies r ≠ [] →
       confidence_score r
       = Z.max 0 (100 - stated_penalty 5 (discrepancies r))).
Proof.
  repeat split.
  - intros rt e u r H Hne.
    by destruct (validate_id_proof_scored _ _ _ _ H) as [[? _]|(_ & _ & ?)].
  - intros e u r H Hne.
    pose proof (validate_address_proof_no_low _ _ _ H) as Hlow.
    destruct (validate_address_proof_scored _ _ _ H) as [[? _]|(_ & _ & ->)];
      [done|].
    unfold stated_penalty, penalty_by_count. rewrite Hlow. f_equal. lia.
  - intros e u r H Hne.
    by destruct (validate_employment_proof_scored _ _ _ H) as [[? _]|(_ & _ & ?)].
Qed.

Lemma confidence_score_penalty_witness :
  ∃ r,
    _validate_employment_proof example_letter example_applicant = Ok r
    ∧ length (discrepancies r) = 3%nat
    ∧ confidence_score r = 25.
Proof.
  destruct (_validate_employment_proof example_letter example_applicant)
    as [r|e] eqn:Hr; [|vm_compute in Hr; discriminate].
  assert (Hds : discrepancies r
                = [Mismatch "employer" (VStr "acme") (VStr "zenith") medium;
                   Mismatch "employee_name" (VStr "jane doe")
                            (VStr "john smith") high;
                   Mismatch "position" (VStr "plumber")
                            (VStr "software engineer") low])
    by (vm_compute in Hr; by injection Hr as <-).
  exists r. split; [reflexivity|]. split; [by rewrite Hds|].
  rewrite (proj2 (proj2 confidence_score_penalty) _ _ _ Hr)
    by (by rewrite Hds).
  by rewrite Hds.
Defined.

End RulesFacts.

Module RiskFacts.
Import Py Str Lib Main MainSpec.
Import RulesFacts.

Lemma calculate_estimated_risk_score customer_data :
  calculate_estimated_risk customer_data
  = (score ← risk_score customer_data; Ok (band_of_score score)).
Proof.
  unfold calculate_estimated_risk, risk_score, income_points, position_points.
  destruct (truthy (get customer_data "pep_status")),
    (truthy (get customer_data "business_name")),
    (truthy (get customer_data "position"));
    destruct (get customer_data "annual_income"); cbn [bind];
    repeat first
      [ destruct (gt_int _ 500000) as [[]|?]; cbn [bind]
      | destruct (gt_int _ 200000) as [[]|?]; cbn [bind]
      | destruct (as_str _ "lower") as [?|?]; cbn [bind]
      | destruct (contains "government" _); cbn [bind]
      | destruct (count_missing _ _) as [?|?]; cbn [bind] ];
    try reflexivity; do 2 f_equal; lia.
Qed.

Lemma band_of_score_mono a b :
  a ≤ b → band_le (band_of_score a) (band_of_score b).
Proof.
  intros Hab. unfold band_le, band_of_score.
  repeat match goal with
         | |- context [?x <=? ?y] => destruct (Z.leb_spec x y)
         end; simpl; lia.
Qed.

Lemma get_insert_ne (d : dict) k k' v :
  k ≠ k' → get (<[k := v]> d) k' = get d k'.
Proof. intros Hne. unfold get, get_default. by rewrite lookup_insert_ne. Qed.

Lemma get_default_insert_ne (d : dict) k k' v default :
  k ≠ k' → get_default (<[k := v]> d) k' default = get_default d k' default.
Proof. intros Hne. unfold get_default. by rewrite lookup_insert_ne. Qed.

Lemma get_insert_eq (d : dict) k v : get (<[k := v]> d) k = v.
Proof. unfold get, get_default. by rewrite lookup_insert_eq. Qed.

(** Setting a key that the income, position and document terms do not
    read shifts the score by the difference of that key's own term. *)
Lemma risk_score_insert customer_data key v score :
  key = "pep_status" ∨ key = "business_name" →
  risk_score customer_data = Ok score →
  ∃ score',
    risk_score (<[key := v]> customer_data) = Ok score'
    ∧ score' - score
      = ((if truthy (get (<[key := v]> customer_data) "pep_status")
          then 50 else 0)
         - (if truthy (get customer_data "pep_status") then 50 else 0))
        + ((if truthy (get (<[key := v]> customer_data) "business_name")
            then 20 else 0)
           - (if truthy (get customer_data "business_name") then 20 else 0)).
Proof.
  intros Hkey H. unfold risk_score in *.
  assert (Hinc : income_points (<[key := v]> customer_data)
                 = income_points customer_data).
  { unfold income_points. rewrite get_insert_ne; [done|]. by destruct Hkey as [-> | ->]. }
  assert (Hpos : position_points (<[key := v]> customer_data)
                 = position_points customer_data).
  { unfold position_points.
    rewrite get_insert_ne, get_default_insert_ne; [done|..];
      by destruct Hkey as [-> | ->]. }
  assert (Hdoc : get_default (<[key := v]> customer_data) "documents" (VDict ∅)
                 = get_default customer_data "documents" (VDict ∅)).
  { rewrite get_default_insert_ne; [done|]. by destruct Hkey as [-> | ->]. }
  rewrite Hinc, Hpos, Hdoc. invert_binds. rewrite Ha, Ha0, Ha1. cbn [bind].
  injection H as <-. eexists. split; [reflexivity|]. lia.
Qed.

(** C6.  The risk scorer is monotonic.  Whenever it returns a band for a
    customer record, it also returns one for the record with
    [pep_status] set to [True], and for the record with a non-empty
    [business_name] set, and in both cases the new band is not below the
    old one in the order Low < Medium < High. *)
Theorem risk_band_monotone :
  (∀ customer_data b,
     calculate_estimated_risk customer_data = Ok b →
     ∃ b',
       calculate_estimated_risk (<["pep_status" := VBool true]> customer_data)
       = Ok b'
       ∧ band_le b b')
  ∧ (∀ customer_data business_name b,
       business_name ≠ "" →
       calculate_estimated_risk customer_data = Ok b →
       ∃ b',
         calculate_estimated_risk
           (<["business_name" := VStr business_name]> customer_data)
         = Ok b'
         ∧ band_le b b').
Proof.
  split.
  - intros c b H. rewrite calculate_estimated_risk_score in *.
    apply bind_Ok in H as (score & Hscore & [= <-]).
    destruct (risk_score_insert c "pep_status" (VBool true) score
                ltac:(by left) Hscore) as (score' & -> & Hdiff).
    cbn [bind]. eexists. split; [reflexivity|].
    apply band_of_score_mono.
    rewrite get_insert_eq, get_insert_ne in Hdiff by done. simpl in Hdiff.
    destruct (truthy (get c "pep_status")); lia.
  - intros c name b Hname H. rewrite calculate_estimated_risk_score in *.
    apply bind_Ok in H as (score & Hscore & [= <-]).
    destruct (risk_score_insert c "business_name" (VStr name) score
                ltac:(by right) Hscore) as (score' & -> & Hdiff).
    cbn [bind]. eexists. split; [reflexivity|].
    apply band_of_score_mono.
    rewrite get_insert_eq, get_insert_ne in Hdiff by done.
    assert (truthy (VStr name) = true) as Ht.
    { simpl. by rewrite bool_decide_eq_false_2. }
    rewrite Ht in Hdiff.
    destruct (truthy (get c "business_name")); lia.
Qed.

Lemma risk_band_monotone_witness :
  calculate_estimated_risk example_customer = Ok Low
  ∧ (∃ b', calculate_estimated_risk
             (<["pep_status" := VBool true]> example_customer) = Ok b'
           ∧ band_le Low b')
  ∧ (∃ b', calculate_estimated_risk
             (<["business_name" := VStr "Smith Consulting"]> example_customer)
           = Ok b'
           ∧ band_le Low b').
Proof.
  assert (H : calculate_estimated_risk example_customer = Ok Low)
    by (vm_compute; reflexivity).
  split; [exact H|]. split.
  - exact (proj1 risk_band_monotone example_customer Low H).
  - exact (proj2 risk_band_monotone example_customer "Smith Consulting" Low
             ltac:(discriminate) H).
Defined.

End RiskFacts.

Module EnrichFacts.
Import Py Str Lib Main EnrichSpec.
Import RulesFacts RiskFacts.

Lemma set_document_details_other doc_type details comp field :
  field ≠ "document_details" →
  set_document_details doc_type details comp !! field = comp !! field.
Proof.
  intros Hne. unfold set_document_details.
  destruct (item comp "document_details"); try done.
  by rewrite lookup_insert_ne.
Qed.

Lemma item_set_document_details doc_type details comp field :
  field ≠ "document_details" →
  item (set_document_details doc_type details comp) field = item comp field.
Proof.
  intros Hne. unfold item, get, get_default.
  by rewrite set_document_details_other.
Qed.

Lemma fields_of_all doc_type field :
  field ∈ fields_of doc_type → field ∈ all_fields.
Proof.
  unfold fields_of, all_fields.
  repeat case_bool_decide; rewrite !elem_of_cons, ?elem_of_nil; tauto.
Qed.

(** Ltac: split a membership in a literal list into its cases. *)
Ltac list_cases :=
  repeat match goal with
         | H : _ ∈ _ :: _ |- _ =>
             let E := fresh "E" in
             apply elem_of_cons in H as [E | H];
             [first [discriminate E | subst] |]
         | H : _ ∈ [] |- _ => by apply elem_of_nil in H
         end.

Lemma fields_of_disjoint doc_type doc_type' field :
  doc_type' ≠ doc_type → field ∈ fields_of doc_type →
  field ∉ fields_of doc_type'.
Proof.
  unfold fields_of. intros Hne Hin Hin'.
  repeat case_bool_decide; subst; try done; list_cases.
Qed.

Lemma enhance_with_frame rt doc_type data comp comp' field :
  field ∈ all_fields → field ∉ fields_of doc_type →
  enhance_with rt doc_type data comp = Ok comp' →
  comp' !! field = comp !! field.
Proof.
  intros Hall Hnot Henh. unfold enhance_with, fields_of in *.
  unfold all_fields in Hall.
  repeat case_bool_decide; invert_binds; injection Henh as <-;
    repeat (apply elem_of_cons in Hall as [-> | Hall]);
    try (by apply elem_of_nil in Hall);
    try (exfalso; apply Hnot; rewrite !elem_of_cons; tauto);
    by rewrite ?lookup_insert_ne.
Qed.

Lemma enhance_document_frame rt env comp comp' doc_type doc_id field :
  field ∈ all_fields → field ∉ fields_of doc_type →
  enhance_document rt env comp (doc_type, doc_id) = Ok comp' →
  comp' !! field = comp !! field.
Proof.
  intros Hall Hnot Henh. unfold enhance_document in Henh.
  assert (Hdd : field ≠ "document_details").
  { intros ->. unfold all_fields in Hall. list_cases. }
  invert_binds. destruct (find _ a) as [filename|]; [|by injection Henh as <-].
  destruct (extract_info_from_document env filename doc_type) as [data|error].
  - erewrite enhance_with_frame; [|done..]. by apply set_document_details_other.
  - injection Henh as <-. by apply set_document_details_other.
Qed.

Lemma enhance_with_update rt doc_type e comp comp' field :
  field ∈ fields_of doc_type →
  enhance_with rt doc_type (VDict e) comp = Ok comp' →
  ∃ v, extracted_value rt field e = Ok v
       ∧ comp' !! field = Some (py_or v (item comp field)).
Proof.
  intros Hin Henh. unfold enhance_with, fields_of in *.
  repeat case_bool_decide; try (by apply elem_of_nil in Hin); subst;
    cbn [as_dict bind] in Henh; invert_binds; injection Henh as <-;
    repeat (apply elem_of_cons in Hin as [-> | Hin]);
    try (by apply elem_of_nil in Hin);
    unfold extracted_value; cbn [bool_decide decide_rel]; 
    eexists; (split; [first [reflexivity | eassumption]|]);
    by rewrite ?lookup_insert_eq, ?lookup_insert_ne, ?lookup_insert_eq by done.
Qed.

Lemma enhance_document_update rt env comp comp' doc_type doc_id e field :
  field ∈ fields_of doc_type →
  extracted_as rt env doc_type doc_id e →
  enhance_document rt env comp (doc_type, doc_id) = Ok comp' →
  ∃ v, extracted_value rt field e = Ok v
       ∧ comp' !! field = Some (py_or v (item comp field)).
Proof.
  intros Hin (filenames & filename & Hls & Hfind & Hext) Henh.
  unfold enhance_document in Henh. rewrite Hls in Henh. cbn [bind] in Henh.
  rewrite Hfind, Hext in Henh.
  destruct (enhance_with_update _ _ _ _ _ _ Hin Henh) as (v & Hv & Hlook).
  exists v. split; [done|]. rewrite Hlook, item_set_document_details; [done|].
  intros ->. apply fields_of_all in Hin. unfold all_fields in Hin.
  list_cases.
Qed.

(** The loop over the attached documents, for a field that the document
    type [doc_type] feeds: documents of other types leave the field
    alone, and each type occurs once among the keys of a dict. *)
Lemma for_each_enhance_field rt env doc_type doc_id e field entries :
  field ∈ fields_of doc_type →
  extracted_as rt env doc_type doc_id e →
  NoDup entries.*1 →
  ∀ comp comp',
    for_each (enhance_document rt env) entries comp = Ok comp' →
    ((doc_type, doc_id) ∈ entries →
     ∃ v, extracted_value rt field e = Ok v
          ∧ comp' !! field = Some (py_or v (item comp field)))
    ∧ (doc_type ∉ entries.*1 → comp' !! field = comp !! field).
Proof.
  intros Hin Hext. induction entries as [|[t i] rest IH]; intros Hnd comp comp' Hrun.
  - injection Hrun as <-. split; [by intros ?%elem_of_nil | done].
  - cbn [for_each] in Hrun. apply bind_Ok in Hrun as (comp1 & Hstep & Hrest).
    simpl in Hnd. apply NoDup_cons in Hnd as [Hfresh Hnd].
    destruct (IH Hnd _ _ Hrest) as [IHin IHout].
    destruct (decide (t = doc_type)) as [-> | Hne].
    + (* this entry is the document of the feeding type *)
      split.
      * intros [[= ->] | Hlater]%elem_of_cons.
        -- destruct (enhance_document_update _ _ _ _ _ _ _ _ Hin Hext Hstep)
             as (v & Hv & Hlook).
           exists v. split; [done|]. by rewrite IHout.
        -- exfalso. apply Hfresh. apply list_elem_of_fmap. by exists (doc_type, doc_id).
      * intros Hout. exfalso. apply Hout. simpl. by left.
    + (* an entry of another type: the field is not touched *)
      assert (Hframe : comp1 !! field = comp !! field).
      { eapply enhance_document_frame;
          [by eapply fields_of_all | by eapply fields_of_disjoint | done]. }
      assert (Hitem : item comp1 field = item comp field).
      { unfold item, get, get_default. by rewrite Hframe. }
      split.
      * intros [[= -> ->] | Hlater]%elem_of_cons; [done|].
        destruct (IHin Hlater) as (v & Hv & Hlook).
        exists v. split; [done|]. by rewrite Hlook, Hitem.
      * intros Hout. rewrite IHout, Hframe; [done|].
        intros ?. apply Hout. simpl. by right.
Qed.

Lemma item_initial env customer_data field :
  field ∈ all_fields →
  item (initial_comprehensive_data env customer_data) field
  = declared customer_data field.
Proof.
  unfold all_fields. intros Hin.
  repeat (apply elem_of_cons in Hin as [-> | Hin]);
    [reflexivity..|by apply elem_of_nil in Hin].
Qed.

(** C3 (as stated, refuted).  In the example both records hold a
    non-empty name and a non-empty date of birth, and whatever the
    libraries do the enriched record holds the extracted values, not the
    declared ones. *)
Lemma enrichment_counterexample :
  example_declared !! "name" = Some (VStr "John Smith")
  ∧ example_declared !! "dob" = Some (VStr "1985-06-15")
  ∧ example_extracted !! "dob" = Some (VStr "1958-06-15")
  ∧ (∀ rt, enriched_field rt example_env example_declared "name"
           = Some (VStr "Jon Smyth"))
  ∧ (∀ rt, enriched_field rt example_env example_declared "dob"
           = Some (VStr "1958-06-15")).
Proof.
  repeat split; try (intros rt); vm_compute; reflexivity.
Qed.

(** C3 (amended).  For an attached document whose extraction succeeded,
    each customer field the document type feeds (id proof: name, date of
    birth, nationality; address proof: address; employment proof:
    employer, occupation, income) ends as [extracted or declared]: the
    extracted value whenever that is non-empty, and the declared value
    only when the extracted one is empty or absent. *)
Theorem enrichment_prefers_extracted rt env customer_data enriched documents
    doc_type doc_id e field :
  enhance_customer_data_with_documents rt env customer_data = Ok enriched →
  get_default customer_data "documents" (VDict ∅) = VDict documents →
  documents !! doc_type = Some doc_id →
  extracted_as rt env doc_type doc_id e →
  field ∈ fields_of doc_type →
  ∃ v, extracted_value rt field e = Ok v
       ∧ enriched !! field
         = Some (if truthy v then v else declared customer_data field).
Proof.
  intros Hrun Hdocs Hdoc Hext Hfield.
  unfold enhance_customer_data_with_documents in Hrun.
  rewrite Hdocs in Hrun. cbn [as_dict bind] in Hrun.
  apply bind_Ok in Hrun as (comp & Hloop & Hrun). invert_binds.
  injection Hrun as <-.
  pose proof (fields_of_all _ _ Hfield) as Hall.
  destruct (for_each_enhance_field rt env doc_type doc_id e field
              (map_to_list documents) Hfield Hext
              (NoDup_fst_map_to_list documents) _ _ Hloop) as [Hin _].
  destruct (Hin ltac:(by apply elem_of_map_to_list)) as (v & Hv & Hlook).
  exists v. split; [done|].
  rewrite item_initial in Hlook by done.
  rewrite !lookup_insert_ne; [exact Hlook|..];
    intros <-; unfold all_fields in Hall; list_cases.
Qed.

Lemma enrichment_prefers_extracted_witness :
  ∃ v, ∀ rt, ∃ enriched,
    enhance_customer_data_with_documents rt example_env example_declared
    = Ok enriched
    ∧ extracted_value rt "dob" example_extracted = Ok v
    ∧ enriched !! "dob"
      = Some (if truthy v then v else declared example_declared "dob").
Proof.
  exists (VStr "1958-06-15"). intros rt.
  destruct (enhance_customer_data_with_documents rt example_env example_declared)
    as [enriched|e] eqn:Hrun.
  - exists enriched. split; [reflexivity|].
    destruct (enrichment_prefers_extracted rt example_env example_declared
                enriched (dict_literal [("id_proof", VStr "P1")])
                "id_proof" (VStr "P1") example_extracted "dob" Hrun)
      as (v & Hv & Hlook).
    + vm_compute. reflexivity.
    + vm_compute. reflexivity.
    + exists ["id_proof_P1.jpg"], "id_proof_P1.jpg". repeat split.
    + unfold fields_of. rewrite bool_decide_eq_true_2 by done.
      apply elem_of_cons. right. apply elem_of_cons. by left.
    + assert (v = VStr "1958-06-15") as -> by (vm_compute in Hv; congruence).
      split; [vm_compute; reflexivity | exact Hlook].
  - exfalso.
    assert (Hok : enriched_field rt example_env example_declared "dob"
                  = Some (VStr "1958-06-15")) by (vm_compute; reflexivity).
    unfold enriched_field in Hok. rewrite Hrun in Hok. discriminate.
Defined.

End EnrichFacts.

Module PipelineFacts.
Import Py Str Lib Main PipelineSpec.
Import RulesFacts.

Lemma update_processing_step_case step st resp err w :
  case (update_processing_step step st resp err w) = case w.
Proof. by destruct step. Qed.

(** Close a goal about the [case] of a store built by the step and call
    updates. *)
Ltac case_kept H :=
  injection H as <- <-; rewrite ?update_processing_step_case; reflexivity.

Lemma try_simple_input_format_case env agent_id input step w resp w' :
  try_simple_input_format env agent_id input step w = (resp, w') →
  case w' = case w.
Proof.
  unfold try_simple_input_format, call_agent. intros H.
  destruct (bind _ _) as [?|?]; [|case_kept H].
  destruct (invoke_agent env (calls w)); [case_kept H|].
  destruct (nonempty_str _); case_kept H.
Qed.

Lemma invoke_bedrock_agent_case rt env agent_id input name agent_type w resp w' :
  invoke_bedrock_agent rt env agent_id input name agent_type w = (resp, w') →
  case w' = case w.
Proof.
  unfold invoke_bedrock_agent, call_agent, add_processing_step. intros H.
  destruct agent_id as [[|c aid]|]; try case_kept H.
  destruct (_ && _); cbn [fst snd calls case steps] in H;
    (destruct (invoke_agent env _); [case_kept H|]);
    (destruct (negb _);
     [by apply try_simple_input_format_case in H | case_kept H]).
Qed.

(** Registering documents touches neither the case row, nor the steps,
    nor the count of calls. *)
Lemma add_document_rest rt env w entry w' :
  add_document rt env w entry = Ok w' →
  case w' = case w ∧ calls w' = calls w ∧ steps w' = steps w.
Proof.
  unfold add_document. destruct entry as [t i]. intros H. invert_binds.
  destruct (find _ _); [|by injection H as <-].
  cbv zeta in H. destruct (document_error _ _); [done|]. by injection H as <-.
Qed.

Lemma for_each_stored_add_document rt env entries w out w' :
  for_each_stored (add_document rt env) entries w = (out, w') →
  case w' = case w ∧ calls w' = calls w ∧ steps w' = steps w.
Proof.
  revert w. induction entries as [|x rest IH]; intros w H.
  - by injection H as <- <-.
  - cbn [for_each_stored] in H.
    destruct (add_document rt env w x) as [w1|e] eqn:Hstep.
    + destruct (IH _ H) as (-> & -> & ->). by eapply add_document_rest.
    + by injection H as <- <-.
Qed.

Lemma add_documents_to_database_rest rt env submitted w out w' :
  add_documents_to_database rt env submitted w = (out, w') →
  case w' = case w ∧ calls w' = calls w ∧ steps w' = steps w.
Proof.
  unfold add_documents_to_database.
  destruct (as_dict _ _); [by apply for_each_stored_add_document|].
  by intros [= <- <-].
Qed.

(** What [create_kyc_case] does to the store: it leaves it as it was
    when the case is refused, and otherwise adds the row of a new case,
    also when the documents are refused after that. *)
Lemma create_kyc_case_store env c w out w' :
  create_kyc_case env c w = (out, w') →
  steps w' = steps w ∧ calls w' = calls w
  ∧ match out with
    | Ok _ => case w = None ∧ case w' = Some (new_case c)
    | Raise _ =>
        w' = w ∨ (case w = None ∧ case w' = Some (new_case c))
    end.
Proof.
  unfold create_kyc_case. intros H.
  destruct (bind_error env _); [injection H as <- <-; by auto|].
  destruct (is_none _); [injection H as <- <-; by auto|].
  destruct (is_none _); [injection H as <- <-; by auto|].
  destruct (case w) eqn:Hcase; [injection H as <- <-; by auto|].
  destruct (as_dict _ _); [|injection H as <- <-; by auto].
  cbv zeta in H. destruct (omap _ _); injection H as <- <-; by auto.
Qed.

Lemma get_or_create_case_store env c w out w' :
  get_or_create_case env c w = (out, w') →
  steps w' = steps w ∧ calls w' = calls w
  ∧ match out with
    | Ok _ =>
        (is_Some (case w) ∧ w' = w)
        ∨ (case w = None ∧ case w' = Some (new_case c))
    | Raise _ =>
        w' = w ∨ (case w = None ∧ case w' = Some (new_case c))
    end.
Proof.
  unfold get_or_create_case. intros H.
  assert (Hcreate : ∀ out w',
            create_kyc_case env c w = (out, w') →
            steps w' = steps w ∧ calls w' = calls w
            ∧ match out with
              | Ok _ =>
                  (is_Some (case w) ∧ w' = w)
                  ∨ (case w = None ∧ case w' = Some (new_case c))
              | Raise _ =>
                  w' = w ∨ (case w = None ∧ case w' = Some (new_case c))
              end).
  { intros out0 w0 H0.
    apply create_kyc_case_store in H0 as (? & ? & H0).
    split; [done|]. split; [done|]. destruct out0; by auto. }
  destruct (truthy _); [|by apply Hcreate].
  destruct (bind_error env _); [injection H as <- <-; by auto|].
  destruct (case w) eqn:Hcase; [|by apply Hcreate].
  injection H as <- <-. split; [done|]. split; [done|]. left. by split.
Qed.

Lemma get_or_create_case_is_Some env c w i w' :
  get_or_create_case env c w = (Ok i, w') → is_Some (case w').
Proof.
  intros H. apply get_or_create_case_store in H as (_ & _ & H).
  destruct H as [[Hsome ->] | [_ ->]]; [done | by eexists].
Qed.

Lemma final_status_of_nonempty v c : nonempty_str (final_status_of v c) = true.
Proof. unfold final_status_of. by repeat destruct (_ || _). Qed.

Lemma is_str_true v s : is_str v s = true ↔ v = VStr s.
Proof.
  destruct v; simpl; try (split; [discriminate | by intros [=]]).
  rewrite bool_decide_eq_true. split; [by intros -> | by intros [= ->]].
Qed.

(** Destruct what the head [match] of the hypothesis inspects. *)
Ltac step_body H :=
  match type of H with
  | (match ?x with _ => _ end) = _ =>
      let E := fresh "E" in destruct x eqn:E; try discriminate H
  | (let '(_, _) := ?x in _) = _ =>
      let E := fresh "E" in destruct x eqn:E; try discriminate H
  end.

Lemma update_case_status_status fs risk v c pep w :
  is_Some (case w) → nonempty_str fs = true →
  status <$> case (update_case_status fs risk v c pep w) = Some fs.
Proof.
  intros [row Hrow] Hfs. unfold update_case_status. simpl.
  rewrite Hrow. simpl. by rewrite Hfs.
Qed.

Lemma update_case_pep_is_Some w : is_Some (case w) → is_Some (case (update_case_pep w)).
Proof. intros [row Hrow]. unfold update_case_pep. simpl. rewrite Hrow. by eexists. Qed.

(** Destruct the two operations on the store that precede the stages:
    [Hcase] and [Hdocs] say what they returned. *)
Ltac store_ready H Hcase Hdocs :=
  let created := fresh "created" in
  let registered := fresh "registered" in
  let w1 := fresh "w" in
  let w2 := fresh "w" in
  match type of H with
  | context [get_or_create_case ?env ?c ?w] =>
      destruct (get_or_create_case env c w) as [created w1] eqn:Hcase;
      destruct created as [?|?]; cbv beta iota in H
  end;
  [match type of H with
   | context [add_documents_to_database ?rt ?env ?d ?w] =>
       destruct (add_documents_to_database rt env d w)
         as [registered w2] eqn:Hdocs;
       destruct registered as [?|?]; cbv beta iota in H
   end|].

(** What a completed body has done: the final status is the decision on
    the two statuses read from the responses of the validation and
    compliance stages, and the closing update wrote it to the case. *)
Lemma process_body_completed rt env customer_data w r w' :
  process_body rt env customer_data w = (Ok r, w') →
  final_status r
  = final_status_of (summary_validation_status r) (summary_compliance_status r)
  ∧ summary_validation_status r
    = extract_status_from_response (validation_response r) "validation_status"
  ∧ summary_compliance_status r
    = extract_status_from_response (compliance_response r) "compliance_status"
  ∧ returned_by rt env "document_validation" "document_validation"
                (validation_response r)
  ∧ returned_by rt env "compliance" "compliance_check" (compliance_response r)
  ∧ status <$> case w' = Some (final_status r).
Proof.
  unfold process_body, stage. intros H.
  step_body H. step_body H.
  store_ready H Hcase Hdocs; try discriminate H.
  apply get_or_create_case_is_Some in Hcase.
  apply add_documents_to_database_rest in Hdocs as (Hdocs & _).
  rewrite <- Hdocs in Hcase.
  repeat step_body H.
  injection H as <- <-.
  cbn [final_status summary_validation_status summary_compliance_status
       validation_response compliance_response].
  split; [reflexivity|]. split; [reflexivity|]. split; [reflexivity|].
  split; [unfold returned_by; eauto 10|].
  split; [unfold returned_by; eauto 10|].
  apply update_case_status_status; [|apply final_status_of_nonempty].
  repeat match goal with
         | E : invoke_bedrock_agent _ _ _ _ _ _ _ = _ |- _ =>
             apply invoke_bedrock_agent_case in E
         end.
  match goal with
  | E : match ?found with _ => _ end = (_, ?w4) |- _ =>
      assert (is_Some (case w4))
        by (destruct found; injection E as <- <-;
            [apply update_case_pep_is_Some|]; congruence)
  end.
  congruence.
Qed.

Lemma is_str_false_neq v s : is_str v s = false ↔ v ≠ VStr s.
Proof.
  rewrite <- is_str_true. destruct (is_str v s); split; congruence.
Qed.

(** C1 (as stated, refuted).  The two probes are not read alike.  A
    compliance status of [incomplete] and a validation status of
    [warning] each signal incompleteness or a warning, and a compliance
    status of [error] and a validation status of [violation] each
    signal an error or a violation; with the other status [unknown],
    each of the four runs ends [approved], in the answer and in the
    store. *)
Lemma final_status_counterexample :
  decision example_json
           (example_answering "{}" (json_entry "compliance_status" "incomplete"))
           example_submission empty_store
  = Some (VStr "unknown", VStr "incomplete", "approved", Some "approved")
  ∧ decision example_json
             (example_answering (json_entry "validation_status" "warning") "{}")
             example_submission empty_store
    = Some (VStr "warning", VStr "unknown", "approved", Some "approved")
  ∧ decision example_json
             (example_answering "{}" (json_entry "compliance_status" "error"))
             example_submission empty_store
    = Some (VStr "unknown", VStr "error", "approved", Some "approved")
  ∧ decision example_json
             (example_answering (json_entry "validation_status" "violation")
                                "{}")
             example_submission empty_store
    = Some (VStr "violation", VStr "unknown", "approved", Some "approved").
Proof. split; [|split; [|split]]; vm_compute; reflexivity. Qed.

(** C1 (amended).  For a run that reaches the decision, let [v] and [c]
    be the statuses read from the responses of the document-validation
    and compliance stages.  The status written to the case and returned
    is [pending] if [v] is [incomplete] or [c] is [warning]; otherwise
    [rejected] if [v] is [error] or [c] is [violation]; otherwise
    [approved].  No other value of a status changes the outcome: not a
    [warning] or a [violation] of the validation stage, nor an
    [incomplete] or an [error] of the compliance stage. *)
Theorem final_status_decision rt env customer_data w r w' :
  process_body rt env customer_data w = (Ok r, w') →
  let v :=
    extract_status_from_response (validation_response r) "validation_status" in
  let c :=
    extract_status_from_response (compliance_response r) "compliance_status" in
  status <$> case w' = Some (final_status r)
  ∧ (v = VStr "incomplete" ∨ c = VStr "warning" → final_status r = "pending")
  ∧ (¬ (v = VStr "incomplete" ∨ c = VStr "warning") →
     v = VStr "error" ∨ c = VStr "violation" →
     final_status r = "rejected")
  ∧ (¬ (v = VStr "incomplete" ∨ c = VStr "warning") →
     ¬ (v = VStr "error" ∨ c = VStr "violation") →
     final_status r = "approved").
Proof.
  intros H v c.
  destruct (process_body_completed _ _ _ _ _ _ H)
    as (Hfs & Hv & Hc & _ & _ & Hst).
  rewrite Hv, Hc in Hfs. fold v c in Hfs.
  split; [exact Hst|]. rewrite Hfs. unfold final_status_of.
  destruct (is_str v "incomplete") eqn:Hvi, (is_str c "warning") eqn:Hcw,
    (is_str v "error") eqn:Hve, (is_str c "violation") eqn:Hcv;
    rewrite ?is_str_true, ?is_str_false_neq in *; simpl;
    repeat split; intros; try reflexivity; tauto.
Qed.

Lemma final_status_decision_witness :
  (∃ r w',
     process_body example_json
       (example_answering (json_entry "validation_status" "incomplete") "{}")
       example_submission empty_store
     = (Ok r, w')
     ∧ final_status r = "pending"
     ∧ status <$> case w' = Some "pending")
  ∧ (∃ r w',
       process_body example_json
         (example_answering (json_entry "validation_status" "error") "{}")
         example_submission empty_store
       = (Ok r, w')
       ∧ final_status r = "rejected"
       ∧ status <$> case w' = Some "rejected").
Proof.
  split.
  - assert (Hdec :
        decision example_json
          (example_answering (json_entry "validation_status" "incomplete") "{}")
          example_submission empty_store
        = Some (VStr "incomplete", VStr "unknown", "pending", Some "pending"))
      by (vm_compute; reflexivity).
    unfold decision in Hdec.
    destruct (process_body example_json
                (example_answering (json_entry "validation_status" "incomplete")
                                   "{}")
                example_submission empty_store) as [[r|e] w'] eqn:Hrun;
      [|discriminate Hdec].
    injection Hdec as Hv Hc _ _.
    destruct (process_body_completed _ _ _ _ _ _ Hrun) as (_ & Hvr & Hcr & _).
    destruct (final_status_decision _ _ _ _ r w' Hrun) as (Hst & Hpending & _).
    exists r, w'. split; [reflexivity|]. clear Hrun.
    rewrite Hvr in Hv.
    assert (Hfs : final_status r = "pending")
      by (apply Hpending; left; exact Hv).
    split; [exact Hfs | rewrite Hst, Hfs; reflexivity].
  - assert (Hdec :
        decision example_json
          (example_answering (json_entry "validation_status" "error") "{}")
          example_submission empty_store
        = Some (VStr "error", VStr "unknown", "rejected", Some "rejected"))
      by (vm_compute; reflexivity).
    unfold decision in Hdec.
    destruct (process_body example_json
                (example_answering (json_entry "validation_status" "error")
                                   "{}")
                example_submission empty_store) as [[r|e] w'] eqn:Hrun;
      [|discriminate Hdec].
    injection Hdec as Hv Hc _ _.
    destruct (process_body_completed _ _ _ _ _ _ Hrun) as (_ & Hvr & Hcr & _).
    destruct (final_status_decision _ _ _ _ r w' Hrun)
      as (Hst & _ & Hrejected & _).
    exists r, w'. split; [reflexivity|]. clear Hrun.
    rewrite Hvr in Hv. rewrite Hcr in Hc.
    assert (Hfs : final_status r = "rejected").
    { apply Hrejected; [|left; exact Hv].
      intros [Hx | Hx]; [rewrite Hv in Hx | rewrite Hc in Hx];
        discriminate Hx. }
    split; [exact Hfs | rewrite Hst, Hfs; reflexivity].
Defined.







End PipelineFacts.

Module StrFacts.
Import Py Str Fuzzy StrSpec.

Lemma all_chars_rev_app Q s1 s2 :
  all_chars Q (String.rev_app s1 s2) = all_chars Q s1 && all_chars Q s2.
Proof.
  revert s2. induction s1 as [|a s1 IH]; intros s2; simpl; [done|].
  rewrite IH. unfold all_chars. simpl. destruct (Q a), (forallb Q _); simpl; try done.
Qed.

Lemma all_chars_rev Q s : all_chars Q (String.rev s) = all_chars Q s.
Proof. unfold String.rev. rewrite all_chars_rev_app. unfold all_chars at 2. simpl. apply andb_true_r. Qed.

Lemma all_chars_app Q s1 s2 :
  all_chars Q (s1 +:+ s2) = all_chars Q s1 && all_chars Q s2.
Proof.
  unfold all_chars. induction s1 as [|a s1 IH]; simpl; [done|].
  by rewrite IH, andb_assoc.
Qed.

Lemma rev_app_rev_app s1 s2 s3 :
  String.rev_app (String.rev_app s1 s2) s3
  = String.rev_app s2 (s1 +:+ s3).
Proof.
  revert s2 s3. induction s1 as [|a s1 IH]; intros s2 s3; simpl; [done|].
  by rewrite IH.
Qed.

Lemma rev_rev_app s : String.rev (String.rev_app s "") = s.
Proof.
  unfold String.rev. rewrite rev_app_rev_app.
  change (s +:+ "" = s).
  induction s as [|a s IH]; [done|].
  change (String a (s +:+ "") = String a s). by f_equal.
Qed.

(** Reading a word moves it onto the pending run. *)
Lemma split_go_app cur w rest :
  all_chars nospace w = true →
  split_go cur (w +:+ rest) = split_go (String.rev_app w cur) rest.
Proof.
  revert cur. induction w as [|c w IH]; intros cur Hw; simpl; [done|].
  unfold all_chars in Hw. simpl in Hw. apply andb_true_iff in Hw as [Hc Hw].
  unfold nospace in Hc. apply negb_true_iff in Hc. rewrite Hc. by apply IH.
Qed.

Lemma split_go_word cur w :
  all_chars nospace w = true →
  split_go cur w = split_go (String.rev_app w cur) "".
Proof.
  revert cur. induction w as [|c w IH]; intros cur Hw; [done|].
  unfold all_chars in Hw. simpl in Hw. apply andb_true_iff in Hw as [Hc Hw].
  unfold nospace in Hc. apply negb_true_iff in Hc.
  cbn [split_go String.rev_app]. rewrite Hc. by apply IH.
Qed.

Lemma rev_app_neq_empty s1 s2 : s1 ≠ "" → String.rev_app s1 s2 ≠ "".
Proof.
  destruct s1 as [|a s1]; [done|]. intros _. simpl.
  apply FuzzyFacts.rev_app_nonempty. done.
Qed.

(** [split] undoes [join] on words. *)
Lemma split_join words :
  Forall word words → split (join " " words) = words.
Proof.
  unfold split, join. induction 1 as [|w ws [Hne Hw] Hws IH]; [done|].
  destruct ws as [|w' ws].
  - cbn [String.concat]. rewrite split_go_word by done. cbn [split_go].
    destruct (String.rev_app w "") eqn:E.
    + by destruct (rev_app_neq_empty w "" Hne).
    + by rewrite <- E, rev_rev_app.
  - change (String.concat " " (w :: w' :: ws))
      with (w +:+ String " " (String.concat " " (w' :: ws))).
    rewrite split_go_app by done. cbn [split_go].
    change (isspace " ") with true. cbn iota.
    destruct (String.rev_app w "") eqn:E.
    + by destruct (rev_app_neq_empty w "" Hne).
    + rewrite <- E, rev_rev_app. f_equal. exact IH.
Qed.

(** The words [split] finds are words, made of characters of the
    string. *)
Lemma split_go_all Q cur s :
  all_chars (fun c => nospace c && Q c) cur = true →
  all_chars (fun c => isspace c || Q c) s = true →
  Forall (fun w => w ≠ "" ∧ all_chars (fun c => nospace c && Q c) w = true)
         (split_go cur s).
Proof.
  revert cur. induction s as [|c s IH]; intros cur Hcur Hs; simpl.
  - destruct cur as [|a cur]; [constructor|].
    repeat constructor; [by apply FuzzyFacts.rev_nonempty|].
    by rewrite all_chars_rev.
  - unfold all_chars in Hs. simpl in Hs. apply andb_true_iff in Hs as [Hc Hs].
    destruct (isspace c) eqn:Esp.
    + destruct cur as [|a cur]; [by apply IH|].
      constructor; [|by apply IH].
      split; [by apply FuzzyFacts.rev_nonempty | by rewrite all_chars_rev].
    + apply IH; [|done]. unfold all_chars. simpl.
      unfold nospace at 1. rewrite Esp. simpl in *. by rewrite Hc.
Qed.

Lemma all_chars_true s : all_chars (fun _ => true) s = true.
Proof. unfold all_chars. by induction s. Qed.

Lemma all_chars_impl (Q R : ascii → bool) s :
  (∀ c, Q c = true → R c = true) → all_chars Q s = true → all_chars R s = true.
Proof.
  unfold all_chars. intros HQR. induction s as [|a s IH]; simpl; [done|].
  rewrite !andb_true_iff. intros [? ?]. split; auto.
Qed.

Lemma split_words s : Forall word (split s).
Proof.
  unfold split.
  eapply Forall_impl; [apply (split_go_all (fun _ => true) "" s)|].
  - done.
  - eapply all_chars_impl; [|apply all_chars_true]. intros c _. apply orb_true_r.
  - intros w [Hne Hw]. split; [done|].
    eapply all_chars_impl; [|exact Hw]. intros c Hc.
    by apply andb_true_iff in Hc as [? _].
Qed.

(** Squeezing twice is squeezing once. *)
Lemma squeeze_squeeze s : squeeze (squeeze s) = squeeze s.
Proof. unfold squeeze. by rewrite split_join by apply split_words. Qed.

Lemma lower_char_idemp c : lower_char (lower_char c) = lower_char c.
Proof. by destruct c as [[] [] [] [] [] [] [] []]. Qed.

Lemma lower_lower s : lower (lower s) = lower s.
Proof. induction s as [|c s IH]; simpl; [done|]. by rewrite lower_char_idemp, IH. Qed.

Lemma lower_rev_app s1 s2 :
  lower (String.rev_app s1 s2) = String.rev_app (lower s1) (lower s2).
Proof.
  revert s2. induction s1 as [|a s1 IH]; intros s2; simpl; [done|].
  by rewrite IH.
Qed.

Lemma lower_rev s : lower (String.rev s) = String.rev (lower s).
Proof. apply lower_rev_app. Qed.

Lemma split_go_lower cur s :
  split_go (lower cur) (lower s) = lower <$> split_go cur s.
Proof.
  revert cur. induction s as [|c s IH]; intros cur; simpl.
  - destruct cur as [|a cur]; [done|].
    cbn -[String.rev lower]. by rewrite lower_rev.
  - rewrite FuzzyFacts.isspace_lower_char. destruct (isspace c).
    + destruct cur as [|a cur].
      * apply (IH "").
      * cbn -[String.rev lower]. rewrite lower_rev. f_equal. apply (IH "").
    + apply (IH (String c cur)).
Qed.

Lemma lower_app s1 s2 : lower (s1 +:+ s2) = lower s1 +:+ lower s2.
Proof. induction s1 as [|a s1 IH]; simpl; [done|]. by rewrite IH. Qed.

Lemma lower_join words : lower (join " " words) = join " " (lower <$> words).
Proof.
  unfold join. induction words as [|w [|w' ws] IH]; [done..|].
  change (String.concat " " (w :: w' :: ws))
    with (w +:+ String " " (String.concat " " (w' :: ws))).
  rewrite lower_app. cbn [lower]. rewrite IH. reflexivity.
Qed.

(** Lower-casing commutes with squeezing. *)
Lemma lower_squeeze s : lower (squeeze s) = squeeze (lower s).
Proof.
  unfold squeeze, split. rewrite lower_join. f_equal.
  symmetry. apply (split_go_lower "" s).
Qed.

(** The normal form of a normal form is itself. *)
Lemma normal_form_idemp s :
  squeeze (lower (squeeze (lower s))) = squeeze (lower s).
Proof. by rewrite lower_squeeze, lower_lower, squeeze_squeeze. Qed.

End StrFacts.

Module MatchingFacts.
Import Py Str Fuzzy StrSpec StrFacts.

Lemma word_similarity_sym str1 str2 :
  _word_similarity str1 str2 = _word_similarity str2 str1.
Proof.
  unfold _word_similarity. cbv zeta.
  generalize (list_to_set (split str1) : gset string).
  generalize (list_to_set (split str2) : gset string). intros Y X.
  rewrite (comm_L (∩) X Y), (comm_L (∪) X Y).
  by destruct (bool_decide (size X = 0%nat)), (bool_decide (size Y = 0%nat)).
Qed.

Lemma char_similarity_sym str1 str2 :
  _char_similarity str1 str2 = _char_similarity str2 str1.
Proof.
  unfold _char_similarity. cbv zeta.
  generalize (list_to_set (list_ascii_of_string (remove_char " " str1)) : gset ascii).
  generalize (list_to_set (list_ascii_of_string (remove_char " " str2)) : gset ascii).
  intros Y X.
  rewrite (comm_L (∩) X Y), (comm_L (∪) X Y).
  destruct (String.length str1 =? 0)%nat, (String.length str2 =? 0)%nat; try done.
  by destruct (bool_decide (size X = 0%nat)), (bool_decide (size Y = 0%nat)).
Qed.

Lemma abbreviation_similarity_sym str1 str2 :
  _abbreviation_similarity str1 str2 = _abbreviation_similarity str2 str1.
Proof.
  unfold _abbreviation_similarity.
  by destruct (split str1) as [|a [|b l1]], (split str2) as [|c [|d l2]].
Qed.

Lemma fuzzy_match_general_sym str1 str2 threshold :
  _fuzzy_match_general str1 str2 threshold
  = _fuzzy_match_general str2 str1 threshold.
Proof.
  unfold _fuzzy_match_general.
  by rewrite (word_similarity_sym str1), (char_similarity_sym str1),
    (abbreviation_similarity_sym str1).
Qed.

Lemma any_variation_true table words1 words2 :
  any_variation table words1 words2 = true
  ↔ ∃ word1 word2, In word1 words1 ∧ In word2 words2
      ∧ (variant_of table word1 word2 = true
         ∨ variant_of table word2 word1 = true).
Proof.
  unfold any_variation. rewrite existsb_exists. split.
  - intros (word1 & H1 & H). apply existsb_exists in H as (word2 & H2 & H).
    apply orb_true_iff in H. eauto 6.
  - intros (word1 & word2 & H1 & H2 & H). exists word1. split; [done|].
    apply existsb_exists. exists word2. split; [done|]. by apply orb_true_iff.
Qed.

Lemma any_variation_sym table words1 words2 :
  any_variation table words1 words2 = any_variation table words2 words1.
Proof.
  apply eq_true_iff_eq. rewrite !any_variation_true.
  split; intros (a & b & ? & ? & ?); exists b, a; tauto.
Qed.

Lemma check_name_variations_sym name1 name2 :
  _check_name_variations name1 name2 = _check_name_variations name2 name1.
Proof.
  unfold _check_name_variations. cbv zeta.
  by rewrite (any_variation_sym nicknames), (any_variation_sym common_variations).
Qed.

Lemma exact_matches_sym words1 words2 :
  exact_matches words1 words2 = exact_matches words2 words1.
Proof.
  revert words2. induction words1 as [|a l1 IH]; intros [|b l2]; simpl; try done.
  rewrite IH. by repeat case_bool_decide.
Qed.

Lemma fuzzy_match_name_sym str1 str2 threshold :
  _fuzzy_match_name str1 str2 threshold = _fuzzy_match_name str2 str1 threshold.
Proof.
  unfold _fuzzy_match_name. cbv zeta.
  rewrite (fuzzy_match_general_sym str1), (word_similarity_sym str1),
    (char_similarity_sym str1), (check_name_variations_sym str1),
    (exact_matches_sym (split str1)).
  rewrite (andb_comm (length (split str1) =? 1)%nat).
  destruct (_ && _); [done|].
  destruct (Nat.eqb_spec (length (split str1)) (length (split str2))) as [->|Hne].
  - by rewrite Nat.eqb_refl.
  - apply not_eq_sym, Nat.eqb_neq in Hne. by rewrite Hne.
Qed.

Lemma check_partial_address_match_sym addr1 addr2 :
  _check_partial_address_match addr1 addr2
  = _check_partial_address_match addr2 addr1.
Proof.
  unfold _check_partial_address_match. cbv zeta.
  replace (Z.abs (Z.of_nat (length (split addr2))
                  - Z.of_nat (length (split addr1))))
    with (Z.abs (Z.of_nat (length (split addr1))
                 - Z.of_nat (length (split addr2)))) by lia.
  destruct (3 <? _); [done|].
  destruct (first_number (split addr1)) as [number1|],
    (first_number (split addr2)) as [number2|]; try done.
  repeat case_bool_decide; try congruence. subst.
  by rewrite word_similarity_sym.
Qed.

Lemma fuzzy_match_address_sym str1 str2 threshold :
  _fuzzy_match_address str1 str2 threshold
  = _fuzzy_match_address str2 str1 threshold.
Proof.
  unfold _fuzzy_match_address. cbv zeta.
  rewrite (word_similarity_sym (_clean_address str1)),
    (char_similarity_sym (_clean_address str1)),
    (check_partial_address_match_sym (_clean_address str1)).
  by repeat case_bool_decide.
Qed.

(** X1.  The order of the two compared strings does not matter: for every
    match type and threshold, [_fuzzy_match] gives the same answer with
    its two strings exchanged. *)
Theorem fuzzy_match_symmetric str1 str2 threshold match_type :
  _fuzzy_match str1 str2 threshold match_type
  = _fuzzy_match str2 str1 threshold match_type.
Proof.
  unfold _fuzzy_match. cbv zeta.
  rewrite (orb_comm (bool_decide (str1 = ""))).
  destruct (_ || _); [done|].
  rewrite (fuzzy_match_name_sym (squeeze (lower str1))),
    (fuzzy_match_address_sym (squeeze (lower str1))),
    (fuzzy_match_general_sym (squeeze (lower str1))).
  case_bool_decide as H1; [by rewrite bool_decide_eq_true_2|].
  rewrite (bool_decide_eq_false_2 (squeeze (lower str2) = squeeze (lower str1)))
    by congruence.
  case_bool_decide as H2; [by rewrite bool_decide_eq_true_2|].
  by rewrite (bool_decide_eq_false_2
                (_normalize_string (squeeze (lower str2))
                 = _normalize_string (squeeze (lower str1)))) by congruence.
Qed.

Lemma lower_empty s : lower s = "" ↔ s = "".
Proof. by destruct s. Qed.

(** X2.  Letter case never matters: lower-casing both strings beforehand
    leaves the answer of [_fuzzy_match] unchanged. *)
Theorem fuzzy_match_ignores_case str1 str2 threshold match_type :
  _fuzzy_match (lower str1) (lower str2) threshold match_type
  = _fuzzy_match str1 str2 threshold match_type.
Proof.
  unfold _fuzzy_match. rewrite !lower_lower.
  by rewrite (bool_decide_ext _ _ (lower_empty str1)),
    (bool_decide_ext _ _ (lower_empty str2)).
Qed.

Lemma not_blank_nonempty s :
  forallb isspace (list_ascii_of_string s) = false → s ≠ "".
Proof. by intros H ->. Qed.

(** X3.  For strings that have a character other than whitespace, the answer
    depends on the normal forms only: comparing the normal forms gives
    what comparing the strings gives, so runs of whitespace and leading
    or trailing whitespace never matter. *)
Theorem fuzzy_match_of_normal_forms str1 str2 threshold match_type :
  forallb isspace (list_ascii_of_string str1) = false →
  forallb isspace (list_ascii_of_string str2) = false →
  _fuzzy_match (squeeze (lower str1)) (squeeze (lower str2)) threshold match_type
  = _fuzzy_match str1 str2 threshold match_type.
Proof.
  intros H1 H2. unfold _fuzzy_match. rewrite !normal_form_idemp.
  rewrite (bool_decide_eq_false_2 (str1 = "")) by by apply not_blank_nonempty.
  rewrite (bool_decide_eq_false_2 (str2 = "")) by by apply not_blank_nonempty.
  rewrite (bool_decide_eq_false_2 (squeeze (lower str1) = ""))
    by (rewrite FuzzyFacts.normal_form_empty, H1; discriminate).
  by rewrite (bool_decide_eq_false_2 (squeeze (lower str2) = ""))
    by (rewrite FuzzyFacts.normal_form_empty, H2; discriminate).
Qed.

Lemma fuzzy_match_of_normal_forms_witness :
  _fuzzy_match (squeeze (lower "  Main   St ")) (squeeze (lower "MAIN street"))
               0.8 "address"
  = _fuzzy_match "  Main   St " "MAIN street" 0.8 "address".
Proof. apply fuzzy_match_of_normal_forms; reflexivity. Defined.

End MatchingFacts.

Module AddressFacts.
Import Py Str Fuzzy StrSpec StrFacts.

Lemma sub_outside_all keep s :
  keep " "%char = true → all_chars keep (sub_outside keep s) = true.
Proof.
  intros Hsp. unfold all_chars. induction s as [|a s IH]; simpl; [done|].
  rewrite IH, andb_true_r. by destruct (keep a) eqn:E.
Qed.

Lemma sub_outside_id keep s :
  all_chars keep s = true → sub_outside keep s = s.
Proof.
  unfold all_chars. induction s as [|a s IH]; simpl; [done|].
  intros [Ha Hs]%andb_true_iff. by rewrite Ha, IH.
Qed.

Lemma all_chars_join Q words :
  Q " "%char = true → Forall (fun w => all_chars Q w = true) words →
  all_chars Q (join " " words) = true.
Proof.
  intros Hsp. unfold join. induction 1 as [|w ws Hw Hws IH]; [done|].
  destruct ws as [|w' ws]; [done|].
  change (String.concat " " (w :: w' :: ws))
    with (w +:+ String " " (String.concat " " (w' :: ws))).
  rewrite all_chars_app, Hw. cbn [andb].
  change (Q " "%char && all_chars Q (String.concat " " (w' :: ws)) = true).
  by rewrite Hsp, IH.
Qed.

(** The words of an address after punctuation has been replaced. *)
Lemma split_sub_outside address :
  Forall (fun w => w ≠ "" ∧ all_chars (fun c => nospace c && isword c) w = true)
         (split (sub_outside kept address)).
Proof.
  apply (split_go_all isword "" (sub_outside kept address)); [done|].
  eapply all_chars_impl; [|apply (sub_outside_all kept); done].
  intros c. unfold kept. by rewrite orb_comm.
Qed.

Lemma filter_Forall_id {A} (P : A → Prop) `{∀ x, Decision (P x)} (l : list A) :
  Forall P l → filter P l = l.
Proof.
  induction 1 as [|x l Hx Hl IH]; [done|].
  rewrite filter_cons_True by done. by rewrite IH.
Qed.

Lemma clean_address_words address :
  _clean_address address
  = join " " (filter (fun w => lower w ∉ common_words)
                     (split (sub_outside kept address))).
Proof.
  unfold _clean_address. cbv zeta. fold kept.
  rewrite split_join; [done|]. apply split_words.
Qed.

Lemma kept_words_are_words (words : list string) :
  Forall (fun w => w ≠ "" ∧ all_chars (fun c => nospace c && isword c) w = true)
         words →
  Forall word words.
Proof.
  intros Hall. eapply Forall_impl; [exact Hall|].
  intros w [Hne Hw]. split; [done|].
  eapply all_chars_impl; [|exact Hw]. by intros c [? _]%andb_true_iff.
Qed.

(** X4.  A cleaned address is in normal form: its words are made of word
    characters only, none of them is a street-type word, single spaces
    separate them, and cleaning it again changes nothing. *)
Theorem clean_address_normal_form address :
  let cleaned := _clean_address address in
  Forall (fun w => all_chars isword w = true ∧ lower w ∉ common_words)
         (split cleaned)
  ∧ join " " (split cleaned) = cleaned
  ∧ _clean_address cleaned = cleaned.
Proof.
  cbv zeta. rewrite (clean_address_words address).
  pose proof (split_sub_outside address) as Hall.
  set (words := split (sub_outside kept address)) in *.
  set (filtered := filter (fun w => lower w ∉ common_words) words).
  assert (Hsub : Forall (fun w => w ≠ "" ∧ all_chars (fun c => nospace c && isword c) w = true)
                        filtered).
  { apply Forall_forall. intros w [_ Hw]%list_elem_of_filter.
    by eapply Forall_forall in Hall. }
  assert (Hsplit : split (join " " filtered) = filtered).
  { apply split_join. by apply kept_words_are_words. }
  assert (Hkeep : all_chars kept (join " " filtered) = true).
  { apply all_chars_join; [done|].
    eapply Forall_impl; [exact Hsub|]. intros w [_ Hw].
    eapply all_chars_impl; [|exact Hw].
    intros c [_ Hc]%andb_true_iff. unfold kept. by rewrite Hc. }
  rewrite Hsplit. split; [|split; [done|]].
  - apply Forall_forall. intros w Hw. split.
    + eapply Forall_forall in Hsub as [_ Hc]; [|exact Hw].
      eapply all_chars_impl; [|exact Hc]. by intros c [_ ?]%andb_true_iff.
    + by apply list_elem_of_filter in Hw as [? _].
  - rewrite clean_address_words, sub_outside_id, Hsplit by done.
    f_equal. apply filter_Forall_id.
    apply Forall_forall. by intros w [? _]%list_elem_of_filter.
Qed.

End AddressFacts.

Module ValidationFacts.
Import Py Str Lib Fuzzy Rules ValidationSpec.







Lemma well_reported_skip table entry ds :
  well_reported table ds → well_reported (table ++ [entry]) ds.
Proof. intros [Hall Hsub]. split; [done|]. by apply sublist_inserts_r. Qed.

Lemma well_reported_snoc table field document_value user_value sev ds :
  truthy document_value && truthy user_value = true →
  well_reported table ds →
  well_reported (table ++ [(field, sev)])
                (ds ++ [Mismatch field document_value user_value sev]).
Proof.
  intros Hboth [Hall Hsub]. split.
  - apply Forall_app. split; [done|]. by repeat constructor.
  - rewrite omap_app. by apply sublist_app.
Qed.

Lemma check_text_reported table field doc user threshold match_type sev ds :
  well_reported table ds →
  well_reported (table ++ [(field, sev)])
                (check_text field doc user threshold match_type sev ds).
Proof.
  intros Hds. unfold check_text.
  destruct (nonempty_str doc && nonempty_str user) eqn:Hboth;
    [|by apply well_reported_skip].
  destruct (negb _); [|by apply well_reported_skip].
  by apply well_reported_snoc.
Qed.

Lemma well_reported_nil : well_reported [] [].
Proof. split; [constructor | done]. Qed.

(** Read the discrepancies off the closing block of a validator. *)
Ltac closing_block H :=
  match type of H with
  | Ok (match ?ds with _ => _ end) = Ok ?r =>
      let E := fresh "E" in
      assert (E : discrepancies r = ds)
        by (destruct ds; by injection H as <-);
      rewrite E; clear E H
  end.

Lemma validate_address_proof_reported e u r :
  _validate_address_proof e u = Ok r →
  well_reported (checks "address_proof") (discrepancies r).
Proof.
  unfold _validate_address_proof. intros H. RulesFacts.invert_binds.
  closing_block H.
  apply (check_text_reported [("address", high)]).
  apply (check_text_reported []), well_reported_nil.
Qed.

Lemma validate_employment_proof_reported e u r :
  _validate_employment_proof e u = Ok r →
  well_reported (checks "employment_proof") (discrepancies r).
Proof.
  unfold _validate_employment_proof. intros H. RulesFacts.invert_binds.
  closing_block H.
  apply (check_text_reported [("employer", medium); ("employee_name", high)]).
  apply (check_text_reported [("employer", medium)]).
  apply (check_text_reported []), well_reported_nil.
Qed.

Lemma validate_id_proof_reported rt e u r :
  _validate_id_proof rt e u = Ok r →
  well_reported (checks "id_proof") (discrepancies r).
Proof.
  unfold _validate_id_proof. intros H. RulesFacts.invert_binds.
  closing_block H.
  apply (check_text_reported
           [("first_name", medium); ("last_name", medium);
            ("date_of_birth", high)]).
  match goal with
  | |- context [check_text "last_name" ?doc ?user ?t ?m ?sev ?ds] =>
      assert (Hnames :
        well_reported [("first_name", medium); ("last_name", medium)]
                      (check_text "last_name" doc user t m sev ds))
        by (apply (check_text_reported [("first_name", medium)]);
            apply (check_text_reported []), well_reported_nil);
      generalize dependent (check_text "last_name" doc user t m sev ds)
  end.
  intros names Hnames.
  destruct (truthy _ && truthy _) eqn:Hboth;
    [|by apply (well_reported_skip [_; _])].
  destruct (negb _); [|by apply (well_reported_skip [_; _])].
  by apply (well_reported_snoc [_; _]).
Qed.

(** X6.  What the rule-based validator reports.  Unless it returns the error
    result, every discrepancy is a field record whose document value and
    user value are both non-empty, and the records are those of some of
    the validator's comparisons, each at most once, in the order of the
    comparisons and with the severity fixed for the field. *)
Theorem rule_based_discrepancies rt extracted_data user_data document_type :
  let r := _validate_with_rules rt extracted_data user_data document_type in
  discrepancies r = [Message "Validation error occurred"]
  ∨ well_reported (checks document_type) (discrepancies r).
Proof.
  cbv zeta. unfold _validate_with_rules, checks.
  repeat case_bool_decide; subst.
  - destruct (_validate_id_proof _ _ _) as [r|e] eqn:Hr; [right | by left].
    by eapply validate_id_proof_reported.
  - destruct (_validate_address_proof _ _) as [r|e] eqn:Hr; [right | by left].
    by eapply validate_address_proof_reported.
  - destruct (_validate_employment_proof _ _) as [r|e] eqn:Hr; [right | by left].
    by eapply validate_employment_proof_reported.
  - right. apply well_reported_nil.
Qed.

End ValidationFacts.

Module ScoringFacts.
Import Py Str Lib Main MainSpec RiskSpec.
Import RulesFacts.

Lemma income_points_cases customer_data :
  if comparable_income (get customer_data "annual_income")
  then ∃ n, income_points customer_data = Ok n ∧ 0 ≤ n
  else ∃ e, income_points customer_data = Raise e.
Proof.
  unfold income_points.
  destruct (get customer_data "annual_income") as [|b|n|f|s|l|d]; simpl;
    try (by eauto);
    repeat match goal with
           | |- context [if ?c then _ else _] => destruct c
           end; eexists; (split; [reflexivity | lia]).
Qed.

Lemma position_points_cases customer_data :
  if negb (truthy (get customer_data "position"))
     || is_text (get customer_data "position")
  then ∃ n, position_points customer_data = Ok n ∧ 0 ≤ n
  else ∃ e, position_points customer_data = Raise e.
Proof.
  unfold position_points, get, get_default.
  destruct (customer_data !! "position") as [v|]; [|simpl; eexists; split; [done | lia]].
  destruct (truthy v) eqn:Hv; cbn [negb orb].
  - destruct v; simpl; try (by eauto).
    destruct (contains _ _); eexists; (split; [reflexivity | lia]).
  - eexists. split; [reflexivity | lia].
Qed.

Lemma count_missing_cases docs documents :
  if container documents
  then ∃ n, count_missing docs documents = Ok n ∧ 0 ≤ n ≤ Z.of_nat (length docs)
  else docs = [] ∨ ∃ e, count_missing docs documents = Raise e.
Proof.
  destruct (container documents) eqn:Hc.
  - induction docs as [|doc rest (n & IH & Hn)]; [exists 0; split; [done | simpl; lia]|].
    cbn [count_missing]. rewrite IH.
    destruct documents; try discriminate; cbn [py_in bind];
      match goal with
      | |- context [if ?c then _ else _] => destruct c
      end; eexists; (split; [reflexivity | simpl length; lia]).
  - destruct docs as [|doc rest]; [by left | right].
    destruct documents; try discriminate; simpl; eauto.
Qed.

(** X7.  [calculate_estimated_risk] returns a band exactly for the records
    whose income is [None] or a number, whose position is empty or a
    string, and whose documents are a dict, a list or a string; for every
    other record it raises. *)
Theorem risk_scorer_outcome customer_data :
  if scorable customer_data
  then ∃ b, calculate_estimated_risk customer_data = Ok b
  else ∃ e, calculate_estimated_risk customer_data = Raise e.
Proof.
  rewrite RiskFacts.calculate_estimated_risk_score.
  unfold scorable, risk_score.
  pose proof (income_points_cases customer_data) as Hinc.
  pose proof (position_points_cases customer_data) as Hpos.
  pose proof (count_missing_cases required_docs
                (get_default customer_data "documents" (VDict ∅))) as Hdoc.
  destruct (comparable_income _); [destruct Hinc as (i & -> & _)
                                  |destruct Hinc as [e ->]; by exists e].
  cbn [bind andb].
  destruct (negb _ || _); [destruct Hpos as (p & -> & _)
                          |destruct Hpos as [e ->]; by exists e].
  cbn [bind andb].
  destruct (container _); [destruct Hdoc as (m & -> & _)
                          |destruct Hdoc as [? | [e ->]]; [done | by exists e]].
  cbn [bind]. eauto.
Qed.

(** X8.  Two floors of the estimated risk.  A customer whose [pep_status] is
    set is rated High, whatever else the record holds; a customer who
    attached no document is never rated Low. *)
Theorem risk_band_floors customer_data b :
  calculate_estimated_risk customer_data = Ok b →
  (truthy (get customer_data "pep_status") = true → b = High)
  ∧ (get_default customer_data "documents" (VDict ∅) = VDict ∅ →
     band_le Medium b).
Proof.
  rewrite RiskFacts.calculate_estimated_risk_score. intros H.
  apply bind_Ok in H as (score & Hscore & [= <-]).
  unfold risk_score in Hscore.
  pose proof (income_points_cases customer_data) as Hinc.
  pose proof (position_points_cases customer_data) as Hpos.
  pose proof (count_missing_cases required_docs
                (get_default customer_data "documents" (VDict ∅))) as Hdoc.
  apply bind_Ok in Hscore as (i & Hi & Hscore).
  apply bind_Ok in Hscore as (p & Hp & Hscore).
  apply bind_Ok in Hscore as (m & Hm & [= <-]).
  rewrite Hi in Hinc. rewrite Hp in Hpos. rewrite Hm in Hdoc.
  assert (0 ≤ i) as Hi0.
  { destruct (comparable_income _); [|by destruct Hinc].
    destruct Hinc as (? & [= <-] & ?). done. }
  assert (0 ≤ p) as Hp0.
  { destruct (negb _ || _); [|by destruct Hpos].
    destruct Hpos as (? & [= <-] & ?). done. }
  assert (0 ≤ m) as Hm0.
  { destruct (container _); [|by destruct Hdoc as [? | [? ?]]].
    destruct Hdoc as (? & [= <-] & ?). lia. }
  split.
  - intros ->. unfold band_of_score.
    destruct (truthy (get customer_data "business_name"));
      by rewrite (proj2 (Z.leb_le _ _)) by lia.
  - intros Hnone. rewrite Hnone in Hm. vm_compute in Hm. injection Hm as <-.
    unfold band_le, band_of_score.
    destruct (truthy (get customer_data "pep_status")),
      (truthy (get customer_data "business_name"));
      repeat match goal with
             | |- context [?x <=? ?y] => destruct (Z.leb_spec x y)
             end; simpl; lia.
Qed.

Lemma risk_band_floors_witness :
  calculate_estimated_risk example_pep = Ok High
  ∧ band_le Medium High.
Proof.
  assert (H : calculate_estimated_risk example_pep = Ok High)
    by (vm_compute; reflexivity).
  split; [exact H|].
  exact (proj2 (risk_band_floors example_pep High H) ltac:(vm_compute; reflexivity)).
Defined.

End ScoringFacts.

Module ResponseFacts.
Import Py Str Lib Main.

Lemma prefix_app a b : String.prefix a (a +:+ b) = true.
Proof.
  induction a as [|c a IH]; [by destruct b|].
  change (String.prefix (String c a) (String c (a +:+ b)) = true).
  cbn [String.prefix]. by destruct (ascii_dec c c).
Qed.

Lemma prefix_split a s :
  String.prefix a s = true → ∃ rest, s = a +:+ rest.
Proof.
  revert s. induction a as [|c a IH]; intros s H; [by exists s|].
  destruct s as [|c' s]; [discriminate|]. cbn [String.prefix] in H.
  destruct (ascii_dec c c') as [<-|]; [|discriminate].
  destruct (IH s H) as [rest ->]. by exists rest.
Qed.

Lemma contains_skip needle a s :
  contains needle s = true → contains needle (a +:+ s) = true.
Proof.
  intros H. induction a as [|c a IH]; [done|].
  change (contains needle (String c (a +:+ s)) = true).
  cbn [contains]. rewrite IH. apply orb_true_r.
Qed.

Lemma contains_start needle rest : contains needle (needle +:+ rest) = true.
Proof.
  destruct needle as [|c needle]; [by destruct rest|].
  change (contains (String c needle) (String c (needle +:+ rest)) = true).
  cbn [contains].
  change (String c (needle +:+ rest)) with (String c needle +:+ rest).
  by rewrite prefix_app.
Qed.

Lemma append_assoc a b c : (a +:+ b) +:+ c = a +:+ (b +:+ c).
Proof.
  induction a as [|x a IH]; [done|].
  change (String x ((a +:+ b) +:+ c) = String x (a +:+ (b +:+ c))).
  by rewrite IH.
Qed.

(** A text that contains [a ++ b] contains [b]. *)
Lemma contains_suffix a b s :
  contains (a +:+ b) s = true → contains b s = true.
Proof.
  induction s as [|c s IH]; intros H.
  - cbn [contains] in H. rewrite orb_false_r in H.
    apply prefix_split in H as [rest H].
    destruct a; [|discriminate]. destruct b; [done | discriminate].
  - cbn [contains] in H. apply orb_true_iff in H as [H | H].
    + apply prefix_split in H as [rest E]. rewrite E, append_assoc.
      apply (contains_skip b a (b +:+ rest)), contains_start.
    + cbn [contains]. rewrite (IH H). apply orb_true_r.
Qed.

(** X9.  Reading a status off a text response.  The word [complete] is
    looked for before [incomplete], which contains it: a text that says
    [incomplete] is read as [complete], and the answer [incomplete] is
    given only to a text that says [pending] and neither [complete] nor
    [success]. *)
Theorem text_status_reading text status_key :
  let lowered := lower text in
  let status := extract_status_from_response (VStr text) status_key in
  (contains "incomplete" lowered = true → status = VStr "complete")
  ∧ (status = VStr "incomplete"
     ↔ contains "complete" lowered = false
       ∧ contains "success" lowered = false
       ∧ contains "pending" lowered = true).
Proof.
  cbv zeta. unfold extract_status_from_response.
  pose proof (contains_suffix "in" "complete" (lower text)) as Hin.
  change ("in" +:+ "complete") with "incomplete" in Hin.
  destruct (contains "incomplete" (lower text)).
  - rewrite Hin by done. cbn [orb]. split; [done|]. split; [discriminate|].
    by intros [? _].
  - clear Hin. split; [discriminate|].
    destruct (contains "complete" (lower text)),
      (contains "success" (lower text)),
      (contains "pending" (lower text));
      cbn [orb];
      try (split; [discriminate | by intros (? & ? & ?)]);
      try (split; [done | done]).
    destruct (contains "error" (lower text) || contains "failed" (lower text));
      (split; [discriminate | by intros (? & ? & ?)]).
Qed.

Lemma text_status_reading_witness :
  extract_status_from_response (VStr "Documents INCOMPLETE: address proof missing")
                               "validation_status"
  = VStr "complete".
Proof.
  apply (proj1 (text_status_reading
                  "Documents INCOMPLETE: address proof missing"
                  "validation_status")).
  vm_compute. reflexivity.
Defined.

End ResponseFacts.

Module AgentFacts.
Import Py Str Lib Main PipelineSpec AgentSpec.

Lemma alter_last {A} (f : A → A) (l : list A) (x : A) :
  alter f (length l) (l ++ [x]) = l ++ [f x].
Proof. induction l as [|y l IH]; [done|]. simpl. f_equal. exact IH. Qed.

(** The step an invocation has added is finished by its update. *)
Lemma update_added_step name agent_id agent_type new_status response error
    before w1 :
  new_status = "success" ∨ new_status = "error" →
  steps w1 = before ++ [pending_row name agent_id agent_type] →
  one_step_more name agent_type before
    (steps (update_processing_step (Some (length before)) new_status
                                   response error w1)).
Proof.
  intros Hst Hsteps. unfold update_processing_step. cbn [steps].
  rewrite Hsteps, alter_last. right. eexists. split; [reflexivity|].
  cbn [step_name step_agent_type step_ended step_status pending_row].
  repeat split. by destruct Hst as [-> | ->]; [left | right].
Qed.

Lemma update_processing_step_rest step new_status response error w :
  let w' := update_processing_step step new_status response error w in
  case w' = case w ∧ documents w' = documents w ∧ calls w' = calls w.
Proof. by destruct step. Qed.

(** The second attempt: at most one more call, and the step given to it
    is updated to a success or an error. *)
Lemma try_simple_input_format_store env agent_id input step w :
  let w' := (try_simple_input_format env agent_id input step w).2 in
  case w' = case w ∧ documents w' = documents w
  ∧ (calls w ≤ calls w' ≤ calls w + 1)%nat
  ∧ ∃ new_status response error w1,
      (new_status = "success" ∨ new_status = "error")
      ∧ steps w1 = steps w
      ∧ steps w' = steps (update_processing_step step new_status response
                                                  error w1).
Proof.
  cbv zeta. unfold try_simple_input_format, call_agent.
  destruct (bind _ _) as [docs|e]; cbn [snd].
  - destruct (invoke_agent env (calls w)) as [message|body];
      [|destruct (nonempty_str (strip body))]; cbn [snd];
      (split; [by destruct step|]); (split; [by destruct step|]);
      (split; [destruct step; simpl; lia|]);
      eexists _, _, _, _; (split; [|split; [|reflexivity]]); auto.
  - (split; [by destruct step|]); (split; [by destruct step|]);
      (split; [destruct step; simpl; lia|]);
      eexists _, _, _, _; (split; [|split; [|reflexivity]]); auto.
Qed.

Lemma invoke_store rt env agent_id input name agent_type w :
  let resp := (invoke_bedrock_agent rt env agent_id input name agent_type w).1 in
  let w' := (invoke_bedrock_agent rt env agent_id input name agent_type w).2 in
  case w' = case w ∧ documents w' = documents w
  ∧ (calls w ≤ calls w' ≤ calls w + 2)%nat
  ∧ one_step_more name agent_type (steps w) (steps w')
  ∧ (agent_id = None ∨ agent_id = Some "" →
     resp = not_configured ∧ w' = w).
Proof.
  cbv zeta. unfold invoke_bedrock_agent.
  destruct agent_id as [[|c aid]|];
    try (cbn [fst snd]; repeat split; try lia; by left).
  set (agent_id := String c aid).
  assert (Hconf : ¬ (Some agent_id = None ∨ Some agent_id = Some "")).
  { by intros [? | ?]. }
  destruct (negb (case_id env =? 0) && nonempty_str name
            && nonempty_str agent_type).
  - (* a step is recorded *)
    unfold add_processing_step, call_agent. cbn [fst snd case steps documents calls].
    fold (pending_row name agent_id agent_type).
    destruct (invoke_agent env (calls w)) as [message|body].
    + cbn [fst snd]. split; [done|]. split; [done|]. split; [simpl; lia|].
      split; [|done]. by apply (update_added_step _ agent_id); [right|].
    + destruct (negb (nonempty_str (strip body))).
      * match goal with
        | |- context [try_simple_input_format env agent_id input ?st ?w1] =>
            destruct (try_simple_input_format_store env agent_id input st w1)
              as (Hc & Hd & Hk & st' & r & e & w2 & Hst & Hw2 & Hsteps)
        end.
        cbn [case steps documents calls] in *.
        split; [done|]. split; [done|]. split; [lia|]. split; [|done].
        rewrite Hsteps. by apply (update_added_step _ agent_id).
      * cbn [fst snd]. split; [done|]. split; [done|]. split; [simpl; lia|].
        split; [|done]. by apply (update_added_step _ agent_id); [left|].
  - (* no step is recorded *)
    unfold call_agent. cbn [fst snd case steps documents calls].
    destruct (invoke_agent env (calls w)) as [message|body].
    + cbn. repeat split; try lia; try done. by left.
    + destruct (negb (nonempty_str (strip body))).
      * match goal with
        | |- context [try_simple_input_format env agent_id input ?st ?w1] =>
            destruct (try_simple_input_format_store env agent_id input st w1)
              as (Hc & Hd & Hk & st' & r & e & w2 & Hst & Hw2 & Hsteps)
        end.
        cbn [case steps documents calls update_processing_step] in *.
        split; [done|]. split; [done|]. split; [lia|]. split; [|done].
        left. congruence.
      * cbn. repeat split; try lia; try done. by left.
Qed.

(** X10.  What one invocation does to the store.  It never touches the case
    row or the documents; it calls the external service at most twice,
    and not at all when the stage has no agent identifier; and it leaves
    the recorded steps as they were or adds one step, finished as a
    success or an error, without altering the earlier ones. *)
Theorem invoke_bedrock_agent_store rt env agent_id input name agent_type w :
  let resp := (invoke_bedrock_agent rt env agent_id input name agent_type w).1 in
  let w' := (invoke_bedrock_agent rt env agent_id input name agent_type w).2 in
  case w' = case w ∧ documents w' = documents w
  ∧ (calls w ≤ calls w' ≤ calls w + 2)%nat
  ∧ one_step_more name agent_type (steps w) (steps w')
  ∧ (agent_id = None ∨ agent_id = Some "" →
     resp = not_configured ∧ w' = w).
Proof. apply invoke_store. Qed.

End AgentFacts.

Module SubmissionFacts.
Import Py Str Lib Main PipelineSpec AgentSpec SubmissionSpec.
Import RulesFacts PipelineFacts AgentFacts.

Lemma steps_added_refl names l : steps_added names l l.
Proof.
  exists []. rewrite app_nil_r.
  split; [done|]. split; [constructor | apply sublist_nil_l].
Qed.

Lemma steps_added_step name agent_type names l1 l2 l3 :
  one_step_more name agent_type l1 l2 → steps_added names l2 l3 →
  steps_added (name :: names) l1 l3.
Proof.
  intros [-> | (row & -> & Hn & _ & He & Hs)] (added & -> & Hall & Hsub).
  - exists added. split; [done|]. split; [done|]. by apply sublist_cons.
  - exists (row :: added). rewrite <- app_assoc.
    split; [done|]. split; [by constructor|].
    simpl. rewrite Hn. by apply sublist_skip.
Qed.

(** Destruct the stage at the head of the hypothesis and record what it
    did to the store. *)
Ltac run_stage H :=
  match type of H with
  | (let '(_, _) := ?x in _) = _ =>
      let E := fresh "E" in
      let S := fresh "S" in
      let resp := fresh "resp" in
      let w := fresh "w" in
      destruct x as [resp w] eqn:E;
      match type of E with
      | invoke_bedrock_agent ?rt ?env ?a ?i ?n ?t ?w0 = _ =>
          pose proof (invoke_store rt env a i n t w0) as S;
          rewrite E in S; cbn [fst snd] in S;
          destruct S as (? & ? & ? & ? & _)
      end
  end.

Ltac close_store H :=
  injection H as <- <-;
  cbn [steps calls update_case_status update_case_pep] in *;
  (split;
   [lia
   |unfold stage_names;
    repeat (eapply steps_added_step; [eassumption|]);
    apply steps_added_refl]).

Lemma process_body_store rt env customer_data w out w' :
  process_body rt env customer_data w = (out, w') →
  (calls w ≤ calls w' ≤ calls w + 10)%nat
  ∧ steps_added stage_names (steps w) (steps w').
Proof.
  unfold process_body, stage. intros H.
  step_body H; [|by close_store H].
  step_body H; [|by close_store H].
  store_ready H Hcase Hdocs;
    try apply get_or_create_case_store in Hcase as (Hs0 & Hk0 & _);
    try apply add_documents_to_database_rest in Hdocs as (_ & Hk1 & Hs1);
    try (injection H as <- <-; split;
         [lia | rewrite ?Hs1, ?Hs0; apply steps_added_refl]).
  rewrite <- Hk0, <- Hk1, <- Hs0, <- Hs1.
  do 4 run_stage H.
  step_body H; [|by close_store H].
  match goal with
  | found : option dict |- _ => destruct found
  end; cbv beta iota in H; run_stage H; step_body H; by close_store H.
Qed.







(** X11.  One submission and the store.  Whatever the answer, the run calls
    the external service at most ten times, and the steps it records
    come after the earlier ones, are all finished as a success or an
    error, and are named after some of the five stages, in the order
    of the stages. *)
Theorem submission_steps rt env customer_data w :
  let w' := (process_customer_submission rt env customer_data w).2 in
  (calls w ≤ calls w' ≤ calls w + 10)%nat
  ∧ steps_added stage_names (steps w) (steps w').
Proof.
  cbv zeta. unfold process_customer_submission.
  destruct (process_body rt env customer_data w) as [[r|e] w'] eqn:H;
    by apply process_body_store in H.
Qed.


(** The submission without a name is answered with an error and leaves
    no case, whatever the libraries do. *)
Lemma nameless_submission_refused rt :
  ∃ d,
    process_customer_submission rt example_outage example_nameless empty_store
    = (VDict d, empty_store)
    ∧ d !! "status" = Some (VStr "error").
Proof. eexists. split; [vm_compute; reflexivity | reflexivity]. Qed.

End SubmissionFacts.

Module EnrichmentFacts.
Import Py Str Lib Main EnrichSpec PipelineSpec RiskSpec EnrichmentSpec.
Import RulesFacts EnrichFacts.

Lemma enhance_with_other rt doc_type data comp comp' field :
  field ∉ all_fields →
  enhance_with rt doc_type data comp = Ok comp' →
  comp' !! field = comp !! field.
Proof.
  intros Hnot Henh. unfold enhance_with in Henh. unfold all_fields in Hnot.
  repeat case_bool_decide; invert_binds; injection Henh as <-;
    rewrite ?lookup_insert_ne; try done;
    intros <-; apply Hnot; rewrite !elem_of_cons; tauto.
Qed.

Lemma enhance_document_other rt env comp comp' entry field :
  field ∉ all_fields → field ≠ "document_details" →
  enhance_document rt env comp entry = Ok comp' →
  comp' !! field = comp !! field.
Proof.
  intros Hnot Hdd Henh. destruct entry as [doc_type doc_id].
  unfold enhance_document in Henh. invert_binds.
  destruct (find _ a) as [filename|]; [|by injection Henh as <-].
  destruct (extract_info_from_document env filename doc_type) as [data|error].
  - erewrite enhance_with_other; [|done..]. by apply set_document_details_other.
  - injection Henh as <-. by apply set_document_details_other.
Qed.

Lemma for_each_enhance_other rt env entries comp comp' field :
  field ∉ all_fields → field ≠ "document_details" →
  for_each (enhance_document rt env) entries comp = Ok comp' →
  comp' !! field = comp !! field.
Proof.
  intros Hnot Hdd. revert comp.
  induction entries as [|entry rest IH]; intros comp Hrun.
  - by injection Hrun as <-.
  - cbn [for_each] in Hrun. apply bind_Ok in Hrun as (comp1 & Hstep & Hrest).
    rewrite (IH _ Hrest). by eapply enhance_document_other.
Qed.

Lemma determine_customer_type_insert key v customer_data :
  key = "customer_type" ∨ key = "estimated_risk_level" →
  determine_customer_type (<[key := v]> customer_data)
  = determine_customer_type customer_data.
Proof.
  intros Hkey. unfold determine_customer_type.
  rewrite !RiskFacts.get_insert_ne, !RiskFacts.get_default_insert_ne;
    [done|by destruct Hkey as [-> | ->]..].
Qed.

Lemma calculate_estimated_risk_insert key v customer_data :
  key = "customer_type" ∨ key = "estimated_risk_level" →
  calculate_estimated_risk (<[key := v]> customer_data)
  = calculate_estimated_risk customer_data.
Proof.
  intros Hkey. unfold calculate_estimated_risk.
  rewrite !RiskFacts.get_insert_ne, !RiskFacts.get_default_insert_ne;
    [done|by destruct Hkey as [-> | ->]..].
Qed.

(** X13.  What enrichment never alters.  In the enriched record the contact
    and profile fields that no document feeds hold what the customer
    declared ([''] when left out), the flag [pep_status] and the
    documents are the declared ones, the processing status is
    [submitted], and the customer type and the estimated risk level have
    been added and are what [determine_customer_type] and
    [calculate_estimated_risk] give for the enriched record itself. *)
Theorem enrichment_keeps_declared rt env customer_data enriched :
  enhance_customer_data_with_documents rt env customer_data = Ok enriched →
  (∀ field, field ∈ declared_only →
            enriched !! field
            = Some (get_default customer_data field (VStr "")))
  ∧ enriched !! "pep_status"
    = Some (get_default customer_data "pep_status" (VBool false))
  ∧ enriched !! "documents"
    = Some (get_default customer_data "documents" (VDict ∅))
  ∧ enriched !! "processing_status" = Some (VStr "submitted")
  ∧ (∃ customer_type,
       determine_customer_type enriched = Ok customer_type
       ∧ enriched !! "customer_type" = Some (VStr customer_type))
  ∧ ∃ b, calculate_estimated_risk enriched = Ok b
         ∧ enriched !! "estimated_risk_level" = Some (VStr (band_name b)).
Proof.
  intros Hrun. unfold enhance_customer_data_with_documents in Hrun.
  apply bind_Ok in Hrun as (documents & _ & Hrun).
  apply bind_Ok in Hrun as (comp & Hloop & Hrun).
  apply bind_Ok in Hrun as (customer_type & Htype & Hrun).
  apply bind_Ok in Hrun as (b & Hband & [= <-]).
  assert (Hkeep : ∀ field,
            field ∉ all_fields → field ≠ "document_details" →
            field ≠ "customer_type" → field ≠ "estimated_risk_level" →
            <["estimated_risk_level" := VStr (band_name b)]>
              (<["customer_type" := VStr customer_type]> comp) !! field
            = initial_comprehensive_data env customer_data !! field).
  { intros field H1 H2 H3 H4. rewrite !lookup_insert_ne by done.
    by eapply for_each_enhance_other. }
  split; [|split; [|split; [|split; [|split]]]].
  - intros field Hin. unfold declared_only in Hin.
    rewrite Hkeep; [ | unfold all_fields; intros ?; list_cases
                     | intros ->; list_cases..].
    list_cases; reflexivity.
  - rewrite Hkeep; [reflexivity | unfold all_fields; intros ?; list_cases
                    | done..].
  - rewrite Hkeep; [reflexivity | unfold all_fields; intros ?; list_cases
                    | done..].
  - rewrite Hkeep; [reflexivity | unfold all_fields; intros ?; list_cases
                    | done..].
  - exists customer_type. split; [|by rewrite lookup_insert_ne, lookup_insert_eq].
    rewrite (determine_customer_type_insert "estimated_risk_level") by (by right).
    by rewrite (determine_customer_type_insert "customer_type") by (by left).
  - exists b. split; [|by rewrite lookup_insert_eq].
    by rewrite (calculate_estimated_risk_insert "estimated_risk_level")
      by (by right).
Qed.

Lemma enrichment_keeps_declared_witness :
  ∃ v, ∀ rt, ∃ enriched,
    enhance_customer_data_with_documents rt example_env example_declared
    = Ok enriched
    ∧ enriched !! "processing_status" = Some v.
Proof.
  exists (VStr "submitted"). intros rt.
  destruct (enhance_customer_data_with_documents rt example_env example_declared)
    as [enriched|e] eqn:Hrun.
  - exists enriched. split; [reflexivity|].
    exact (proj1 (proj2 (proj2 (proj2
             (enrichment_keeps_declared rt example_env example_declared
                                        enriched Hrun))))).
  - exfalso.
    assert (Hok : enriched_field rt example_env example_declared "dob"
                  = Some (VStr "1958-06-15")) by (vm_compute; reflexivity).
    unfold enriched_field in Hok. rewrite Hrun in Hok. discriminate.
Defined.

Lemma parse_salary_not_text rt salary :
  truthy salary = true → is_text salary = false →
  parse_salary rt salary = Raise (AttributeError (type_name salary) "replace").
Proof.
  intros Htruthy Htext. unfold parse_salary. rewrite Htruthy.
  by destruct salary.
Qed.

Lemma enhance_document_salary rt env comp doc_id e :
  extracted_as rt env "employment_proof" doc_id e →
  truthy (get e "annual_salary") = true →
  is_text (get e "annual_salary") = false →
  ∃ ex, enhance_document rt env comp ("employment_proof", doc_id) = Raise ex.
Proof.
  intros (filenames & filename & Hls & Hfind & Hext) Htruthy Htext.
  unfold enhance_document. rewrite Hls. cbn [bind]. rewrite Hfind, Hext.
  unfold enhance_with. cbn [bool_decide decide_rel]. simpl bool_decide.
  cbn iota. cbn [as_dict bind].
  rewrite (parse_salary_not_text rt _ Htruthy Htext). by eexists.
Qed.

Lemma for_each_raises {A S} (body : S → A → result S) entries entry :
  entry ∈ entries →
  (∀ s, ∃ ex, body s entry = Raise ex) →
  ∀ s, ∃ ex, for_each body entries s = Raise ex.
Proof.
  intros Hin Hraise. induction entries as [|x rest IH]; intros s.
  - by apply elem_of_nil in Hin.
  - cbn [for_each]. apply elem_of_cons in Hin as [<- | Hin].
    + destruct (Hraise s) as [ex ->]. by exists ex.
    + destruct (body s x) as [s'|ex]; cbn [bind]; [by apply IH | by exists ex].
Qed.

(** X14.  A salary extracted as a number stops the submission.  When the
    employment document of a submission is found and its extraction
    succeeds with an [annual_salary] that is not empty and not a string,
    [parse_salary] raises [AttributeError], enrichment raises, and the
    submission is answered with status [error] before the store is
    touched: no case is created and no stage runs. *)
Theorem numeric_salary_fails_submission rt env customer_data w documents
    doc_id e :
  get_default customer_data "documents" (VDict ∅) = VDict documents →
  documents !! "employment_proof" = Some doc_id →
  extracted_as rt env "employment_proof" doc_id e →
  truthy (get e "annual_salary") = true →
  is_text (get e "annual_salary") = false →
  ∃ d, process_customer_submission rt env customer_data w = (VDict d, w)
       ∧ d !! "status" = Some (VStr "error").
Proof.
  intros Hdocs Hdoc Hext Htruthy Htext.
  assert (Henh : ∀ c,
            get_default c "documents" (VDict ∅) = VDict documents →
            ∃ ex, enhance_customer_data_with_documents rt env c = Raise ex).
  { intros c Hc. unfold enhance_customer_data_with_documents.
    rewrite Hc. cbn [as_dict bind].
    destruct (for_each_raises (enhance_document rt env) (map_to_list documents)
                ("employment_proof", doc_id)
                ltac:(by apply elem_of_map_to_list)
                ltac:(intros s; by eapply enhance_document_salary)
                (initial_comprehensive_data env c)) as [ex ->].
    by exists ex. }
  unfold process_customer_submission, process_body.
  destruct (customer_data !! "customer_id") as [given|] eqn:Hid.
  - destruct (Henh customer_data Hdocs) as [ex ->].
    eexists. split; reflexivity.
  - destruct (fresh_customer_id env) as [fresh|ex]; cbn [bind].
    + destruct (Henh (<["customer_id" := VStr fresh]> customer_data))
        as [ex ->]; [by rewrite RiskFacts.get_default_insert_ne|].
      eexists. split; reflexivity.
    + eexists. split; reflexivity.
Qed.

Lemma numeric_salary_fails_submission_witness :
  truthy (VInt 85000) = true
  ∧ ∀ rt, ∃ d,
      process_customer_submission rt example_salary_env
                                  example_salary_submission empty_store
      = (VDict d, empty_store)
      ∧ d !! "status" = Some (VStr "error").
Proof.
  split; [reflexivity|]. intros rt.
  apply (numeric_salary_fails_submission rt example_salary_env
           example_salary_submission empty_store
           (dict_literal [("employment_proof", VStr "E1")]) (VStr "E1")
           (dict_literal [("employer_name", VStr "Acme");
                          ("annual_salary", VInt 85000)])).
  - reflexivity.
  - reflexivity.
  - exists ["employment_proof_E1.pdf"], "employment_proof_E1.pdf".
    repeat split.
  - reflexivity.
  - reflexivity.
Defined.

End EnrichmentFacts.

Module DatabaseFacts.
Import Py Str Lib Database.






















End DatabaseFacts.


Module RegistrationFacts.
Import Py Str Lib Main EnrichSpec PipelineSpec RegistrationSpec.
Import RulesFacts PipelineFacts.

Lemma add_document_row rt env w entry w' :
  add_document rt env w entry = Ok w' →
  (documents w' = documents w ∧ skips rt env entry)
  ∨ ∃ row, documents w' = documents w ++ [row] ∧ registers rt env entry row.
Proof.
  unfold add_document. destruct entry as [doc_type doc_id]. intros H.
  apply bind_Ok in H as (filenames & Hls & H).
  destruct (find _ filenames) as [filename|] eqn:Hfind.
  - cbv zeta in H. unfold document_error in H.
    destruct (bind_error env _); [done|].
    cbn [document_id] in H.
    destruct (is_none doc_id) eqn:Hid; [done|].
    injection H as <-. cbn [documents]. right. eexists.
    split; [reflexivity|]. split; [done|]. split; [done|].
    split; [by destruct doc_id|].
    exists filenames, filename. split; [done|]. split; [done|].
    split; [done|]. cbn [document_extracted_data fst].
    by destruct (extract_info_from_document env filename doc_type).
  - injection H as <-. left. split; [done|]. by exists filenames.
Qed.

(** Whether and how a round fails does not depend on the store. *)
Lemma add_document_raise rt env w entry e :
  add_document rt env w entry = Raise e →
  ∀ w0, add_document rt env w0 entry = Raise e.
Proof.
  unfold add_document. destruct entry as [doc_type doc_id]. intros H w0.
  destruct (listdir env) as [filenames|]; [|exact H]. cbn [bind] in *.
  destruct (find _ filenames); [|done].
  cbv zeta in *. by destruct (document_error _ _).
Qed.

(** X16.  Registering the documents of a submission.
    [add_documents_to_database] appends to the registered documents one
    row for each submitted entry that has a file in the documents
    directory, in the order it iterates over the entries, and none for
    the others: the row holds the first file named after the entry and
    its extracted data, or [None] when extraction failed or gave
    nothing truthy, and its identifier is not [None].  When a round
    raises, the rows of the entries before it stay.  Nothing else in
    the store changes. *)
Theorem add_documents_to_database_rows rt env entries w out w' :
  for_each_stored (add_document rt env) entries w = (out, w') →
  case w' = case w ∧ steps w' = steps w ∧ calls w' = calls w
  ∧ ∃ rows,
      documents w' = documents w ++ rows
      ∧ match out with
        | Ok _ => registered rt env entries rows
        | Raise e =>
            ∃ before failing after,
              entries = before ++ failing :: after
              ∧ registered rt env before rows
              ∧ ∀ w0, add_document rt env w0 failing = Raise e
        end.
Proof.
  intros H.
  destruct (for_each_stored_add_document _ _ _ _ _ _ H) as (Hc & Hk & Hs).
  do 3 (split; [done|]). clear Hc Hk Hs.
  revert w H. induction entries as [|entry rest IH]; intros w H.
  - injection H as <- <-. exists []. rewrite app_nil_r.
    split; [done | constructor].
  - cbn [for_each_stored] in H.
    destruct (add_document rt env w entry) as [w1|e] eqn:Hstep.
    + destruct (IH _ H) as (rows & Hdocs & Hout).
      apply add_document_row in Hstep
        as [[Hsame Hskip] | (row & Hadd & Hrow)].
      * exists rows. rewrite Hdocs, Hsame. split; [done|].
        destruct out as [[]|e].
        -- by constructor.
        -- destruct Hout as (before & failing & after & -> & Hreg & Hfail).
           exists (entry :: before), failing, after.
           split; [done|]. split; [by constructor | done].
      * exists (row :: rows). rewrite Hdocs, Hadd, <- app_assoc.
        split; [done|]. destruct out as [[]|e].
        -- by constructor.
        -- destruct Hout as (before & failing & after & -> & Hreg & Hfail).
           exists (entry :: before), failing, after.
           split; [done|]. split; [by constructor | done].
    + injection H as <- <-. exists []. rewrite app_nil_r. split; [done|].
      exists [], entry, rest. split; [done|]. split; [constructor|].
      by eapply add_document_raise.
Qed.

Lemma add_documents_to_database_rows_witness :
  ∃ row,
    document_filename row = Some "id_proof_P1.jpg"
    ∧ document_extracted_data row = VDict example_extracted
    ∧ ∀ rt, ∃ w',
        for_each_stored (add_document rt example_env)
                        [("id_proof", VStr "P1"); ("address_proof", VStr "U1")]
                        empty_store
        = (Ok tt, w')
        ∧ documents w' = [row]
        ∧ registered rt example_env
                     [("id_proof", VStr "P1"); ("address_proof", VStr "U1")]
                     [row].
Proof.
  exists {| document_type := "id_proof"; document_id := VStr "P1";
            document_filename := Some "id_proof_P1.jpg";
            document_extracted_data := VDict example_extracted |}.
  split; [reflexivity|]. split; [reflexivity|]. intros rt.
  destruct (for_each_stored (add_document rt example_env)
              [("id_proof", VStr "P1"); ("address_proof", VStr "U1")]
              empty_store) as [out w'] eqn:H.
  destruct (add_documents_to_database_rows rt example_env _ _ _ _ H)
    as (_ & _ & _ & rows & Hdocs & Hreg).
  assert (Hrun :
            (out, w')
            = (Ok tt,
               {| case := None; steps := [];
                  documents :=
                    [{| document_type := "id_proof"; document_id := VStr "P1";
                        document_filename := Some "id_proof_P1.jpg";
                        document_extracted_data := VDict example_extracted |}];
                  calls := 0 |}))
    by (rewrite <- H; vm_compute; reflexivity).
  injection Hrun as -> ->. eexists. split; [reflexivity|].
  split; [reflexivity|].
  cbn [documents empty_store app] in Hdocs. rewrite Hdocs. exact Hreg.
Defined.

End RegistrationFacts.

Module RiskLevelFacts.
Import Py Str Lib Main.

(** X17.  When reading the risk level raises.  [extract_risk_level] raises
    exactly for a dict response whose [risk_analysis_results] entry is
    present and not a dict; the exception is the [AttributeError] of
    calling [get] on that entry.  For every other response it returns. *)
Theorem risk_level_failure rt risk_response e :
  extract_risk_level rt risk_response = Raise e
  ↔ ∃ d results,
      risk_response = VDict d
      ∧ d !! "risk_analysis_results" = Some results
      ∧ (∀ inner, results ≠ VDict inner)
      ∧ e = AttributeError (type_name results) "get".
Proof.
  unfold extract_risk_level. split.
  - destruct risk_response as [| | | | |l|d]; try discriminate.
    unfold get, get_default, get_of.
    destruct (d !! "risk_analysis_results") as [results|] eqn:Hres.
    + rewrite bool_decide_eq_true_2 by by eexists.
      intros H. exists d, results. split; [done|]. split; [done|].
      destruct results; try discriminate; cbn [as_dict bind] in H;
        injection H as <-; by split.
    + rewrite bool_decide_eq_false_2 by by intros [? ?].
      case_bool_decide; [discriminate|].
      by destruct (d !! "response_text") as [[]|].
  - intros (d & results & -> & Hres & Hnot & ->).
    rewrite bool_decide_eq_true_2 by by eexists.
    unfold get, get_default, get_of. rewrite Hres.
    destruct results; try reflexivity. by destruct (Hnot d0).
Qed.

End RiskLevelFacts.

Module LlmFacts.
Import Py Str Lib Rules Main Llm.
Import RulesFacts.

Lemma py_in_dict field d :
  py_in field (VDict d) = Ok (bool_decide (is_Some (d !! field))).
Proof. reflexivity. Qed.

(** One default: the field is present afterwards, what was present
    stays, and a value that is not a dict comes back unchanged. *)
Lemma set_default_step field default v v' :
  set_default field default v = Ok v' →
  py_in field v' = Ok true
  ∧ (∀ other, py_in other v = Ok true → py_in other v' = Ok true)
  ∧ ((∀ d, v ≠ VDict d) → v' = v).
Proof.
  unfold set_default. intros H. apply bind_Ok in H as (present & Hin & H).
  destruct present.
  - injection H as <-. by repeat split.
  - destruct v as [| | | | | |d]; try discriminate. injection H as <-.
    split; [|split].
    + rewrite py_in_dict, lookup_insert_eq. by rewrite bool_decide_eq_true_2.
    + intros other. rewrite !py_in_dict. intros [= Hother%bool_decide_eq_true].
      f_equal. apply bool_decide_eq_true.
      destruct (decide (field = other)) as [-> | Hne].
      * by rewrite lookup_insert_eq.
      * by rewrite lookup_insert_ne.
    + intros Hnot. by destruct (Hnot d).
Qed.

Lemma for_each_set_default entries v v' :
  for_each (fun v entry => set_default entry.1 entry.2 v) entries v = Ok v' →
  Forall (fun field => py_in field v' = Ok true) entries.*1
  ∧ (∀ other, py_in other v = Ok true → py_in other v' = Ok true)
  ∧ ((∀ d, v ≠ VDict d) → v' = v).
Proof.
  revert v. induction entries as [|[field default] rest IH]; intros v H.
  - injection H as <-. by repeat split.
  - cbn [for_each] in H. apply bind_Ok in H as (v1 & Hstep & Hrest).
    apply set_default_step in Hstep as (Hfield & Hkeep & Hsame).
    destruct (IH _ Hrest) as (Hall & Hkeep' & Hsame').
    split; [|split].
    + rewrite fmap_cons. constructor; [|done]. by apply Hkeep'.
    + intros other Hother. by apply Hkeep', Hkeep.
    + intros Hnot. pose proof (Hsame Hnot) as Hstep.
      rewrite Hsame'; [done|]. by rewrite Hstep.
Qed.

(** The first default a list of entries gives for a key. *)
Lemma for_each_set_default_dict entries d :
  ∃ d',
    for_each (fun v entry => set_default entry.1 entry.2 v) entries (VDict d)
    = Ok (VDict d')
    ∧ ∀ key,
        d' !! key
        = match d !! key with
          | Some given => Some given
          | None =>
              snd <$> find (fun entry => bool_decide (entry.1 = key)) entries
          end.
Proof.
  revert d. induction entries as [|[field default] rest IH]; intros d.
  - exists d. split; [done|]. intros key. by destruct (d !! key).
  - cbn [for_each]. unfold set_default at 1. rewrite py_in_dict. cbn [bind fst snd].
    destruct (d !! field) as [given|] eqn:Hfield.
    + rewrite bool_decide_eq_true_2 by by eexists. cbn [bind].
      destruct (IH d) as (d' & -> & Hlook). exists d'. split; [done|].
      intros key. rewrite Hlook. destruct (d !! key) eqn:Hkey; [done|].
      cbn [find fst]. case_bool_decide; [congruence | done].
    + rewrite bool_decide_eq_false_2 by by intros [? ?]. cbn [bind].
      destruct (IH (<[field := default]> d)) as (d' & -> & Hlook).
      exists d'. split; [done|]. intros key. rewrite Hlook.
      cbn [find fst]. case_bool_decide as Hkey.
      * subst key. by rewrite lookup_insert_eq, Hfield.
      * by rewrite lookup_insert_ne.
Qed.

Lemma defaults_lookup key :
  snd <$> find (fun entry => bool_decide (entry.1 = key)) defaults
  = dict_literal defaults !! key.
Proof.
  unfold defaults, dict_literal. cbn [foldl find fst snd].
  repeat (case_bool_decide;
          [subst key; by rewrite ?lookup_insert_ne, ?lookup_insert_eq by done|]).
  by rewrite !lookup_insert_ne, lookup_empty by done.
Qed.

Lemma fill_defaults_dict d :
  fill_defaults (VDict d) = Ok (VDict (d ∪ dict_literal defaults)).
Proof.
  unfold fill_defaults.
  destruct (for_each_set_default_dict defaults d) as (d' & -> & Hlook).
  do 2 f_equal. apply map_eq. intros key.
  rewrite Hlook, defaults_lookup, lookup_union.
  by destruct (d !! key), (dict_literal defaults !! key).
Qed.

Lemma parse_Got rt response v :
  _parse_llm_validation_response rt response = Got v →
  ∃ text parsed,
    response_text_of response = Ok (Some (VStr text)) ∧ text ≠ ""
    ∧ json_loads rt (default (json_candidate text) (code_block text))
      = Some parsed
    ∧ fill_defaults parsed = Ok v.
Proof.
  unfold _parse_llm_validation_response, extracted_json.
  destruct (response_text_of response) as [[response_text|]|]; try discriminate.
  destruct (truthy response_text) eqn:Htruthy; [|discriminate].
  destruct response_text as [| | | |text| |]; try discriminate.
  cbn [negb]. intros H. exists text.
  assert (Htext : text ≠ "").
  { intros ->. discriminate Htruthy. }
  destruct (code_block text) as [json_str|]; cbn [default];
    (destruct (json_loads rt _) as [parsed|] eqn:Hjson; [|discriminate]);
    (destruct (fill_defaults parsed) as [v'|] eqn:Hfill; [|discriminate]);
    injection H as <-; by exists parsed.
Qed.

(** X18.  What [_parse_llm_validation_response] returns.  When it returns, the
    response held a non-empty text, and the value is the JSON value read
    from it, completed.  The JSON is read from the first fenced code
    block of the text or, without one, from the first opening brace to
    the last closing one (from the whole text when one of them is
    missing).  The five fields ([overall_match], [confidence_score],
    [discrepancies], [warnings], [validation_details]) are all in the
    value; if the JSON value is an object, the result is that object
    with the default of each missing field added and every entry of the
    model kept as it is, whatever it holds; a JSON value that is not an
    object is returned unchanged. *)
Theorem parsed_response_is_completed rt response v :
  _parse_llm_validation_response rt response = Got v →
  ∃ text parsed,
    response_text_of response = Ok (Some (VStr text)) ∧ text ≠ ""
    ∧ json_loads rt (default (json_candidate text) (code_block text))
      = Some parsed
    ∧ Forall (fun field => py_in field v = Ok true) defaults.*1
    ∧ (∀ d, parsed = VDict d → v = VDict (d ∪ dict_literal defaults))
    ∧ ((∀ d, parsed ≠ VDict d) → v = parsed).
Proof.
  intros (text & parsed & Hresp & Htext & Hjson & Hfill)%parse_Got.
  exists text, parsed. do 3 (split; [done|]).
  destruct (for_each_set_default _ _ _ Hfill) as (Hall & _ & Hsame).
  split; [done|]. split; [|done].
  intros d ->. rewrite fill_defaults_dict in Hfill. by injection Hfill as <-.
Qed.

Lemma parsed_response_is_completed_witness :
  ∃ v, _parse_llm_validation_response example_runtime example_reply = Got v
       ∧ Forall (fun field => py_in field v = Ok true) defaults.*1.
Proof.
  destruct (_parse_llm_validation_response example_runtime example_reply)
    as [v|f] eqn:H; [|vm_compute in H; discriminate].
  exists v. split; [reflexivity|].
  destruct (parsed_response_is_completed _ _ _ H)
    as (_ & _ & _ & _ & _ & Hall & _).
  exact Hall.
Defined.


Lemma example_reply_read :
  response_text_of example_reply
  = Ok (Some (VStr ("Result:" +:+ newline +:+ "```json" +:+ newline
                    +:+ "{}" +:+ newline +:+ "```")))
  ∧ code_block ("Result:" +:+ newline +:+ "```json" +:+ newline
                +:+ "{}" +:+ newline +:+ "```")
    = Some "{}".
Proof. split; vm_compute; reflexivity. Qed.

End LlmFacts.
